(** * packwiz: index reconciliation and installation engine

    A shallow embedding of the parts of the packwiz sources that the
    specification talks about:

      - [core/mod.go]        (metadata records, [SlugifyName], side and
                              platform validation),
      - [cmd/modify.go]      ([modifyModProperties]),
      - [modrinth/import.go] ([determineSideFromEnv], the batch import
                              loop with its checkpoints,
                              [getProjectWithRateLimit]),
      - the file of the [diff] command, package [modrinth]
                             ([getCurrentModrinthMods],
                              [getMrpackModsWithInfo], [compareMods]).

    [modrinth/import.go] holds two revisions of the import command:
    [determineSideFromEnv] belongs to the first, the loop with the
    checkpoints, the duplicate check and [getProjectWithRateLimit] to the
    second; the functions the two share are the same in both.

    Go strings are byte strings and are modelled by [string]; a Go map is
    modelled by the list of its entries, the order of the list being the
    order in which one [range] statement visits them (an order that Go
    leaves unspecified). *)

From Stdlib Require Import String Ascii List Bool Arith PeanoNat NArith Lia.
From Stdlib Require Import Permutation Sorted.
Import ListNotations.

Local Open Scope list_scope.
Local Open Scope string_scope.

Set Implicit Arguments.

(* ================================================================== *)
(** * Go's [strings] package, on byte strings *)
(* ================================================================== *)

Module GoStrings.

Definition byte_in (lo hi : nat) (c : ascii) : bool :=
  ((lo <=? nat_of_ascii c) && (nat_of_ascii c <=? hi))%nat.

Definition is_upper (c : ascii) : bool := byte_in 65 90 c.
Definition is_lower (c : ascii) : bool := byte_in 97 122 c.
Definition is_digit (c : ascii) : bool := byte_in 48 57 c.

(** ASCII white space, as [strings.TrimSpace] sees it:
    tab, line feed, vertical tab, form feed, carriage return, space. *)
Definition is_space (c : ascii) : bool :=
  byte_in 9 13 c || (nat_of_ascii c =? 32)%nat.

Definition lower_byte (c : ascii) : ascii :=
  if is_upper c then ascii_of_nat (nat_of_ascii c + 32) else c.

(** [strings.ToLower]; bytes outside ASCII are left as they are. *)
Fixpoint ToLower (s : string) : string :=
  match s with
  | EmptyString => EmptyString
  | String c s' => String (lower_byte c) (ToLower s')
  end.

Fixpoint trim_left (s : string) : string :=
  match s with
  | EmptyString => EmptyString
  | String c s' => if is_space c then trim_left s' else s
  end.

(** Drops trailing white space: a byte is kept when it is not a space
    or when something is kept after it. *)
Fixpoint trim_right (s : string) : string :=
  match s with
  | EmptyString => EmptyString
  | String c s' =>
      match trim_right s' with
      | EmptyString => if is_space c then EmptyString else String c EmptyString
      | t => String c t
      end
  end.

(** [strings.TrimSpace] *)
Definition TrimSpace (s : string) : string := trim_right (trim_left s).

(** [strings.Join] *)
Fixpoint Join (elems : list string) (sep : string) : string :=
  match elems with
  | [] => ""
  | [x] => x
  | x :: rest => x ++ sep ++ Join rest sep
  end.

(** [strings.Compare]: byte-wise lexicographic order. *)
Definition Compare (a b : string) : comparison := String.compare a b.

(** [a <= b] in the order of [Compare]. *)
Definition leb (a b : string) : bool :=
  match Compare a b with Gt => false | _ => true end.

(** [strings.HasSuffix] *)
Definition HasSuffix (s suffix : string) : bool :=
  (String.length suffix <=? String.length s)%nat
  && String.eqb (substring (String.length s - String.length suffix)
                           (String.length suffix) s) suffix.

(** [strings.TrimSuffix] *)
Definition TrimSuffix (s suffix : string) : string :=
  if HasSuffix s suffix
  then substring 0 (String.length s - String.length suffix) s
  else s.

End GoStrings.

(* ================================================================== *)
(** * The fragment of Go's [regexp] used by [core/mod.go] *)
(* ================================================================== *)

Module Regexp.

Inductive regex : Type :=
| Lit (c : ascii)                 (* a literal byte *)
| Dot                             (* [.]: any byte but line feed *)
| Class (p : ascii -> bool)       (* [[...]] and [[^...]] *)
| Cat (r1 r2 : regex)
| Alt (r1 r2 : regex)             (* [r1|r2], [r1] preferred *)
| Star (r : regex)                (* greedy [r*] *)
| Plus (r : regex)                (* greedy [r+] *)
| BeginText                       (* [^] *)
| EndText.                        (* [$] *)

Fixpoint size (r : regex) : nat :=
  match r with
  | Cat a b | Alt a b => S (size a + size b)
  | Star a => S (size a)
  | Plus a => S (S (S (size a + size a)))
  | _ => 1
  end.

Fixpoint lits (s : string) : regex :=
  match s with
  | EmptyString => Star (Class (fun _ => false))
  | String c EmptyString => Lit c
  | String c s' => Cat (Lit c) (lits s')
  end.

(** Backtracking matcher in continuation style.  [atStart] tells whether
    the current position is the beginning of the whole text; the
    continuation receives the same flag and the rest of the input.  The
    first success in the order a backtracking search tries the
    alternatives is returned, which is Go's leftmost-first rule for a
    fixed starting position. *)
Fixpoint matchHere (fuel : nat) (r : regex) (atStart : bool) (s : string)
    (k : bool -> string -> option string) : option string :=
  match fuel with
  | 0 => None
  | S fuel' =>
      match r with
      | Lit c =>
          match s with
          | String d s' => if Ascii.eqb c d then k false s' else None
          | EmptyString => None
          end
      | Dot =>
          match s with
          | String d s' => if Ascii.eqb d "010" then None else k false s'
          | EmptyString => None
          end
      | Class p =>
          match s with
          | String d s' => if p d then k false s' else None
          | EmptyString => None
          end
      | Cat r1 r2 =>
          matchHere fuel' r1 atStart s
            (fun st s' => matchHere fuel' r2 st s' k)
      | Alt r1 r2 =>
          match matchHere fuel' r1 atStart s k with
          | Some rest => Some rest
          | None => matchHere fuel' r2 atStart s k
          end
      | Star r1 =>
          match matchHere fuel' r1 atStart s
                  (fun st s' =>
                     if (String.length s' <? String.length s)%nat
                     then matchHere fuel' (Star r1) st s' k
                     else None) with
          | Some rest => Some rest
          | None => k atStart s
          end
      | Plus r1 => matchHere fuel' (Cat r1 (Star r1)) atStart s k
      | BeginText => if atStart then k atStart s else None
      | EndText =>
          match s with
          | EmptyString => k atStart s
          | _ => None
          end
      end
  end.

(** The rest of the input after the preferred match of [r] at the
    current position, if there is one. *)
Definition matchPrefix (r : regex) (atStart : bool) (s : string)
  : option string :=
  matchHere (2 * (String.length s + size r) + 2) r atStart s
            (fun _ rest => Some rest).

(** The loop of [Regexp.ReplaceAllString] for a replacement without
    [$] references.  [afterMatch] says that the previous match ended
    exactly here and not at offset 0: an empty match at such a position
    is not replaced. *)
Fixpoint replaceLoop (fuel : nat) (r : regex) (repl : string)
    (atStart afterMatch : bool) (s : string) : string :=
  match fuel with
  | 0 => s
  | S fuel' =>
      match matchPrefix r atStart s with
      | Some rest =>
          if (String.length rest <? String.length s)%nat
          then repl ++ replaceLoop fuel' r repl false true rest
          else
            let ins := if afterMatch then "" else repl in
            match s with
            | EmptyString => ins
            | String c s' =>
                ins ++ String c (replaceLoop fuel' r repl false false s')
            end
      | None =>
          match s with
          | EmptyString => ""
          | String c s' =>
              String c (replaceLoop fuel' r repl false false s')
          end
      end
  end.

Definition ReplaceAllString (r : regex) (src repl : string) : string :=
  replaceLoop (S (String.length src)) r repl true false src.

End Regexp.

(* ================================================================== *)
(** * [core/mod.go] *)
(* ================================================================== *)

Module Core.
Import GoStrings Regexp.

(** ModOption specifies optional metadata for this mod file *)
Record ModOption : Type := mkModOption {
  Optional : bool;
  Description : string;
  Default : bool
}.

(** ModDownload specifies how to download the mod file *)
Record ModDownload : Type := mkModDownload {
  URL : string;
  DisabledClientPlatforms : list string;
  HashFormat : string;
  Hash : string;
  Mode : string
}.

Definition ServerSide := "server".
Definition ClientSide := "client".
Definition UniversalSide := "both".
Definition EmptySide := "".

Definition ValidClientPlatforms : list string := ["macos"; "linux"; "windows"].

(** [\(.*\)] *)
Definition slugifyRegex1 : regex := Cat (Lit "(") (Cat (Star Dot) (Lit ")")).
(** [ - .+] *)
Definition slugifyRegex2 : regex := Cat (lits " - ") (Plus Dot).
(** [[^a-z\d]] *)
Definition slugifyRegex3 : regex :=
  Class (fun c => negb (is_lower c || is_digit c)).
(** [-+] *)
Definition slugifyRegex4 : regex := Plus (Lit "-").
(** [^-|-$] *)
Definition slugifyRegex5 : regex :=
  Alt (Cat BeginText (Lit "-")) (Cat (Lit "-") EndText).

Definition SlugifyName (name : string) : string :=
  let lower := ToLower name in
  let noBrackets := ReplaceAllString slugifyRegex1 lower "" in
  let noSuffix := ReplaceAllString slugifyRegex2 noBrackets "" in
  let limitedChars := ReplaceAllString slugifyRegex3 noSuffix "-" in
  let noDuplicateDashes := ReplaceAllString slugifyRegex4 limitedChars "-" in
  let noLeadingTrailingDashes :=
    ReplaceAllString slugifyRegex5 noDuplicateDashes "" in
  noLeadingTrailingDashes.

(** ValidateSide checks if the given side value is valid; [None] is Go's
    [nil] error. *)
Definition ValidateSide (side : string) : option string :=
  if String.eqb side "" then Some "side cannot be empty"
  else
    let validSides := [ClientSide; ServerSide; UniversalSide; "both"] in
    if existsb (String.eqb side) validSides then None
    else Some ("invalid side '" ++ side ++ "'. Valid values are: "
               ++ Join validSides ", ").

(** NormalizeSide converts user-friendly side values to internal constants *)
Definition NormalizeSide (side : string) : string :=
  let side := TrimSpace side in
  if String.eqb side "both" then UniversalSide else side.

(** ValidateClientPlatforms checks if all platforms in the slice are valid *)
Fixpoint ValidateClientPlatforms (platforms : list string) : option string :=
  match platforms with
  | [] => None
  | platform :: rest =>
      if String.eqb platform "" then ValidateClientPlatforms rest
      else
        let platform := ToLower (TrimSpace platform) in
        if existsb (String.eqb platform) ValidClientPlatforms
        then ValidateClientPlatforms rest
        else Some ("invalid platform '" ++ platform
                   ++ "'. Valid platforms are: "
                   ++ Join ValidClientPlatforms ", ")
  end.

(** The loop of NormalizeClientPlatforms; [seen] is the set of names
    already appended. *)
Fixpoint normalizeLoop (platforms normalized seen : list string)
  : list string :=
  match platforms with
  | [] => normalized
  | platform :: rest =>
      if String.eqb platform "" then normalizeLoop rest normalized seen
      else
        let platform := ToLower (TrimSpace platform) in
        if negb (existsb (String.eqb platform) seen)
           && existsb (String.eqb platform) ValidClientPlatforms
        then normalizeLoop rest (normalized ++ [platform])%list
                           (platform :: seen)
        else normalizeLoop rest normalized seen
  end.

(** NormalizeClientPlatforms cleans up and deduplicates platform names *)
Definition NormalizeClientPlatforms (platforms : list string) : list string :=
  normalizeLoop platforms [] [].

(** ** Go maps

    A map is the list of its entries, without repeated keys; the list
    order is the order one [range] visits the entries. *)
Section GoMap.
Variable V : Type.

Definition gomap := list (string * V).

Fixpoint get (m : gomap) (k : string) : option V :=
  match m with
  | [] => None
  | (k', v) :: rest => if String.eqb k k' then Some v else get rest k
  end.

(** [m[k] = v] *)
Fixpoint set (m : gomap) (k : string) (v : V) : gomap :=
  match m with
  | [] => [(k, v)]
  | (k', v') :: rest =>
      if String.eqb k k' then (k, v) :: rest else (k', v') :: set rest k v
  end.

Definition has (m : gomap) (k : string) : bool :=
  match get m k with Some _ => true | None => false end.

Definition keys (m : gomap) : list string := map fst m.
End GoMap.

(** ** Metadata records *)

(** Parsed updater data, the dynamic values kept in [Mod.updateData]:
    the modrinth updater's [mrUpdateData] (mod-id, version), or the data
    of some other updater. *)
Inductive UpdateData : Type :=
| MrUpdateData (ProjectID InstalledVersion : string)
| ForeignUpdateData (raw : gomap string).

(** Mod stores metadata about a mod. This is written to a TOML file for
    each mod. *)
Record Mod : Type := mkMod {
  metaFile : string;
  Name : string;
  FileName : string;
  Side : string;
  Pin : bool;
  Download : ModDownload;
  Update : gomap (gomap string);
  updateData : gomap UpdateData;
  Option : option ModOption
}.

Definition emptyDownload : ModDownload := mkModDownload "" [] "" "" "".
Definition emptyMod : Mod := mkMod "" "" "" "" false emptyDownload [] [] None.

(** SetMetaPath sets the file path of a metadata file *)
Definition SetMetaPath (m : Mod) (path : string) : Mod * string :=
  (mkMod path (Name m) (FileName m) (Side m) (Pin m) (Download m)
         (Update m) (updateData m) (Option m), path).

(** GetParsedUpdateData can be used to retrieve updater-specific
    information after parsing a mod file *)
Definition GetParsedUpdateData (m : Mod) (updaterName : string)
  : option UpdateData :=
  get (updateData m) updaterName.

(** ** The written form of a record

    What the TOML encoder emits for a [Mod], following the struct tags:
    a key tagged [omitempty] is left out when its value is empty (empty
    string, [false], empty list, nil pointer); [metaFile] and
    [updateData] are unexported and never written. *)
Inductive tomlValue : Type :=
| TString (s : string)
| TBool (b : bool)
| TArray (l : list string).

Definition tomlBody := list (string * tomlValue).

(** A document is a sequence of top-level keys and of tables, each
    table with its dotted name. *)
Inductive tomlItem : Type :=
| KeyVal (key : string) (val : tomlValue)
| Table (name : list string) (body : tomlBody).

Definition omitStr (key val : string) : tomlBody :=
  if String.eqb val "" then [] else [(key, TString val)].
Definition omitBool (key : string) (val : bool) : tomlBody :=
  if val then [(key, TBool true)] else [].
Definition omitArr (key : string) (val : list string) : tomlBody :=
  match val with [] => [] | _ => [(key, TArray val)] end.

Definition encodeDownload (d : ModDownload) : tomlBody :=
  (omitStr "url" (URL d)
   ++ omitArr "disabled-client-platforms" (DisabledClientPlatforms d)
   ++ [("hash-format", TString (HashFormat d)); ("hash", TString (Hash d))]
   ++ omitStr "mode" (Mode d))%list.

Definition encodeOption (o : ModOption) : tomlBody :=
  ([("optional", TBool (Optional o))]
   ++ omitStr "description" (Description o)
   ++ omitBool "default" (Default o))%list.

Definition encodeUpdate (u : gomap (gomap string)) : list tomlItem :=
  Table ["update"] []
  :: map (fun kv => Table ["update"; fst kv]
                      (map (fun f => (fst f, TString (snd f))) (snd kv))) u.

Definition encode (m : Mod) : list tomlItem :=
  (map (fun kv => KeyVal (fst kv) (snd kv))
       ([("name", TString (Name m)); ("filename", TString (FileName m))]
        ++ omitStr "side" (Side m) ++ omitBool "pin" (Pin m))
   ++ [Table ["download"] (encodeDownload (Download m))]
   ++ encodeUpdate (Update m)
   ++ match Option m with
      | None => []
      | Some o => [Table ["option"] (encodeOption o)]
      end)%list.

(** Whether the written record has an [option] table. *)
Definition isTableNamed (name : list string) (it : tomlItem) : bool :=
  match it with
  | Table n _ => if list_eq_dec string_dec n name then true else false
  | KeyVal _ _ => false
  end.

Definition hasTable (name : list string) (doc : list tomlItem) : bool :=
  existsb (isTableNamed name) doc.

(** ** Results in the style of Go's [(value, error)] pairs *)

Inductive result (A : Type) : Type :=
| Ok (a : A)
| Err (msg : string).
Arguments Ok {A} a.
Arguments Err {A} msg.

(** ** Index and pack

    [core/index.go] and [core/pack.go] are not among the sources at
    hand; the definitions of this part follow the specification. *)

(** Modelled from the spec: an Index entry, {hashFormat, hashValue,
    metaFlag, preserveFlag} (core/index.go is missing). *)
Record IndexEntry : Type := mkIndexEntry {
  entryHashFormat : string;
  entryHash : string;
  entryMetaFlag : bool;
  entryPreserve : bool
}.

Definition IsMetaFile (e : IndexEntry) : bool := entryMetaFlag e.

(** Modelled from the spec: the Index, a mapping from relative path to
    entry, together with the place it is persisted at (core/index.go is
    missing). *)
Record Index : Type := mkIndex {
  indexFile : string;
  Files : gomap IndexEntry
}.

(** Modelled from the spec: the pack file, with the pack-level aggregate
    hash of the persisted Index (core/pack.go is missing). *)
Record Pack : Type := mkPack {
  PackName : string;
  PackIndexFile : string;
  PackIndexHashFormat : string;
  PackIndexHash : string
}.

(** ** The machine: file system, the command's Index value, counters *)

(** Files hold decoded documents: parsing and printing of TOML and JSON
    are outside this development. *)
Inductive FileContent : Type :=
| FIndex (files : gomap IndexEntry)
| FPack (p : Pack)
| FMod (m : Mod)
| FRaw (bytes : string)
| FZip (entries : list (string * bool * string))  (* name, is-directory, bytes *)
| FDir.

(** [time.Duration], as the commands write it: [5 * time.Millisecond],
    [60 * time.Second]. *)
Inductive Duration : Type :=
| Milliseconds (n : nat)
| Seconds (n : nat).

Record World : Type := mkWorld {
  fs : gomap FileContent;      (* the disk *)
  index : Index;               (* the Index value the command owns *)
  writes : nat;                (* write operations attempted so far *)
  apiCalls : nat;              (* remote requests sent so far *)
  sleeps : list Duration       (* the [time.Sleep] calls so far *)
}.

Definition with_fs (w : World) (f : gomap FileContent) : World :=
  mkWorld f (index w) (writes w) (apiCalls w) (sleeps w).
Definition with_index (w : World) (i : Index) : World :=
  mkWorld (fs w) i (writes w) (apiCalls w) (sleeps w).
Definition with_writes (w : World) (n : nat) : World :=
  mkWorld (fs w) (index w) n (apiCalls w) (sleeps w).
Definition with_apiCalls (w : World) (n : nat) : World :=
  mkWorld (fs w) (index w) (writes w) n (sleeps w).
Definition with_sleeps (w : World) (l : list Duration) : World :=
  mkWorld (fs w) (index w) (writes w) (apiCalls w) l.

(** What the commands take from their surroundings. *)
Record Env : Type := mkEnv {
  packFile : string;                        (* viper's pack-file *)
  indexLocation : Pack -> string;           (* where the pack's index lives *)
  ResolveIndexPath : string -> string;      (* relative path to real path *)
  RelIndexPath : string -> string;          (* and back *)
  hashContent : FileContent -> string;      (* the sha256 HashProvider *)
  writeFails : nat -> bool;                 (* does the n-th write fail? *)
  Updaters : gomap (gomap string -> result UpdateData);
  metaFolder : string;                      (* viper's meta-folder *)
  metaFolderBase : string;                  (* viper's meta-folder-base *)
  compatibleLoaders : Pack -> list string;  (* Pack.GetCompatibleLoaders *)
  FindMod : Index -> string -> option string  (* Index.FindMod *)
}.

(** State monad over the machine. *)
Definition M (A : Type) : Type := World -> A * World.

Definition ret {A} (a : A) : M A := fun w => (a, w).
Definition bind {A B} (c : M A) (k : A -> M B) : M B :=
  fun w => let (a, w') := c w in k a w'.

Declare Scope go_scope.
Delimit Scope go_scope with go.
Notation "x <- c ;; k" := (bind c (fun x => k))
  (at level 61, c at next level, right associativity) : go_scope.
Notation "' p <- c ;; k" := (bind c (fun x => let p := x in k))
  (at level 61, p pattern, c at next level, right associativity) : go_scope.
Notation "c ;;; k" := (bind c (fun _ => k))
  (at level 61, right associativity) : go_scope.
Local Open Scope go_scope.

Definition readFile (path : string) : M (option FileContent) :=
  fun w => (get (fs w) path, w).

(** Creates or overwrites a file; [Some msg] is an I/O error, and then
    nothing is written. *)
Definition writeFile (env : Env) (path : string) (c : FileContent)
  : M (option string) :=
  fun w =>
    let n := writes w in
    if writeFails env n
    then (Some "write failed", with_writes w (S n))
    else (None, with_writes (with_fs w (set (fs w) path c)) (S n)).

(** [os.MkdirAll] on the flat disk: nothing to do where a directory
    stands, an error where a file stands. *)
Definition MkdirAll (env : Env) (path : string) : M (option string) :=
  c <- readFile path ;;
  match c with
  | Some FDir => ret None
  | Some _ => ret (Some "not a directory")
  | None => writeFile env path FDir
  end.

Definition getIndex : M Index := fun w => (index w, w).
Definition putIndex (i : Index) : M unit := fun w => (tt, with_index w i).

(** [time.Sleep] *)
Definition Sleep (d : Duration) : M unit :=
  fun w => (tt, with_sleeps w (sleeps w ++ [d])%list).

(** One request to the remote catalog: the answer may depend on how
    many requests came before. *)
Definition request {A} (answer : nat -> A) : M A :=
  fun w => (answer (apiCalls w), with_apiCalls w (S (apiCalls w))).

(** The loop of LoadMod over [mod.Update]. *)
Fixpoint parseUpdates (env : Env) (upd : gomap (gomap string))
    (acc : gomap UpdateData) : result (gomap UpdateData) :=
  match upd with
  | [] => Ok acc
  | (k, v) :: rest =>
      match get (Updaters env) k with
      | Some ParseUpdate =>
          match ParseUpdate v with
          | Ok updateData => parseUpdates env rest (set acc k updateData)
          | Err e => Err e
          end
      | None => Err ("Update plugin " ++ k ++ " not found!")
      end
  end.

(** The unexported fields are not part of a written record. *)
Definition stored (m : Mod) : Mod :=
  mkMod "" (Name m) (FileName m) (Side m) (Pin m) (Download m)
        (Update m) [] (Option m).

(** LoadMod attempts to load a mod file from a path *)
Definition LoadMod (env : Env) (modFile : string) : M (result Mod) :=
  c <- readFile modFile ;;
  match c with
  | Some (FMod m) =>
      match parseUpdates env (Update m) [] with
      | Ok ud =>
          ret (Ok (mkMod modFile (Name m) (FileName m) (Side m) (Pin m)
                         (Download m) (Update m) ud (Option m)))
      | Err e => ret (Err e)
      end
  | _ => ret (Err "cannot decode mod file")
  end.

(** Write saves the mod file, returning a hash format and the value of
    the hash of the saved file *)
Definition Mod_Write (env : Env) (m : Mod)
  : M (string * string * option string) :=
  let content := FMod (stored m) in
  err <- writeFile env (metaFile m) content ;;
  match err with
  | Some e => ret ("sha256", "", Some e)
  | None => ret ("sha256", hashContent env content, None)
  end.

(** Modelled from the spec: [LoadPack] reads the pack file (core/pack.go
    is missing). *)
Definition LoadPack (env : Env) : M (result Pack) :=
  c <- readFile (packFile env) ;;
  match c with
  | Some (FPack p) => ret (Ok p)
  | _ => ret (Err "cannot load pack")
  end.

(** Modelled from the spec: [Pack.LoadIndex] loads the Index once per
    command invocation from its persisted form (core/pack.go is
    missing). *)
Definition LoadIndex (env : Env) (pack : Pack) : M (result Index) :=
  c <- readFile (indexLocation env pack) ;;
  match c with
  | Some (FIndex files) => ret (Ok (mkIndex (indexLocation env pack) files))
  | _ => ret (Err "cannot load index")
  end.

(** Modelled from the spec: refreshEntry inserts or overwrites, with no
    side effect beyond the in-memory map (core/index.go is missing). *)
Definition refreshEntry (i : Index) (path format hash : string)
    (isMetaFile : bool) : Index :=
  let keep := match get (Files i) path with
              | Some e => entryPreserve e
              | None => false
              end in
  mkIndex (indexFile i)
          (set (Files i) path (mkIndexEntry format hash isMetaFile keep)).

(** [Index.RefreshFileWithHash], on the command's Index value. *)
Definition RefreshFileWithHash (env : Env) (path format hash : string)
    (markAsMetaFile : bool) : M (option string) :=
  i <- getIndex ;;
  putIndex (refreshEntry i (RelIndexPath env path) format hash markAsMetaFile) ;;;
  ret None.

(** Modelled from the spec: [Index.Write] serializes the entire entry
    set, by full-content rewrite (core/index.go is missing). *)
Definition Index_Write (env : Env) : M (option string) :=
  i <- getIndex ;;
  writeFile env (indexFile i) (FIndex (Files i)).

(** Modelled from the spec: [Pack.UpdateIndexHash] recomputes the
    pack-level aggregate hash from the persisted Index (core/pack.go is
    missing). *)
Definition UpdateIndexHash (env : Env) (pack : Pack)
  : M (Pack * option string) :=
  c <- readFile (indexLocation env pack) ;;
  match c with
  | Some content =>
      ret (mkPack (PackName pack) (PackIndexFile pack)
                  (PackIndexHashFormat pack) (hashContent env content), None)
  | None => ret (pack, Some "cannot read index")
  end.

(** Modelled from the spec: [Pack.Write] (core/pack.go is missing). *)
Definition Pack_Write (env : Env) (pack : Pack) : M (option string) :=
  writeFile env (packFile env) (FPack pack).

End Core.


(* ================================================================== *)
(** * [cmd/modify.go] *)
(* ================================================================== *)

Module Cmd.
Import GoStrings Core.
Local Open Scope go_scope.

(** How a command ends: a normal return, or [os.Exit(1)]. *)
Inductive Exit : Type := Returned | Exit1.

(** The command line of [modify]: a flag is [Some v] when
    [cmd.Flags().Changed] holds for it, [v] being its value. *)
Record Flags : Type := mkFlags {
  side : option string;
  disabledClientPlatforms : option (list string);
  pin : option bool;
  optional : option bool;
  optionalDescription : option string;
  optionalDefault : option bool
}.

Definition isSome {A} (o : option A) : bool :=
  match o with Some _ => true | None => false end.

Definition setSide (m : Mod) (v : string) : Mod :=
  mkMod (metaFile m) (Name m) (FileName m) v (Pin m) (Download m)
        (Update m) (updateData m) (Option m).
Definition setPin (m : Mod) (v : bool) : Mod :=
  mkMod (metaFile m) (Name m) (FileName m) (Side m) v (Download m)
        (Update m) (updateData m) (Option m).
Definition setPlatforms (m : Mod) (v : list string) : Mod :=
  let d := Download m in
  mkMod (metaFile m) (Name m) (FileName m) (Side m) (Pin m)
        (mkModDownload (URL d) v (HashFormat d) (Hash d) (Mode d))
        (Update m) (updateData m) (Option m).
Definition setOption (m : Mod) (v : option ModOption) : Mod :=
  mkMod (metaFile m) (Name m) (FileName m) (Side m) (Pin m) (Download m)
        (Update m) (updateData m) v.

(** Handle side modification *)
Definition handleSide (f : Flags) (st : Mod * bool) : result (Mod * bool) :=
  let (modData, changed) := st in
  match side f with
  | Some side =>
      let side := TrimSpace side in
      match ValidateSide side with
      | Some err => Err ("Side validation error: " ++ err)
      | None => Ok (setSide modData (NormalizeSide side), true)
      end
  | None => Ok (modData, changed)
  end.

(** Handle disabled client platforms *)
Definition handlePlatforms (f : Flags) (st : Mod * bool)
  : result (Mod * bool) :=
  let (modData, changed) := st in
  match disabledClientPlatforms f with
  | Some platforms =>
      match ValidateClientPlatforms platforms with
      | Some err => Err ("Platform validation error: " ++ err)
      | None =>
          Ok (setPlatforms modData (NormalizeClientPlatforms platforms), true)
      end
  | None => Ok (modData, changed)
  end.

(** Handle pin status *)
Definition handlePin (f : Flags) (st : Mod * bool) : Mod * bool :=
  let (modData, changed) := st in
  match pin f with
  | Some pin => (setPin modData pin, true)
  | None => (modData, changed)
  end.

(** The three assignments to the fields of [modData.Option]. *)
Definition assignOption (f : Flags) (o : ModOption) : ModOption :=
  let o := match optional f with
           | Some v => mkModOption v (Description o) (Default o)
           | None => o
           end in
  let o := match optionalDescription f with
           | Some v => mkModOption (Optional o) v (Default o)
           | None => o
           end in
  match optionalDefault f with
  | Some v => mkModOption (Optional o) (Description o) v
  | None => o
  end.

Definition allDefault (o : ModOption) : bool :=
  negb (Optional o) && String.eqb (Description o) "" && negb (Default o).

Definition optionalFlagChanged (f : Flags) : bool :=
  isSome (optional f) || isSome (optionalDescription f)
  || isSome (optionalDefault f).

(** Handle optional settings *)
Definition handleOptional (f : Flags) (st : Mod * bool) : Mod * bool :=
  let (modData, changed) := st in
  if optionalFlagChanged f then
    (* Ensure ModOption exists if we're modifying optional settings *)
    let o := match Option modData with
             | None => mkModOption false "" false
             | Some o => o
             end in
    let o := assignOption f o in
    let optionalChanged := optionalFlagChanged f in
    (* If all optional settings are default values, remove the Option struct *)
    let modData := if allDefault o then setOption modData None
                   else setOption modData (Some o) in
    (modData, if optionalChanged then true else changed)
  else (modData, changed).

(** The part of [modifyModProperties] between loading the record and
    writing it: the record to write and whether anything changed. *)
Definition applyFlags (f : Flags) (modData : Mod) : result (Mod * bool) :=
  match handleSide f (modData, false) with
  | Err e => Err e
  | Ok st =>
      match handlePlatforms f st with
      | Err e => Err e
      | Ok st => Ok (handleOptional f (handlePin f st))
      end
  end.

Definition modifyModProperties (env : Env) (f : Flags) (args0 : string)
  : M Exit :=
  p <- LoadPack env ;;
  match p with
  | Err _ => ret Exit1
  | Ok pack =>
  i <- LoadIndex env pack ;;
  match i with
  | Err _ => ret Exit1
  | Ok index =>
  putIndex index ;;;
  (* Find the mod *)
  match FindMod env index args0 with
  | None => ret Exit1
  | Some modPath =>
  (* Load the mod *)
  l <- LoadMod env modPath ;;
  match l with
  | Err _ => ret Exit1
  | Ok modData =>
  match applyFlags f modData with
  | Err _ => ret Exit1
  | Ok (modData, false) => ret Returned     (* No changes specified. *)
  | Ok (modData, true) =>
  (* Save the modified mod *)
  '(format, hash, err) <- Mod_Write env modData ;;
  match err with
  | Some _ => ret Exit1
  | None =>
  (* Update the index *)
  err <- RefreshFileWithHash env modPath format hash true ;;
  match err with
  | Some _ => ret Exit1
  | None =>
  (* Write the updated index *)
  err <- Index_Write env ;;
  match err with
  | Some _ => ret Exit1
  | None =>
  (* Update pack hash *)
  '(pack, err) <- UpdateIndexHash env pack ;;
  match err with
  | Some _ => ret Exit1
  | None =>
  err <- Pack_Write env pack ;;
  match err with
  | Some _ => ret Exit1
  | None => ret Returned
  end end end end end end end end end end.

End Cmd.

(* ================================================================== *)
(** * Package [modrinth]: the data that is exchanged *)
(* ================================================================== *)

(** FileEnv represents the environment requirements for a file *)
Module FileEnv.
Record t : Type := mk { Client : string; Server : string }.
End FileEnv.

(** ModrinthIndexFileRef represents a file reference in the modrinth index *)
Module ModrinthIndexFileRef.
Record t : Type := mk {
  Path : string;
  Hashes : Core.gomap string;
  Env : option FileEnv.t;
  Downloads : list string;
  FileSize : nat
}.
End ModrinthIndexFileRef.

(** ModrinthIndexFile represents the structure of modrinth.index.json in
    .mrpack files *)
Module ModrinthIndexFile.
Record t : Type := mk {
  FormatVersion : nat;
  Game : string;
  VersionID : string;
  Name : string;
  Summary : string;
  Files : list ModrinthIndexFileRef.t;
  Dependencies : Core.gomap string
}.
End ModrinthIndexFile.

(** HashResponse represents a single item in the hash lookup response *)
Module HashResponse.
Record t : Type := mk { ID : string; ProjectID : string }.
End HashResponse.

(** The records of the go-modrinth client library, with the fields the
    commands read.  A field is an [option] where the code tests the
    pointer for nil before it reads it. *)
Module ApiFile.
Record t : Type := mk {
  Filename : string;
  URL : string;
  Hashes : Core.gomap string;
  Primary : option bool
}.
End ApiFile.

Module Version.
Record t : Type := mk {
  ID : string;
  ProjectID : string;
  Files : list ApiFile.t;
  Loaders : list string
}.
End Version.

Module Project.
Record t : Type := mk {
  ID : option string;
  Title : string;
  Slug : option string;
  ProjectType : string;
  ClientSide : string;
  ServerSide : string
}.
End Project.

(** ModInfo represents information about a mod *)
Module ModInfo.
Record t : Type := mk {
  ProjectID : string;
  VersionID : string;
  ProjectName : string;
  FileName : string;
  Side : string
}.
End ModInfo.

(** ModSources represents mod counts by source *)
Module ModSources.
Record t : Type := mk {
  Modrinth : nat;
  CurseForge : nat;
  URL : nat;
  Other : nat
}.
End ModSources.

(* ================================================================== *)
(** * Package [modrinth]: the import and the diff command *)
(* ================================================================== *)

Module Modrinth.
Import GoStrings Core.
Local Open Scope go_scope.

(** The remote catalog, as [mrDefaultClient] and the hash lookup
    endpoint present it.  The first argument of an answer is the number
    of requests sent before this one. *)
Record Remote : Type := mkRemote {
  Versions_Get : nat -> string -> result Version.t;
  Projects_Get : nat -> string -> result Project.t;
  Projects_GetMultiple : nat -> list string -> result (list Project.t);
  version_files : nat -> list string -> result (gomap HashResponse.t)
}.

(** Functions of package [modrinth] that live in files other than
    import.go and the file of [diff], and the decoder of the bundle
    manifest. *)
Record Deps : Type := mkDeps {
  getSide : Project.t -> string;
  getBestHash : ApiFile.t -> string * string;
  getProjectTypeFolder :
    string -> list string -> list string -> result string;
  decodeManifest : string -> result ModrinthIndexFile.t
}.

(** The file extension of metadata records, [core.MetaExtension]. *)
Definition MetaExtension : string := ".pw.toml".

(** [filepath.Join], without the cleaning of dots and double
    separators: empty elements are dropped, the others are joined by
    a slash. *)
Definition filepath_Join (elem : list string) : string :=
  Join (filter (fun e => negb (String.eqb e "")) elem) "/".

(** ** Side resolution *)

(** determineSideFromEnv determines the packwiz side based on mrpack
    environment information *)
Definition determineSideFromEnv (env : option FileEnv.t)
  : string * bool * string :=
  match env with
  | None =>
      (* No environment info, assume universal *)
      (UniversalSide, false, "")
  | Some env =>
      let Client := FileEnv.Client env in
      let Server := FileEnv.Server env in
      let eq := String.eqb in
      let clientSupported := eq Client "required" || eq Client "optional" in
      let serverSupported := eq Server "required" || eq Server "optional" in
      let clientUnsupported := eq Client "unsupported" in
      let serverUnsupported := eq Server "unsupported" in
      (* Handle unknown values with warnings *)
      let clientUnknown :=
        eq Client "unknown"
        || (negb (eq Client "required") && negb (eq Client "optional")
            && negb (eq Client "unsupported") && negb (eq Client "")) in
      let serverUnknown :=
        eq Server "unknown"
        || (negb (eq Server "required") && negb (eq Server "optional")
            && negb (eq Server "unsupported") && negb (eq Server "")) in
      (* Skip if unsupported on both sides *)
      if clientUnsupported && serverUnsupported then ("", true, "")
      (* Skip if unsupported on one side and unknown/empty on the other *)
      else if (clientUnsupported && (eq Server "" || serverUnknown))
              || (serverUnsupported && (eq Client "" || clientUnknown))
      then ("", true, "")
      else
        let warnings :=
          ((if clientUnknown then ["client side compatibility unknown"]
            else [])
           ++ (if serverUnknown then ["server side compatibility unknown"]
               else []))%list in
        let warningMsg :=
          match warnings with
          | [] => ""
          | _ => "Unknown side compatibility: " ++ Join warnings ", "
          end in
        (* Determine side *)
        if clientSupported && serverSupported
        then (UniversalSide, false, warningMsg)
        else if clientSupported
                || (clientUnknown && negb serverSupported
                    && negb serverUnsupported)
        then (ClientSide, false, warningMsg)
        else if serverSupported
                || (serverUnknown && negb clientSupported
                    && negb clientUnsupported)
        then (ServerSide, false, warningMsg)
        else if clientUnknown || serverUnknown
        then (* Default to universal if unknown *)
             (UniversalSide, false, warningMsg)
        (* Default case - unsupported on one side *)
        else if clientUnsupported then (ServerSide, false, warningMsg)
        else if serverUnsupported then (ClientSide, false, warningMsg)
        else (UniversalSide, false, warningMsg)
  end.

(** ** Fetching a project, with rate limit handling *)

(** The inner loop of containsAny: is [substr] found at an offset in
    [i, i + n)? *)
Fixpoint foundFrom (s substr : string) (i n : nat) : bool :=
  match n with
  | 0 => false
  | S n' =>
      if String.eqb (substring i (String.length substr) s) substr then true
      else foundFrom s substr (S i) n'
  end.

(** containsAny checks if a string contains any of the given substrings *)
Fixpoint containsAny (s : string) (substrings : list string) : bool :=
  match substrings with
  | [] => false
  | substr :: rest =>
      if (String.length substr <=? String.length s)%nat
         && foundFrom s substr 0
              (S (String.length s - String.length substr))
      then true
      else containsAny s rest
  end.

Definition rateLimitIndicators : list string :=
  ["429"; "rate limit"; "Rate limit"; "too many requests";
   "Too Many Requests"].

Definition maxRetries : nat := 3.

(** The [for] loop of getProjectWithRateLimit, [left] being the number
    of iterations that remain: [attempt = maxRetries - left]. *)
Fixpoint getProjectLoop (remote : Remote) (projectID : string) (left : nat)
  : M (result Project.t) :=
  match left with
  | 0 => ret (Err "failed to get project after 3 retries")
  | S left' =>
      let attempt := maxRetries - left in
      r <- request (fun n => Projects_Get remote n projectID) ;;
      match r with
      | Ok project => ret (Ok project)
      | Err errorMsg =>
          (* Check for common rate limit indicators *)
          let isRateLimit := containsAny errorMsg rateLimitIndicators in
          if isRateLimit && (attempt <? maxRetries - 1)%nat then
            (* Wait 60 seconds for rate limit reset *)
            Sleep (Seconds 60) ;;;
            getProjectLoop remote projectID left'
          else
            (* For non-rate-limit errors or final attempt, return the error *)
            ret (Err errorMsg)
      end
  end.

(** getProjectWithRateLimit gets project information with rate limit
    handling *)
Definition getProjectWithRateLimit (remote : Remote) (projectID : string)
  : M (result Project.t) :=
  getProjectLoop remote projectID maxRetries.

(** ** Installing one version *)

(** findPrimaryFile finds the primary file from a version, preferring
    primary files *)
Definition findPrimaryFile (version : Version.t)
    (compatibleLoaders : list string) : option ApiFile.t :=
  match Version.Files version with
  | [] => None
  | first :: _ =>
      match find (fun file => match ApiFile.Primary file with
                              | Some true => true
                              | _ => false
                              end) (Version.Files version) with
      | Some file => Some file
      | None => Some first
      end
  end.

(** Modelled from the spec: the update-source document of an installed
    artifact holds the catalog project ID and the installed version ID
    ([mrUpdateData.ToMap] is missing). *)
Definition ToMap (projectID installedVersion : string) : gomap string :=
  [("mod-id", projectID); ("version", installedVersion)].

(** createFileMetaWithSide creates mod metadata with a custom side
    override *)
Definition createFileMetaWithSide (env : Env) (deps : Deps)
    (project : Project.t) (version : Version.t) (file : ApiFile.t)
    (customSide : string) (pack : Pack) : M (option string) :=
  (* [*project.ID]: the pointer is not tested here *)
  let projectID := match Project.ID project with Some i => i | None => "" end in
  let updateMap := [("modrinth", ToMap projectID (Version.ID version))] in
  let (algorithm, hash) := getBestHash deps file in
  if String.eqb algorithm "" then ret (Some "file doesn't have a hash")
  else
    let modMeta :=
      mkMod "" (Project.Title project) (ApiFile.Filename file) customSide
            false
            (mkModDownload (ApiFile.URL file) [] algorithm hash "")
            updateMap [] None in
    let folder :=
      if String.eqb (metaFolder env) "" then
        getProjectTypeFolder deps (Project.ProjectType project)
          (Version.Loaders version) (compatibleLoaders env pack)
      else Ok (metaFolder env) in
    match folder with
    | Err e => ret (Some e)
    | Ok folder =>
        let (modMeta, path) :=
          match Project.Slug project with
          | Some slug =>
              SetMetaPath modMeta
                (filepath_Join [metaFolderBase env; folder;
                                slug ++ MetaExtension])
          | None =>
              SetMetaPath modMeta
                (filepath_Join [metaFolderBase env; folder;
                                SlugifyName (Project.Title project)
                                ++ MetaExtension])
          end in
        '(format, hash, err) <- Mod_Write env modMeta ;;
        match err with
        | Some e => ret (Some e)
        | None => RefreshFileWithHash env path format hash true
        end
    end.

(** installVersionWithSide installs a version with a custom side
    override *)
Definition installVersionWithSide (env : Env) (deps : Deps)
    (project : Project.t) (version : Version.t) (versionFilename : string)
    (customSide : string) (pack : Pack) : M (option string) :=
  (* Find the appropriate file *)
  let file :=
    if String.eqb versionFilename "" then
      match findPrimaryFile version (compatibleLoaders env pack) with
      | Some f => Ok f
      | None => Err "no compatible files found for this version"
      end
    else
      match find (fun f => String.eqb (ApiFile.Filename f) versionFilename)
                 (Version.Files version) with
      | Some f => Ok f
      | None => Err ("file with name " ++ versionFilename ++ " not found")
      end in
  match file with
  | Err e => ret (Some e)
  | Ok file =>
      (* Create file metadata with custom side *)
      createFileMetaWithSide env deps project version file customSide pack
  end.

(** installVersionByIdWithSide installs a mod version with a specific
    side override *)
Definition installVersionByIdWithSide (env : Env) (remote : Remote)
    (deps : Deps) (versionId versionFilename side : string) (pack : Pack)
  : M (option string) :=
  (* Get version information from Modrinth API *)
  v <- request (fun n => Versions_Get remote n versionId) ;;
  match v with
  | Err e => ret (Some ("failed to get version info: " ++ e))
  | Ok version =>
      (* Get project information *)
      p <- request (fun n => Projects_Get remote n (Version.ProjectID version)) ;;
      match p with
      | Err e => ret (Some ("failed to get project info: " ++ e))
      | Ok project =>
          (* Install the version with custom side *)
          installVersionWithSide env deps project version versionFilename
                                 side pack
      end
  end.

(** ** The import command (the second revision, with checkpoints) *)

(** The local variables of [importCmd]'s body that the loop and the
    [saveProgress] closure share. *)
Record ImportState : Type := mkImportState {
  pack : Pack;
  successCount : nat;
  skippedCount : nat;
  processedCount : nat
}.

Definition setPack (st : ImportState) (p : Pack) : ImportState :=
  mkImportState p (successCount st) (skippedCount st) (processedCount st).

(** Set up crash recovery - save progress periodically and on exit *)
Definition saveProgress (env : Env) (st : ImportState) : M ImportState :=
  if (0 <? successCount st)%nat then
    writeErr <- Index_Write env ;;
    match writeErr with
    | Some _ => ret st            (* Warning: Failed to save progress to index *)
    | None =>
        '(pack', hashErr) <- UpdateIndexHash env (pack st) ;;
        match hashErr with
        | Some _ => ret (setPack st pack')   (* Warning: Failed to update pack hash *)
        | None =>
            Pack_Write env pack' ;;;          (* a failure is a warning *)
            ret (setPack st pack')
        end
    end
  else ret st.

Definition sha512Of (file : ModrinthIndexFileRef.t) : option string :=
  get (ModrinthIndexFileRef.Hashes file) "sha512".

(** Get SHA512 hashes from the files *)
Definition sha512Hashes (files : list ModrinthIndexFileRef.t) : list string :=
  flat_map (fun file => match sha512Of file with
                        | Some h => [h]
                        | None => []
                        end) files.

(** Find the corresponding file info *)
Definition findFileRef (files : list ModrinthIndexFileRef.t) (hash : string)
  : option ModrinthIndexFileRef.t :=
  find (fun file => match sha512Of file with
                    | Some fileSha512 => String.eqb fileSha512 hash
                    | None => false
                    end) files.

(** Check if this project is already installed *)
Definition projectAlreadyInstalled (installedProjects : list string)
    (projectID : string) : bool :=
  existsb (fun installedID => String.eqb installedID projectID)
          installedProjects.

(** One iteration of [for hash, versionInfo := range versionMap]. *)
Definition importStep (env : Env) (remote : Remote) (deps : Deps)
    (files : list ModrinthIndexFileRef.t) (installedProjects : list string)
    (item : string * HashResponse.t) (st : ImportState) : M ImportState :=
  let (hash, versionInfo) := item in
  let st := mkImportState (pack st) (successCount st) (skippedCount st)
                          (S (processedCount st)) in
  match findFileRef files hash with
  | None => ret st                 (* Warning: Could not find file info *)
  | Some fileRef =>
      if projectAlreadyInstalled installedProjects
           (HashResponse.ProjectID versionInfo)
      then
        (* Skipping already installed project *)
        ret (mkImportState (pack st) (successCount st)
                           (S (skippedCount st)) (processedCount st))
      else
        (* Get project information from API (with rate limit handling) *)
        p <- getProjectWithRateLimit remote (HashResponse.ProjectID versionInfo) ;;
        match p with
        | Err _ => ret st          (* Failed to get project info *)
        | Ok project =>
            (* Use API data for side determination *)
            let side := getSide deps project in
            let side := if String.eqb side "" then UniversalSide else side in
            (* Install the mod with API-determined side information *)
            err <- installVersionByIdWithSide env remote deps
                     (HashResponse.ID versionInfo) "" side (pack st) ;;
            match err with
            | Some _ => ret st     (* Failed to install mod *)
            | None =>
                let st := mkImportState (pack st) (S (successCount st))
                            (skippedCount st) (processedCount st) in
                (* Save progress every 10 successful installations *)
                if (successCount st mod 10 =? 0)%nat
                then saveProgress env st
                else ret st
            end
        end
  end.

(** The loop over [versionMap], in the order [range] yields it. *)
Fixpoint importLoop (env : Env) (remote : Remote) (deps : Deps)
    (files : list ModrinthIndexFileRef.t) (installedProjects : list string)
    (versionMap : gomap HashResponse.t) (st : ImportState)
  : M ImportState :=
  match versionMap with
  | [] => ret st
  | item :: rest =>
      st <- importStep env remote deps files installedProjects item st ;;
      importLoop env remote deps files installedProjects rest st
  end.

(** Modelled from the spec: the already installed catalog project IDs,
    found by scanning the Index's metadata records and extracting each
    record's update-source project ID; an unreadable record is skipped
    ([getInstalledProjectIDs] is missing). *)
Fixpoint installedProjectIDs (env : Env) (entries : gomap IndexEntry)
    (acc : list string) : M (list string) :=
  match entries with
  | [] => ret acc
  | (fileName, e) :: rest =>
      if IsMetaFile e then
        r <- LoadMod env (ResolveIndexPath env fileName) ;;
        match r with
        | Ok m =>
            match GetParsedUpdateData m "modrinth" with
            | Some (MrUpdateData projectID _) =>
                installedProjectIDs env rest (acc ++ [projectID])%list
            | _ => installedProjectIDs env rest acc
            end
        | Err _ => installedProjectIDs env rest acc
        end
      else installedProjectIDs env rest acc
  end.

Definition getInstalledProjectIDs (env : Env) : M (list string) :=
  i <- getIndex ;;
  installedProjectIDs env (Files i) [].

(** copyOverrides copies override files from the .mrpack to the pack
    directory.  The disk is a flat map from paths to contents, so the
    creation of parent directories leaves no trace in it. *)
Fixpoint copyOverrides (env : Env) (zipFiles : list (string * bool * string))
  : M (option string) :=
  match zipFiles with
  | [] => ret None
  | (name, isDir, bytes) :: rest =>
      (* Check if file is in overrides directory *)
      if (10 <? String.length name)%nat
         && String.eqb (substring 0 10 name) "overrides/"
      then
        let relativePath := substring 10 (String.length name - 10) name in
        let destPath := ResolveIndexPath env relativePath in
        if isDir then
          (* Create directory *)
          err <- MkdirAll env destPath ;;
          match err with
          | Some e => ret (Some ("failed to create directory " ++ destPath))
          | None => copyOverrides env rest
          end
        else
          err <- writeFile env destPath (FRaw bytes) ;;
          match err with
          | Some e => ret (Some ("failed to create override file " ++ destPath))
          | None => copyOverrides env rest
          end
      else copyOverrides env rest
  end.

(** extractModrinthIndex reads and parses the modrinth.index.json file
    from the .mrpack *)
Definition extractModrinthIndex (deps : Deps)
    (zipFiles : list (string * bool * string))
  : result ModrinthIndexFile.t :=
  match find (fun f => String.eqb (fst (fst f)) "modrinth.index.json")
             zipFiles with
  | Some (_, _, data) => decodeManifest deps data
  | None => Err "modrinth.index.json not found in .mrpack file"
  end.

(** lookupVersionsByHash queries the Modrinth API to get version
    information from file hashes *)
Definition lookupVersionsByHash (remote : Remote) (hashes : list string)
  : M (result (gomap HashResponse.t)) :=
  request (fun n => version_files remote n hashes).

(** How the command ends. *)
Inductive Ending : Type :=
| Completed            (* the body returned after "Import completed!" *)
| NothingToDo          (* the body returned early *)
| Exit (code : nat)    (* [os.Exit] *)
| Recovered            (* the deferred [recover] handled a panic *)
| Killed.              (* the process died *)

(** What follows the loop when nothing interrupts it (lines 753-779),
    as one computation. *)
Definition finish (env : Env) (zipFiles : list (string * bool * string))
    (st : ImportState) : M (Ending * ImportState) :=
  (* Copy overrides if they exist; a failure is a warning *)
  copyOverrides env zipFiles ;;;
  (* Write the updated index *)
  err <- Index_Write env ;;
  match err with
  | Some _ => ret (Exit 1, st)
  | None =>
      (* Update pack hash *)
      '(pack', err) <- UpdateIndexHash env (pack st) ;;
      let st := setPack st pack' in
      match err with
      | Some _ => ret (Exit 1, st)
      | None =>
          err <- Pack_Write env pack' ;;
          match err with
          | Some _ => ret (Exit 1, st)
          | None => ret (Completed, st)
          end
      end
  end.

(** ** The batch, and what can cut it short

    The loop runs in the main goroutine.  Beside it runs the goroutine
    that waits for a signal (lines 658-669); it shares [successCount],
    the Index value, the pack and the disk with the loop, without any
    synchronisation.  A panic of the main goroutine is caught by the
    deferred function (lines 672-679).  The process can also die at any
    moment.

    The batch is therefore run statement by statement, under a schedule
    that says which goroutine moves next.  The steps are the statements
    of the loop body, of [saveProgress] and of the end of the command
    that read or write what the goroutines share; a call of
    [getProjectWithRateLimit], [installVersionByIdWithSide],
    [copyOverrides], [Index.Write], [Pack.UpdateIndexHash] or
    [Pack.Write] is one step: the installer touches what the save
    routine reads (the Index value) in its last statement only, and
    [Index.Write] is the full-content rewrite of the specification.
    Once the loop is over the main goroutine closes [doneChan]
    (line 748), and the other goroutine may leave: a run in which it has
    left is a run without a later signal. *)

(** The statements of [saveProgress]. *)
Inductive SaveAt : Type :=
| SaveTest      (* line 634: if successCount > 0 *)
| SaveIndex     (* line 636: index.Write() *)
| SaveHash      (* line 639: pack.UpdateIndexHash() *)
| SavePack.     (* line 642: pack.Write() *)

(** One statement of [saveProgress]; the next one, or [None] when the
    closure returns.  A failure is a warning, after which the closure
    returns. *)
Definition saveStep (env : Env) (at_ : SaveAt) (st : ImportState)
  : M (option SaveAt * ImportState) :=
  match at_ with
  | SaveTest =>
      if (0 <? successCount st)%nat then ret (Some SaveIndex, st)
      else ret (None, st)
  | SaveIndex =>
      writeErr <- Index_Write env ;;
      match writeErr with
      | Some _ => ret (None, st)
      | None => ret (Some SaveHash, st)
      end
  | SaveHash =>
      '(pack', hashErr) <- UpdateIndexHash env (pack st) ;;
      match hashErr with
      | Some _ => ret (None, setPack st pack')
      | None => ret (Some SavePack, setPack st pack')
      end
  | SavePack =>
      Pack_Write env (pack st) ;;;
      ret (None, st)
  end.

(** Where the main goroutine stands. *)
Inductive MainAt : Type :=
| AtRange (rest : gomap HashResponse.t)
    (* line 682: the [for] takes the next pair of [versionMap] *)
| AtInstall (versionInfo : HashResponse.t) (side : string)
            (rest : gomap HashResponse.t)
    (* line 733: the call of installVersionByIdWithSide *)
| AtCount (rest : gomap HashResponse.t)
    (* line 737: successCount++ *)
| AtCheckpoint (rest : gomap HashResponse.t)
    (* line 740: if successCount%10 == 0 *)
| InCheckpoint (s : SaveAt) (rest : gomap HashResponse.t)
    (* line 742: inside saveProgress *)
| AtOverrides       (* line 754: copyOverrides *)
| AtIndexWrite      (* line 760: index.Write *)
| AtUpdateHash      (* line 767: pack.UpdateIndexHash *)
| AtPackWrite       (* line 773: pack.Write *)
| InRecover (s : SaveAt)
    (* line 675: the deferred function, inside saveProgress *)
| AtReturn.         (* the body has returned *)

(** Where the goroutine that handles signals stands. *)
Inductive HandlerAt : Type :=
| Waiting                  (* line 659: blocked in the [select] *)
| InHandler (s : SaveAt)   (* line 662: inside saveProgress *)
| AtExit.                  (* line 664: os.Exit(0) *)

(** The batch under way: the two goroutines, the local variables they
    share, and how the process ended if it has. *)
Record Batch : Type := mkBatch {
  mainAt : MainAt;
  handlerAt : HandlerAt;
  vars : ImportState;
  ended : option Ending
}.

(** What the schedule is made of: the main goroutine executes its next
    statement; a signal is delivered and the waiting goroutine receives
    it; that goroutine executes its next statement; the statement the
    main goroutine is about to execute panics. *)
Inductive Event : Type := Main | Signal | Handler | Panic.

(** The next statement of the main goroutine. *)
Definition mainStep (env : Env) (remote : Remote) (deps : Deps)
    (zipFiles : list (string * bool * string))
    (files : list ModrinthIndexFileRef.t) (installedProjects : list string)
    (b : Batch) : M Batch :=
  let st := vars b in
  let goto (next : MainAt) (st : ImportState) : M Batch :=
    ret (mkBatch next (handlerAt b) st None) in
  let exit (e : Ending) (st : ImportState) : M Batch :=
    ret (mkBatch (mainAt b) (handlerAt b) st (Some e)) in
  let returns (e : Ending) (st : ImportState) : M Batch :=
    ret (mkBatch AtReturn (handlerAt b) st (Some e)) in
  match mainAt b with
  | AtRange [] =>
      (* Signal completion to stop the signal handler; the summary *)
      goto AtOverrides st
  | AtRange ((hash, versionInfo) :: rest) =>
      let st := mkImportState (pack st) (successCount st) (skippedCount st)
                              (S (processedCount st)) in
      match findFileRef files hash with
      | None => goto (AtRange rest) st   (* Warning: Could not find file info *)
      | Some fileRef =>
          if projectAlreadyInstalled installedProjects
               (HashResponse.ProjectID versionInfo)
          then
            (* Skipping already installed project *)
            goto (AtRange rest)
                 (mkImportState (pack st) (successCount st)
                                (S (skippedCount st)) (processedCount st))
          else
            (* Get project information from API (with rate limit handling) *)
            p <- getProjectWithRateLimit remote
                   (HashResponse.ProjectID versionInfo) ;;
            match p with
            | Err _ => goto (AtRange rest) st   (* Failed to get project info *)
            | Ok project =>
                (* Use API data for side determination *)
                let side := getSide deps project in
                let side := if String.eqb side "" then UniversalSide
                            else side in
                goto (AtInstall versionInfo side rest) st
            end
      end
  | AtInstall versionInfo side rest =>
      (* Install the mod with API-determined side information *)
      err <- installVersionByIdWithSide env remote deps
               (HashResponse.ID versionInfo) "" side (pack st) ;;
      match err with
      | Some _ => goto (AtRange rest) st   (* Failed to install mod *)
      | None => goto (AtCount rest) st
      end
  | AtCount rest =>
      goto (AtCheckpoint rest)
           (mkImportState (pack st) (S (successCount st)) (skippedCount st)
                          (processedCount st))
  | AtCheckpoint rest =>
      (* Save progress every 10 successful installations *)
      if (successCount st mod 10 =? 0)%nat
      then goto (InCheckpoint SaveTest rest) st
      else goto (AtRange rest) st
  | InCheckpoint s rest =>
      '(next, st) <- saveStep env s st ;;
      match next with
      | Some s' => goto (InCheckpoint s' rest) st
      | None => goto (AtRange rest) st
      end
  | AtOverrides =>
      (* Copy overrides if they exist; a failure is a warning *)
      copyOverrides env zipFiles ;;;
      goto AtIndexWrite st
  | AtIndexWrite =>
      (* Write the updated index *)
      err <- Index_Write env ;;
      match err with
      | Some _ => exit (Exit 1) st
      | None => goto AtUpdateHash st
      end
  | AtUpdateHash =>
      (* Update pack hash *)
      '(pack', err) <- UpdateIndexHash env (pack st) ;;
      let st := setPack st pack' in
      match err with
      | Some _ => exit (Exit 1) st
      | None => goto AtPackWrite st
      end
  | AtPackWrite =>
      err <- Pack_Write env (pack st) ;;
      match err with
      | Some _ => exit (Exit 1) st
      | None => returns Completed st
      end
  | InRecover s =>
      '(next, st) <- saveStep env s st ;;
      match next with
      | Some s' => goto (InRecover s') st
      | None => returns Recovered st
      end
  | AtReturn => ret b
  end.

(** The next statement of the goroutine that handles signals. *)
Definition handlerStep (env : Env) (b : Batch) : M Batch :=
  match handlerAt b with
  | Waiting => ret b
  | InHandler s =>
      '(next, st) <- saveStep env s (vars b) ;;
      ret (mkBatch (mainAt b)
                   (match next with
                    | Some s' => InHandler s'
                    | None => AtExit
                    end) st None)
  | AtExit => ret (mkBatch (mainAt b) AtExit (vars b) (Some (Exit 0)))
  end.

(** One event of the schedule.  Nothing moves once the process has
    ended.  A signal that finds the goroutine at work stays in the
    channel, which nobody reads again.  A panic inside the deferred
    function is not recovered: the process dies. *)
Definition step (env : Env) (remote : Remote) (deps : Deps)
    (zipFiles : list (string * bool * string))
    (files : list ModrinthIndexFileRef.t) (installedProjects : list string)
    (e : Event) (b : Batch) : M Batch :=
  match ended b with
  | Some _ => ret b
  | None =>
      match e with
      | Main => mainStep env remote deps zipFiles files installedProjects b
      | Signal =>
          match handlerAt b with
          | Waiting =>
              ret (mkBatch (mainAt b) (InHandler SaveTest) (vars b) None)
          | _ => ret b
          end
      | Handler => handlerStep env b
      | Panic =>
          match mainAt b with
          | InRecover _ =>
              ret (mkBatch (mainAt b) (handlerAt b) (vars b) (Some Killed))
          | _ => ret (mkBatch (InRecover SaveTest) (handlerAt b) (vars b) None)
          end
      end
  end.

(** The batch under a schedule.  Where the schedule stops, the process
    is looked at: if it has not ended by then, it dies there. *)
Fixpoint run (env : Env) (remote : Remote) (deps : Deps)
    (zipFiles : list (string * bool * string))
    (files : list ModrinthIndexFileRef.t) (installedProjects : list string)
    (schedule : list Event) (b : Batch) : M Batch :=
  match schedule with
  | [] => ret b
  | e :: rest =>
      b <- step env remote deps zipFiles files installedProjects e b ;;
      run env remote deps zipFiles files installedProjects rest b
  end.

Definition importBatch (env : Env) (remote : Remote) (deps : Deps)
    (zipFiles : list (string * bool * string))
    (files : list ModrinthIndexFileRef.t) (installedProjects : list string)
    (versionMap : gomap HashResponse.t) (schedule : list Event)
    (st : ImportState) : M (Ending * ImportState) :=
  b <- run env remote deps zipFiles files installedProjects schedule
         (mkBatch (AtRange versionMap) Waiting st None) ;;
  ret (match ended b with
       | Some e => e
       | None => Killed
       end, vars b).

(** The body of [importCmd]. *)
Definition importCmd (env : Env) (remote : Remote) (deps : Deps)
    (mrpackFilePath : string) (schedule : list Event)
  : M (Ending * option ImportState) :=
  (* Check if the file exists and is a zip file *)
  r <- readFile mrpackFilePath ;;
  match r with
  | Some (FZip zipFiles) =>
  (* Load pack *)
  p <- LoadPack env ;;
  match p with
  | Err _ => ret (Exit 1, None)
  | Ok pack =>
  i <- LoadIndex env pack ;;
  match i with
  | Err _ => ret (Exit 1, None)
  | Ok index =>
  putIndex index ;;;
  (* Extract and parse modrinth.index.json *)
  match extractModrinthIndex deps zipFiles with
  | Err _ => ret (Exit 1, None)
  | Ok modrinthIndex =>
  let files := ModrinthIndexFile.Files modrinthIndex in
  let hashes := sha512Hashes files in
  match hashes with
  | [] => ret (NothingToDo, None)
  | _ =>
  (* Look up version IDs from hashes *)
  v <- lookupVersionsByHash remote hashes ;;
  match v with
  | Err _ => ret (Exit 1, None)
  | Ok versionMap =>
  (* Get list of already installed Modrinth projects to avoid duplicates *)
  installedProjects <- getInstalledProjectIDs env ;;
  '(e, st) <- importBatch env remote deps zipFiles files installedProjects
                versionMap schedule (mkImportState pack 0 0 0) ;;
  ret (e, Some st)
  end end end end end
  | _ => ret (Exit 1, None)
  end.

(** ** The diff command *)

(** The body of the loop of getCurrentModrinthMods for a record that
    was loaded: check mod source and count. *)
Definition tallyMod (m : Mod) (acc : gomap ModInfo.t * ModSources.t)
  : gomap ModInfo.t * ModSources.t :=
  let (mods, sources) := acc in
  let '(ModSources.mk nMr nCf nUrl nOther) := sources in
  (* Check if this is a Modrinth mod *)
  let '(mods, nMr, hasModrinth) :=
    match GetParsedUpdateData m "modrinth" with
    | Some (MrUpdateData projectID installedVersion) =>
        if negb (String.eqb projectID "") then
          (set mods projectID
               (ModInfo.mk projectID installedVersion (Name m)
                           (FileName m) (Side m)),
           S nMr, true)
        else (mods, nMr, false)
    | _ => (mods, nMr, false)
    end in
  (* If not Modrinth, check other sources *)
  if negb hasModrinth then
    (* Check for CurseForge *)
    match GetParsedUpdateData m "curseforge" with
    | Some _ => (mods, ModSources.mk nMr (S nCf) nUrl nOther)
    | None =>
        (* Check if it's a direct URL or other source *)
        if negb (String.eqb (URL (Download m)) "") then
          let hasOtherUpdate :=
            existsb (fun key => negb (String.eqb key "modrinth")
                                && negb (String.eqb key "curseforge"))
                    (keys (Update m)) in
          if hasOtherUpdate
          then (mods, ModSources.mk nMr nCf nUrl (S nOther))
          else (mods, ModSources.mk nMr nCf (S nUrl) nOther)
        else (mods, ModSources.mk nMr nCf nUrl nOther)
    end
  else (mods, ModSources.mk nMr nCf nUrl nOther).

(** The loop over [index.Files]: load every metadata record, skip the
    invalid ones, tally the others. *)
Fixpoint currentModsLoop (env : Env) (entries : gomap IndexEntry)
    (acc : gomap ModInfo.t * ModSources.t)
  : M (gomap ModInfo.t * ModSources.t) :=
  match entries with
  | [] => ret acc
  | (fileName, fileData) :: rest =>
      if IsMetaFile fileData then
        let modPath := ResolveIndexPath env fileName in
        r <- LoadMod env modPath ;;
        match r with
        | Err _ =>
            (* Skip invalid mod files with warning *)
            Sleep (Milliseconds 5) ;;;
            currentModsLoop env rest acc
        | Ok m =>
            Sleep (Milliseconds 5) ;;;
            currentModsLoop env rest (tallyMod m acc)
        end
      else currentModsLoop env rest acc
  end.

(** getCurrentModrinthMods gets all Modrinth mods from the current pack
    and counts other sources *)
Definition getCurrentModrinthMods (env : Env)
  : M (gomap ModInfo.t * ModSources.t) :=
  i <- getIndex ;;
  currentModsLoop env (Files i) ([], ModSources.mk 0 0 0 0).

(** hashVersionInfo holds hash and version info for batch processing *)
Definition hashVersionInfo : Type := (string * HashResponse.t)%type.

(** Get hashes for API lookup: the map from hash to file reference. *)
Fixpoint hashToFileOf (files : list ModrinthIndexFileRef.t)
    (acc : gomap ModrinthIndexFileRef.t) : gomap ModrinthIndexFileRef.t :=
  match files with
  | [] => acc
  | file :: rest =>
      match sha512Of file with
      | Some sha512 => hashToFileOf rest (set acc sha512 file)
      | None => hashToFileOf rest acc
      end
  end.

(** Collect all unique project IDs for batch API call *)
Fixpoint collectProjects (versionMap : gomap HashResponse.t)
    (projectIDs : list string)
    (projectToVersionMap : gomap (list hashVersionInfo))
  : list string * gomap (list hashVersionInfo) :=
  match versionMap with
  | [] => (projectIDs, projectToVersionMap)
  | (hash, versionInfo) :: rest =>
      let pid := HashResponse.ProjectID versionInfo in
      let old := match get projectToVersionMap pid with
                 | Some l => l
                 | None => []
                 end in
      let projectIDs := match old with
                        | [] => (projectIDs ++ [pid])%list
                        | _ => projectIDs
                        end in
      collectProjects rest projectIDs
        (set projectToVersionMap pid (old ++ [(hash, versionInfo)])%list)
  end.

Definition emptyFileRef : ModrinthIndexFileRef.t :=
  ModrinthIndexFileRef.mk "" [] None [] 0.

(** Process each project and create ModInfo entries *)
Fixpoint processProjects (deps : Deps) (projects : list Project.t)
    (projectToVersionMap : gomap (list hashVersionInfo))
    (hashToFile : gomap ModrinthIndexFileRef.t) (mods : gomap ModInfo.t)
  : gomap ModInfo.t :=
  match projects with
  | [] => mods
  | project :: rest =>
      match Project.ID project with
      | None => processProjects deps rest projectToVersionMap hashToFile mods
      | Some projectID =>
          let versionInfos := match get projectToVersionMap projectID with
                              | Some l => l
                              | None => []
                              end in
          (* Determine side from API data *)
          let side := getSide deps project in
          let side := if String.eqb side "" then UniversalSide else side in
          (* Create ModInfo for each version of this project *)
          let mods :=
            fold_left
              (fun mods (info : hashVersionInfo) =>
                 let fileRef := match get hashToFile (fst info) with
                                | Some f => f
                                | None => emptyFileRef
                                end in
                 set mods projectID
                     (ModInfo.mk projectID (HashResponse.ID (snd info))
                                 (Project.Title project)
                                 (ModrinthIndexFileRef.Path fileRef) side))
              versionInfos mods in
          processProjects deps rest projectToVersionMap hashToFile mods
      end
  end.

(** getMrpackModsWithInfo gets mod info from mrpack with API lookups *)
Definition getMrpackModsWithInfo (remote : Remote) (deps : Deps)
    (mrpackData : ModrinthIndexFile.t) : M (result (gomap ModInfo.t)) :=
  let files := ModrinthIndexFile.Files mrpackData in
  let hashes := sha512Hashes files in
  let hashToFile := hashToFileOf files [] in
  match hashes with
  | [] => ret (Ok [])
  | _ =>
      (* Look up version IDs from hashes *)
      v <- lookupVersionsByHash remote hashes ;;
      match v with
      | Err e => ret (Err ("failed to lookup versions by hash: " ++ e))
      | Ok versionMap =>
          let (projectIDs, projectToVersionMap) :=
            collectProjects versionMap [] [] in
          (* Make single batch API call to get all project information *)
          ps <- request (fun n => Projects_GetMultiple remote n projectIDs) ;;
          match ps with
          | Err e =>
              ret (Err ("failed to fetch project information in batch: " ++ e))
          | Ok projects =>
              ret (Ok (processProjects deps projects projectToVersionMap
                                       hashToFile []))
          end
      end
  end.

(** The comparison handed to [slices.SortFunc]:
    [strings.Compare(a.ProjectName, b.ProjectName) < 0]. *)
Definition nameLess (a b : ModInfo.t) : bool :=
  match Compare (ModInfo.ProjectName a) (ModInfo.ProjectName b) with
  | Lt => true
  | _ => false
  end.

(** The inner loop of the insertion sort: [x] moves left past every
    element it is less than.  The sorted part of the slice is given
    last element first. *)
Fixpoint sinkInto (x : ModInfo.t) (revSorted : list ModInfo.t)
  : list ModInfo.t :=
  match revSorted with
  | [] => [x]
  | y :: rest => if nameLess x y then y :: sinkInto x rest
                 else x :: y :: rest
  end.

(** [slices.SortFunc] by project name.  Up to 12 elements the library
    runs exactly this insertion sort; on longer slices it switches to
    pattern-defeating quicksort, whose result is a sorted rearrangement
    as well but may order equal names differently. *)
Definition sortByName (l : list ModInfo.t) : list ModInfo.t :=
  rev (fold_left (fun revSorted x => sinkInto x revSorted) l []).

(** compareMods compares current mods with mrpack mods *)
Definition compareMods (current mrpack : gomap ModInfo.t)
  : list ModInfo.t * list ModInfo.t * list ModInfo.t :=
  (* Find missing mods (in mrpack but not in current) *)
  let missing :=
    flat_map (fun kv : string * ModInfo.t =>
                if has current (fst kv) then [] else [snd kv]) mrpack in
  (* Find extra mods (in current but not in mrpack) *)
  let extra :=
    flat_map (fun kv : string * ModInfo.t =>
                if has mrpack (fst kv) then [] else [snd kv]) current in
  (* Find version differences (in both but different versions) *)
  let different :=
    flat_map (fun kv : string * ModInfo.t =>
                let (projectID, currentMod) := kv in
                match get mrpack projectID with
                | Some mrpackMod =>
                    if negb (String.eqb (ModInfo.VersionID currentMod)
                                        (ModInfo.VersionID mrpackMod))
                    then [ModInfo.mk projectID
                            (ModInfo.VersionID currentMod ++ " → "
                             ++ ModInfo.VersionID mrpackMod)
                            (ModInfo.ProjectName currentMod) ""
                            (ModInfo.Side currentMod)]
                    else []
                | None => []
                end) current in
  (* Sort for consistent output *)
  (sortByName missing, sortByName extra, sortByName different).

(** parseMrpackFile extracts the modrinth.index.json from an mrpack file *)
Definition parseMrpackFile (deps : Deps) (mrpackPath : string)
  : M (result ModrinthIndexFile.t) :=
  r <- readFile mrpackPath ;;
  match r with
  | Some (FZip zipFiles) => ret (extractModrinthIndex deps zipFiles)
  | _ => ret (Err "cannot open mrpack file")
  end.

(** What [diff] reports: the three lists and the counts by source. *)
Record DiffReport : Type := mkDiffReport {
  missing : list ModInfo.t;
  extra : list ModInfo.t;
  different : list ModInfo.t;
  otherSourceMods : ModSources.t
}.

(** The body of [diffCmd]; [None] stands for [os.Exit(1)]. *)
Definition diffCmd (env : Env) (remote : Remote) (deps : Deps)
    (mrpackFilePath : string) : M (option DiffReport) :=
  (* Load current pack *)
  p <- LoadPack env ;;
  match p with
  | Err _ => ret None
  | Ok pack =>
  i <- LoadIndex env pack ;;
  match i with
  | Err _ => ret None
  | Ok index =>
  putIndex index ;;;
  (* Parse the mrpack file *)
  m <- parseMrpackFile deps mrpackFilePath ;;
  match m with
  | Err _ => ret None
  | Ok mrpackData =>
  (* Get current pack's Modrinth mods and other sources *)
  '(currentMods, otherSourceMods) <- getCurrentModrinthMods env ;;
  (* Get mrpack mods with project info *)
  r <- getMrpackModsWithInfo remote deps mrpackData ;;
  match r with
  | Err _ => ret None
  | Ok mrpackMods =>
  (* Compare the mods *)
  let '(missing, extra, different) := compareMods currentMods mrpackMods in
  ret (Some (mkDiffReport missing extra different otherSourceMods))
  end end end end.

(** ** The import command (the first revision: the side of an artifact
    comes from the environment of its file reference) *)

(** ** The import command (the first revision: sides from the bundle) *)
Module Rev1.
Local Open Scope go_scope.

(** One iteration of [for hash, versionInfo := range versionMap]. *)
Definition importStep (env : Env) (remote : Remote) (deps : Deps)
    (files : list ModrinthIndexFileRef.t) (pack : Pack)
    (item : string * HashResponse.t) (successCount : nat) : M nat :=
  let (hash, versionInfo) := item in
  (* Find the corresponding file info *)
  match findFileRef files hash with
  | None => ret successCount        (* Warning: Could not find file info *)
  | Some fileRef =>
      (* Determine side based on environment information *)
      let '(side, shouldSkip, warning) :=
        determineSideFromEnv (ModrinthIndexFileRef.Env fileRef) in
      if shouldSkip then ret successCount
      else
        (* Install the mod with proper side information *)
        err <- installVersionByIdWithSide env remote deps
                 (HashResponse.ID versionInfo) "" side pack ;;
        match err with
        | Some _ => ret successCount      (* Failed to install mod *)
        | None => ret (S successCount)
        end
  end.

(** Install each mod *)
Fixpoint importLoop (env : Env) (remote : Remote) (deps : Deps)
    (files : list ModrinthIndexFileRef.t) (pack : Pack)
    (versionMap : gomap HashResponse.t) (successCount : nat) : M nat :=
  match versionMap with
  | [] => ret successCount
  | item :: rest =>
      successCount <- importStep env remote deps files pack item successCount ;;
      importLoop env remote deps files pack rest successCount
  end.

(** The body of [importCmd]; the number is [successCount]. *)
Definition importCmd (env : Env) (remote : Remote) (deps : Deps)
    (mrpackFilePath : string) : M (Ending * option nat) :=
  (* Check if the file exists and is a zip file *)
  r <- readFile mrpackFilePath ;;
  match r with
  | Some (FZip zipFiles) =>
  (* Load pack *)
  p <- LoadPack env ;;
  match p with
  | Err _ => ret (Exit 1, None)
  | Ok pack =>
  i <- LoadIndex env pack ;;
  match i with
  | Err _ => ret (Exit 1, None)
  | Ok index =>
  putIndex index ;;;
  (* Extract and parse modrinth.index.json *)
  match extractModrinthIndex deps zipFiles with
  | Err _ => ret (Exit 1, None)
  | Ok modrinthIndex =>
  let files := ModrinthIndexFile.Files modrinthIndex in
  (* Get SHA512 hashes from the files *)
  let hashes := sha512Hashes files in
  match hashes with
  | [] => ret (NothingToDo, None)
  | _ =>
  (* Look up version IDs from hashes *)
  v <- lookupVersionsByHash remote hashes ;;
  match v with
  | Err _ => ret (Exit 1, None)
  | Ok versionMap =>
  successCount <- importLoop env remote deps files pack versionMap 0 ;;
  (* Copy overrides if they exist; a failure is a warning *)
  copyOverrides env zipFiles ;;;
  (* Write the updated index *)
  err <- Index_Write env ;;
  match err with
  | Some _ => ret (Exit 1, Some successCount)
  | None =>
  (* Update pack hash *)
  '(pack', err) <- UpdateIndexHash env pack ;;
  match err with
  | Some _ => ret (Exit 1, Some successCount)
  | None =>
  err <- Pack_Write env pack' ;;
  match err with
  | Some _ => ret (Exit 1, Some successCount)
  | None => ret (Completed, Some successCount)
  end end end end end end end end
  | _ => ret (Exit 1, None)
  end.

End Rev1.

End Modrinth.

(* ================================================================== *)
(** * [cmd/validate.go] *)
(* ================================================================== *)

Module Validate.
Import GoStrings Core Cmd Modrinth.
Local Open Scope go_scope.

(** What [validate] takes from its surroundings besides [Env]: the
    methods of [core.Pack] it calls, the hash providers, and the
    functions of [path/filepath] it uses. *)
Record Surroundings : Type := mkSurroundings {
  GetMCVersion : Pack -> result string;          (* Pack.GetMCVersion *)
  Versions : Pack -> gomap string;               (* the field pack.Versions *)
  GetHashImpl : string -> result (FileContent -> string);
  packFileIsSet : bool;                          (* viper.IsSet("pack-file") *)
  filepath_Dir : string -> string;
  filepath_Rel : string -> string -> result string;
  (* the files and directories [filepath.Walk] visits from a root, with
     [info.IsDir()], in the order of the visits *)
  Walk : gomap FileContent -> string -> list (string * bool)
}.

(** [os.Stat] finds something at a path: a file or a directory that was
    created there, or the directory above a file. *)
Definition pathExists (disk : gomap FileContent) (path : string) : bool :=
  has disk path
  || existsb (fun k => prefix (path ++ "/") k) (keys disk).

Definition Stat (path : string) : M bool :=
  fun w => (pathExists (fs w) path, w).

(** The two counters of the run. *)
Record Counts : Type := mkCounts { issues : nat; warnings : nat }.

Definition issue (c : Counts) : Counts := mkCounts (S (issues c)) (warnings c).
Definition warning (c : Counts) : Counts := mkCounts (issues c) (S (warnings c)).

(** 1. Validate pack.toml format, and 2. Validate index.toml format *)
Definition checkFormats (s : Surroundings) (pack : Pack) (index : Index)
    (c : Counts) : Counts :=
  let c := if String.eqb (PackName pack) "" then issue c else c in
  (* Check MC version *)
  let c := match GetMCVersion s pack with
           | Err _ => warning c
           | Ok mcVersion => if String.eqb mcVersion "" then warning c else c
           end in
  let c := if (length (Versions s pack) =? 0)%nat then warning c else c in
  if (length (Files index) =? 0)%nat then warning c else c.

(** 3. Check for orphaned files in index (files that don't exist on
    disk) *)
Fixpoint orphanedLoop (env : Env) (entries : gomap IndexEntry)
    (acc : Counts * nat) : M (Counts * nat) :=
  match entries with
  | [] => ret acc
  | (fileName, _) :: rest =>
      let filePath := ResolveIndexPath env fileName in
      found <- Stat filePath ;;
      if found then orphanedLoop env rest acc
      else
        let (c, orphanedFiles) := acc in
        orphanedLoop env rest (issue c, S orphanedFiles)
  end.

(** The checks of one record that was loaded: [true] when none of them
    fails. *)
Definition validModStructure (m : Mod) : bool :=
  if String.eqb (Name m) "" then false
  else if String.eqb (FileName m) "" then false
  else if String.eqb (URL (Download m)) "" then false
  else if String.eqb (HashFormat (Download m)) ""
          || String.eqb (Hash (Download m)) "" then false
  else if negb (String.eqb (Side m) "") then
         (* Validate side field *)
         match ValidateSide (Side m) with
         | Some _ => false
         | None => true
         end
  else true.

(** 4. Validate mod metadata files *)
Fixpoint modsLoop (env : Env) (entries : gomap IndexEntry)
    (acc : Counts * nat * nat) : M (Counts * nat * nat) :=
  match entries with
  | [] => ret acc
  | (fileName, fileData) :: rest =>
      if IsMetaFile fileData then
        let '(c, validMods, invalidMods) := acc in
        let filePath := ResolveIndexPath env fileName in
        (* Try to load the mod file *)
        r <- LoadMod env filePath ;;
        match r with
        | Err _ => modsLoop env rest (issue c, validMods, S invalidMods)
        | Ok m =>
            if validModStructure m
            then modsLoop env rest (c, S validMods, invalidMods)
            else modsLoop env rest (issue c, validMods, S invalidMods)
        end
      else modsLoop env rest acc
  end.

Definition modDirs : list string :=
  ["mods"; "resourcepacks"; "shaderpacks"; "datapacks"; "plugins"].

(** Get pack root by looking up from any indexed file *)
Fixpoint packRootLoop (env : Env) (s : Surroundings)
    (entries : gomap IndexEntry) : string :=
  match entries with
  | [] => ""
  | (fileName, _) :: rest =>
      let fullPath := ResolveIndexPath env fileName in
      if negb (String.eqb (filepath_Dir s fullPath) "")
      then TrimSuffix fullPath fileName
      else packRootLoop env s rest
  end.

(** The function handed to [filepath.Walk]; the counters are those of
    the warnings and of the untracked files. *)
Definition walkFn (env : Env) (s : Surroundings) (index : Index)
    (path : string) (isDir : bool) (acc : Counts * nat)
  : result (Counts * nat) :=
  if negb isDir && HasSuffix path MetaExtension then
    (* Convert to relative path for index lookup *)
    let packRoot := packRootLoop env s (Files index) in
    let packRoot := if String.eqb packRoot ""
                    then filepath_Dir s (ResolveIndexPath env "")
                    else packRoot in
    match filepath_Rel s packRoot path with
    | Err e => Err e
    | Ok relPath =>
        (* Check if this file is in the index *)
        if has (Files index) relPath then Ok acc
        else let (c, untrackedFiles) := acc in
             Ok (warning c, S untrackedFiles)
    end
  else Ok acc.

(** [filepath.Walk] stops at the first error of the function. *)
Fixpoint walkLoop (env : Env) (s : Surroundings) (index : Index)
    (visits : list (string * bool)) (acc : Counts * nat)
  : (Counts * nat) * option string :=
  match visits with
  | [] => (acc, None)
  | (path, isDir) :: rest =>
      match walkFn env s index path isDir acc with
      | Err e => (acc, Some e)
      | Ok acc => walkLoop env s index rest acc
      end
  end.

(** 5. Check for untracked mod files (mod files that exist but aren't
    in index) *)
Fixpoint untrackedLoop (env : Env) (s : Surroundings) (index : Index)
    (dirs : list string) (acc : Counts * nat) : M (Counts * nat) :=
  match dirs with
  | [] => ret acc
  | dir :: rest =>
      let dirPath := ResolveIndexPath env dir in
      found <- Stat dirPath ;;
      if found then
        fun w =>
          let '(acc, err) := walkLoop env s index (Walk s (fs w) dirPath) acc in
          match err with
          | Some _ =>
              let (c, untrackedFiles) := acc in
              untrackedLoop env s index rest (warning c, untrackedFiles) w
          | None => untrackedLoop env s index rest acc w
          end
      else untrackedLoop env s index rest acc  (* Directory doesn't exist, skip *)
  end.

(** calculateIndexHash calculates the hash of the index file *)
Definition calculateIndexHash (env : Env) (s : Surroundings) (pack : Pack)
  : M (result string) :=
  let packFilePath := if packFileIsSet s then packFile env else "pack.toml" in
  (* [filepath.Join] cleans its result: a directory [.] leaves no trace *)
  let dir := filepath_Dir s packFilePath in
  let indexPath :=
    filepath_Join [if String.eqb dir "." then "" else dir;
                   PackIndexFile pack] in
  (* Read file content *)
  c <- readFile indexPath ;;
  match c with
  | None | Some FDir => ret (Err "cannot read the index file")
  | Some content =>
      (* Use SHA256 as default *)
      let hashFormat := if String.eqb (PackIndexHashFormat pack) ""
                        then "sha256" else PackIndexHashFormat pack in
      match GetHashImpl s hashFormat with
      | Err e => ret (Err e)
      | Ok hasher => ret (Ok (hasher content))
      end
  end.

(** 6. Validate index hash consistency *)
Definition hashCheck (env : Env) (s : Surroundings) (pack : Pack)
    (c : Counts) : M Counts :=
  if String.eqb (PackIndexHash pack) "" then ret (warning c)
  else
    (* Calculate current index hash *)
    r <- calculateIndexHash env s pack ;;
    match r with
    | Err _ => ret (issue c)
    | Ok currentHash =>
        if negb (String.eqb (PackIndexHash pack) currentHash)
        then ret (issue c)
        else ret c
    end.

(** What the summary of [validate] prints. *)
Record Report : Type := mkReport {
  counts : Counts;
  orphanedFiles : nat;
  validMods : nat;
  invalidMods : nat;
  untrackedFiles : nat;
  totalFiles : nat
}.

(** The body of [validateCmd]. *)
Definition validateCmd (env : Env) (s : Surroundings)
  : M (Cmd.Exit * option Report) :=
  (* Load pack *)
  p <- LoadPack env ;;
  match p with
  | Err _ => ret (Exit1, None)
  | Ok pack =>
  (* Load index *)
  i <- LoadIndex env pack ;;
  match i with
  | Err _ => ret (Exit1, None)
  | Ok index =>
  putIndex index ;;;
  (* Run validation checks *)
  let c := checkFormats s pack index (mkCounts 0 0) in
  '(c, orphanedFiles) <- orphanedLoop env (Files index) (c, 0) ;;
  '(c, validMods, invalidMods) <- modsLoop env (Files index) (c, 0, 0) ;;
  '(c, untrackedFiles) <- untrackedLoop env s index modDirs (c, 0) ;;
  c <- hashCheck env s pack c ;;
  let report := mkReport c orphanedFiles validMods invalidMods untrackedFiles
                         (length (Files index)) in
  if (0 <? issues c)%nat then ret (Exit1, Some report)
  else ret (Returned, Some report)
  end end.

End Validate.



(* ================================================================== *)
(** * Properties *)
(* ================================================================== *)

Import GoStrings Core Cmd Modrinth.
Import Validate.

Unset Implicit Arguments.

(* ------------------------------------------------------------------ *)
(** ** Notions used in the statements, and sample packs and bundles *)
(* ------------------------------------------------------------------ *)

(** The four signals of the specification's table, and its outcomes. *)
Inductive Support : Type := Required | Optional | Unsupported | Unknown.
Inductive Resolution : Type := SKIP | UNIVERSAL | CLIENT | SERVER.

Definition signal (s : Support) : string :=
  match s with
  | Required => "required"
  | Optional => "optional"
  | Unsupported => "unsupported"
  | Unknown => "unknown"
  end.

(** What [determineSideFromEnv] answers, read as an outcome of the table. *)
Definition resolve (client server : Support) : option Resolution :=
  match determineSideFromEnv (Some (FileEnv.mk (signal client) (signal server))) with
  | (_, true, _) => Some SKIP
  | (side, false, _) =>
      if String.eqb side UniversalSide then Some UNIVERSAL
      else if String.eqb side ClientSide then Some CLIENT
      else if String.eqb side ServerSide then Some SERVER
      else None
  end.

Definition supported (s : Support) : bool :=
  match s with Required | Optional => true | _ => false end.

(** The decision table of the specification, section 4.2, read top to
    bottom. *)
Definition decisionTable (client server : Support) : Resolution :=
  match client, server with
  | Unsupported, Unsupported => SKIP
  | Unsupported, Unknown => SKIP
  | Unknown, Unsupported => SKIP
  | Unknown, Unknown => UNIVERSAL
  | _, _ =>
      if supported client && supported server then UNIVERSAL
      else if supported client then CLIENT
      else SERVER
  end.

Definition noFlags : Flags := mkFlags None None None None None None.

(** [modify <name> --pin=true] *)
Definition pinOnly : Flags := mkFlags None None (Some true) None None None.

(** [modify <name> --optional=false] *)
Definition optionalOff : Flags :=
  mkFlags None None None (Some false) None None.

Definition sampleDownload : ModDownload :=
  mkModDownload "https://cdn.modrinth.com/data/u6dRKJwZ/jei.jar" []
                "sha512" "c0ffee" "".

(** A record as loaded from a file that has an [option] table holding
    only [optional = false]. *)
Definition recordWithDefaultOption : Mod :=
  mkMod "mods/jei.pw.toml" "Just Enough Items" "jei.jar" "both" false
        sampleDownload [] [] (Some (mkModOption false "" false)).

(** A record that is optional, without description, off by default. *)
Definition recordOptional : Mod :=
  mkMod "mods/jei.pw.toml" "Just Enough Items" "jei.jar" "both" false
        sampleDownload [] [] (Some (mkModOption true "" false)).

(** The sentence of the specification, over every modify operation that
    writes the record back. *)
Definition option_never_written_with_defaults : Prop :=
  forall f m m',
    applyFlags f m = Ok (m', true) ->
    forall o, Option m' = Some o -> allDefault o = false.

(** The Option block that the three assignments produce, before the
    all-default test. *)
Definition assignedOption (f : Flags) (m : Mod) : ModOption :=
  assignOption f match Option m with
                 | Some o => o
                 | None => mkModOption false "" false
                 end.

Definition countedAsModrinth (m : Mod) : bool :=
  match GetParsedUpdateData m "modrinth" with
  | Some (MrUpdateData projectID _) => negb (String.eqb projectID "")
  | _ => false
  end.

Definition recognized (key : string) : bool :=
  String.eqb key "modrinth" || String.eqb key "curseforge".

(** When the loop counts a record as a direct URL. *)
Definition countedAsURL (m : Mod) : bool :=
  negb (countedAsModrinth m)
  && negb (isSome (GetParsedUpdateData m "curseforge"))
  && negb (String.eqb (URL (Download m)) "")
  && forallb recognized (keys (Update m)).

(** When the loop counts a record as coming from another source. *)
Definition countedAsOther (m : Mod) : bool :=
  negb (countedAsModrinth m)
  && negb (isSome (GetParsedUpdateData m "curseforge"))
  && negb (String.eqb (URL (Download m)) "")
  && existsb (fun key => negb (recognized key)) (keys (Update m)).

Definition bump (b : bool) (n : nat) : nat := if b then S n else n.

(** A pack whose records come from modrinth, curseforge and github, to
    run the definitions on. *)
Definition valueOf (key : string) (doc : gomap string) : string :=
  match get doc key with Some v => v | None => "" end.

Definition sampleUpdaters : gomap (gomap string -> result UpdateData) :=
  [("modrinth",
    fun doc => Ok (MrUpdateData (valueOf "mod-id" doc) (valueOf "version" doc)));
   ("curseforge", fun doc => Ok (ForeignUpdateData doc));
   ("github", fun doc => Ok (ForeignUpdateData doc))].

Definition sampleHash (c : FileContent) : string :=
  match c with
  | FMod m => "sha256 of " ++ Name m
  | FIndex files => "sha256 of index with " ++ Join (keys files) ","
  | _ => "sha256"
  end.

Definition sampleEnv : Env :=
  mkEnv "pack.toml" (fun pack => PackIndexFile pack)
        (fun path => path) (fun path => path)
        sampleHash (fun _ => false) sampleUpdaters "" ""
        (fun _ => ["fabric"]) (fun _ _ => None).

(** A record without update sources and without a download URL, and a
    record that has update sources under the names github and
    curseforge, as they sit on disk. *)
Definition fileNoSource : Mod :=
  mkMod "" "Local Jar" "local.jar" "" false
        (mkModDownload "" [] "sha256" "ab12" "") [] [] None.

Definition fileGithubCurseforge : Mod :=
  mkMod "" "Dual" "dual.jar" "" false
        (mkModDownload "https://github.com/o/r/releases/dual.jar" []
                       "sha256" "cd34" "")
        [("github", [("slug", "o/r"); ("tag", "v1")]);
         ("curseforge", [("project-id", "238222"); ("file-id", "4711")])]
        [] None.

Definition tallyDisk : World :=
  mkWorld [("mods/local.pw.toml", FMod fileNoSource);
           ("mods/dual.pw.toml", FMod fileGithubCurseforge)]
          (mkIndex "index.toml" []) 0 0 [].

(** The sentence of the specification about the two counters. *)
Definition tally_as_specified : Prop :=
  forall m mods sources,
    let sources' := snd (tallyMod m (mods, sources)) in
    (ModSources.URL sources' = S (ModSources.URL sources)
     <-> Update m = [])
    /\ (ModSources.Other sources' = S (ModSources.Other sources)
        <-> exists key, In key (keys (Update m))
                        /\ key <> "modrinth" /\ key <> "curseforge").

(** [a] comes before [b] or with it, in the order of the display names. *)
Definition nameLe (a b : ModInfo.t) : Prop :=
  Compare (ModInfo.ProjectName a) (ModInfo.ProjectName b) <> Gt.

(** Two projects of the bundle that have the same title, none of them
    in the pack. *)
Definition zoomA : ModInfo.t :=
  ModInfo.mk "w7ThoJFB" "4.0.0" "Zoom" "mods/zoom-a.jar" "client".
Definition zoomB : ModInfo.t :=
  ModInfo.mk "KuNKN7d2" "1.2.1" "Zoom" "mods/zoom-b.jar" "client".

(** A computation that leaves the disk and the command's Index value as
    they are, and does not even attempt a write. *)
Definition preserves {A : Type} (c : M A) : Prop :=
  forall w, fs (snd (c w)) = fs w
            /\ writes (snd (c w)) = writes w
            /\ index (snd (c w)) = index w.

(** An error message that carries one of the rate-limit indicators. *)
Definition isRateLimit (msg : string) : bool :=
  containsAny msg rateLimitIndicators.


(** Rate limited twice, then served: three requests, two sleeps. *)
Definition busyRemote (ok : Project.t) : Remote :=
  mkRemote (fun _ _ => Err "not found")
           (fun n _ => if (n <? 2)%nat then Err "429 Too Many Requests" else Ok ok)
           (fun _ _ => Ok []) (fun _ _ => Ok []).

(** A catalog that does not know the project. *)
Definition emptyRemote : Remote :=
  mkRemote (fun _ _ => Err "not found") (fun _ _ => Err "404 Not Found")
           (fun _ _ => Ok []) (fun _ _ => Ok []).

Definition someProject : Project.t :=
  Project.mk (Some "AANobbMI") "Sodium" (Some "sodium") "mod"
             "required" "unsupported".

Definition freshWorld : World := mkWorld [] (mkIndex "index.toml" []) 0 0 [].

(** An artifact of the batch is skipped as a duplicate when its file
    reference is found and its project ID is among the installed ones. *)
Definition itemSkipped (files : list ModrinthIndexFileRef.t)
    (installedProjects : list string) (item : string * HashResponse.t)
  : bool :=
  match findFileRef files (fst item) with
  | Some _ =>
      projectAlreadyInstalled installedProjects
        (HashResponse.ProjectID (snd item))
  | None => false
  end.

(** An artifact goes on to the project fetch and the installation when
    its file reference is found and its project ID is not among the
    installed ones. *)
Definition itemAttempted (files : list ModrinthIndexFileRef.t)
    (installedProjects : list string) (item : string * HashResponse.t)
  : bool :=
  match findFileRef files (fst item) with
  | Some _ =>
      negb (projectAlreadyInstalled installedProjects
              (HashResponse.ProjectID (snd item)))
  | None => false
  end.

Definition countedSkipped (st : ImportState) : ImportState :=
  mkImportState (pack st) (successCount st) (S (skippedCount st))
                (S (processedCount st)).

Definition countedProcessed (st : ImportState) : ImportState :=
  mkImportState (pack st) (successCount st) (skippedCount st)
                (S (processedCount st)).

Definition countedInstalled (st : ImportState) : ImportState :=
  mkImportState (pack st) (S (successCount st)) (skippedCount st)
                (S (processedCount st)).

Definition bumpIf (b : bool) : nat := if b then 1 else 0.

Definition letter (n : nat) : string := String (ascii_of_nat (65 + n)) "".

(** The file reference of the bundle's artifact number [n]. *)
Definition sampleFileRef (n : nat) : ModrinthIndexFileRef.t :=
  ModrinthIndexFileRef.mk ("mods/" ++ letter n ++ ".jar")
    [("sha1", "sha1-" ++ letter n); ("sha512", "hash-" ++ letter n)]
    None ["https://cdn.modrinth.com/data/" ++ letter n] 1024.

(** What the hash lookup answers for the first [k] artifacts: version
    [V<n>] of project [P<n>]. *)
Definition sampleVersionMap (k : nat) : gomap HashResponse.t :=
  map (fun n => ("hash-" ++ letter n,
                 HashResponse.mk ("V" ++ letter n) ("P" ++ letter n)))
      (seq 0 k).

(** A catalog that serves every request: version [V<x>...] belongs to
    project [P<x>] and has one primary file. *)
Definition sampleRemote : Remote :=
  mkRemote
    (fun _ versionId =>
       Ok (Version.mk versionId ("P" ++ substring 1 1 versionId)
             [ApiFile.mk (versionId ++ ".jar")
                         ("https://cdn.modrinth.com/data/" ++ versionId)
                         [("sha512", "sha512-" ++ versionId)] (Some true)]
             ["fabric"]))
    (fun _ projectID =>
       Ok (Project.mk (Some projectID) ("Mod " ++ projectID)
                      (Some (ToLower projectID)) "mod" "required" "required"))
    (fun _ _ => Ok [])
    (fun _ _ => Ok []).

Definition sampleDeps : Deps :=
  mkDeps
    (fun project =>
       let wanted s := String.eqb s "required" || String.eqb s "optional" in
       let server := wanted (Project.ServerSide project) in
       let client := wanted (Project.ClientSide project) in
       if server && client then UniversalSide
       else if server then ServerSide
       else if client then ClientSide
       else EmptySide)
    (fun file => ("sha512", valueOf "sha512" (ApiFile.Hashes file)))
    (fun _ _ _ => Ok "mods")
    (fun _ => Err "no manifest").

Definition samplePack : Pack := mkPack "Sample" "index.toml" "sha256" "".

(** The disk of a pack without any mod. *)
Definition sampleWorld : World :=
  mkWorld [("pack.toml", FPack samplePack); ("index.toml", FIndex [])]
          (mkIndex "index.toml" []) 0 0 [].

(** Two files of one bundle that resolve to two versions of the same
    project [PA]. *)
Definition twoVersionsOfPA : gomap HashResponse.t :=
  [("hash-A", HashResponse.mk "VA" "PA");
   ("hash-B", HashResponse.mk "VA2" "PA")].

Definition twoFiles : list ModrinthIndexFileRef.t :=
  [sampleFileRef 0; sampleFileRef 1].

(** The sentence of the specification: of two references that share an
    installed project ID, one is installed and the other is skipped. *)
Definition one_of_two_duplicates_processed : Prop :=
  forall env remote deps files installedProjects hash1 v1 hash2 v2 st w,
    hash1 <> hash2 ->
    HashResponse.ProjectID v1 = HashResponse.ProjectID v2 ->
    projectAlreadyInstalled installedProjects (HashResponse.ProjectID v1)
    = true ->
    findFileRef files hash1 <> None ->
    findFileRef files hash2 <> None ->
    let st' := fst (importLoop env remote deps files installedProjects
                               [(hash1, v1); (hash2, v2)] st w) in
    successCount st' = S (successCount st)
    /\ skippedCount st' = S (skippedCount st).

(** Surroundings in which no installation fails: the catalog answers
    every request, every version has a file with a usable hash, the
    folder of a project type is known and no write fails. *)
Definition reliable (env : Env) (remote : Remote) (deps : Deps) : Prop :=
  (forall n, writeFails env n = false)
  /\ (forall n id, exists p, Projects_Get remote n id = Ok p)
  /\ (forall n id, exists v, Versions_Get remote n id = Ok v
                             /\ Version.Files v <> [])
  /\ (forall file, fst (getBestHash deps file) <> "")
  /\ (forall t loaders compatible,
         exists folder, getProjectTypeFolder deps t loaders compatible
                        = Ok folder).

(** The entries of the Index as they stand on disk. *)
Definition persistedIndex (w : World) : option (gomap IndexEntry) :=
  match get (fs w) (indexFile (index w)) with
  | Some (FIndex files) => Some files
  | _ => None
  end.

(** The positions of the main goroutine at which an installation may be
    counted without a write of the Index having followed: from the
    increment of line 737 to [index.Write] in the save routine that
    comes next, be it the one of the checkpoint or, after a panic, the
    one of the deferred function. *)
Definition saveDue (at_ : MainAt) : bool :=
  match at_ with
  | AtCheckpoint _ | InCheckpoint SaveTest _ | InCheckpoint SaveIndex _
  | InRecover SaveTest | InRecover SaveIndex => true
  | _ => false
  end.

(** The positions of the main goroutine at which it has written the
    whole Index and installs nothing more. *)
Definition indexSaved (b : Batch) : bool :=
  match mainAt b with
  | AtUpdateHash | AtPackWrite | InRecover SaveHash | InRecover SavePack =>
      true
  | AtReturn =>
      match ended b with
      | Some Completed => true
      | _ => (0 <? successCount (vars b))%nat
      end
  | _ => false
  end.

(** The states of the batch under a schedule: the first one and the one
    after each event. *)
Fixpoint batchTrace (env : Env) (remote : Remote) (deps : Deps)
    (zipFiles : list (string * bool * string))
    (files : list ModrinthIndexFileRef.t) (installedProjects : list string)
    (schedule : list Event) (b : Batch) (w : World)
  : list (Batch * World) :=
  (b, w) ::
  match schedule with
  | [] => []
  | e :: rest =>
      batchTrace env remote deps zipFiles files installedProjects rest
        (fst (step env remote deps zipFiles files installedProjects e b w))
        (snd (step env remote deps zipFiles files installedProjects e b w))
  end.

(** What the checkpoints keep true of the Index file [idx]: it holds a
    snapshot of the Index value, taken when [c] installations were
    counted; [c] is at least the last multiple of ten below the present
    count, and at least the last multiple of ten up to the present count
    when no save is due; it is the whole Index once the main goroutine
    has written it for the last time. *)
Definition snapshotKept (idx : string) (c : nat) (snap : gomap IndexEntry)
    (b : Batch) (w : World) : Prop :=
  indexFile (index w) = idx
  /\ persistedIndex w = Some snap
  /\ c <= successCount (vars b)
  /\ 10 * ((successCount (vars b) - 1) / 10) <= c
  /\ (saveDue (mainAt b) = false -> (successCount (vars b) / 10) * 10 <= c)
  /\ (indexSaved b = true -> snap = Files (index w))
  /\ (ended b = Some Completed \/ ended b = Some Recovered ->
      mainAt b = AtReturn).


(** The batch when it starts. *)
Definition batchStart (versionMap : gomap HashResponse.t) (pack : Pack)
  : Batch :=
  mkBatch (AtRange versionMap) Waiting (mkImportState pack 0 0 0) None.

(** The bundle of the specification's scenario: 25 artifacts, all of
    them installable. *)
Definition files25 : list ModrinthIndexFileRef.t := map sampleFileRef (seq 0 25).

(** 25 installations that would succeed, and the death of the process
    when the main goroutine has executed 100 statements: 23 iterations,
    two of them with a checkpoint. *)
Definition run25 : Batch * World :=
  run sampleEnv sampleRemote sampleDeps [] files25 [] (repeat Main 100)
      (batchStart (sampleVersionMap 25) samplePack) sampleWorld.



(** The sample surroundings, except that the eleventh write fails: in
    the run of 25 installations it is the write of the Index at the
    first checkpoint. *)
Definition flakyEnv : Env :=
  mkEnv "pack.toml" (fun pack => PackIndexFile pack)
        (fun path => path) (fun path => path)
        sampleHash (fun n => (n =? 10)%nat) sampleUpdaters "" ""
        (fun _ => ["fabric"]) (fun _ _ => None).

(** The name and the path of the record of a project, as
    [createFileMetaWithSide] makes them: the slug of the project, or
    else its slugified title, in the folder of the project. *)
Definition recordName (project : Project.t) : string :=
  match Project.Slug project with
  | Some slug => slug
  | None => SlugifyName (Project.Title project)
  end.

Definition recordPath (env : Env) (folder : string) (project : Project.t)
  : string :=
  filepath_Join [metaFolderBase env; folder;
                 (recordName project ++ MetaExtension)%string].

(** The version that a record says is installed. *)
Definition recordedVersion (m : Mod) : option string :=
  match get (Update m) "modrinth" with
  | Some u => get u "version"
  | None => None
  end.

(** What the installation of the reference [v] stores: the record of
    the version and of the project that the catalog answers with, in the
    configured folder or else in the folder of the project type. *)
Definition recordOf (env : Env) (remote : Remote) (deps : Deps)
    (v : HashResponse.t) (version : Version.t) (project : Project.t)
    (folder : string) (record : Mod) : Prop :=
  (exists n, Versions_Get remote n (HashResponse.ID v) = Ok version)
  /\ (exists n, Projects_Get remote n (Version.ProjectID version) = Ok project)
  /\ (if String.eqb (metaFolder env) ""
      then exists pack,
             getProjectTypeFolder deps (Project.ProjectType project)
               (Version.Loaders version) (compatibleLoaders env pack)
             = Ok folder
      else folder = metaFolder env)
  /\ Name record = Project.Title project
  /\ recordedVersion record = Some (Version.ID version).

(** The first reading of the claim on duplicates within a batch: after
    the loop the pack has a record for each of the two references. *)
Definition both_duplicates_kept : Prop :=
  forall env remote deps files installedProjects hash1 v1 hash2 v2 st w,
    reliable env remote deps ->
    HashResponse.ProjectID v1 = HashResponse.ProjectID v2 ->
    projectAlreadyInstalled installedProjects (HashResponse.ProjectID v1)
    = false ->
    findFileRef files hash1 <> None ->
    findFileRef files hash2 <> None ->
    let w' := snd (importLoop env remote deps files installedProjects
                              [(hash1, v1); (hash2, v2)] st w) in
    forall v,
      In v [v1; v2] ->
      exists path m,
        get (fs w') path = Some (FMod m)
        /\ recordedVersion m = Some (HashResponse.ID v).

(** The mods of a bundle, from the answer of the hash lookup ranged over
    in the order given by [versionMap] and the project records of the
    batch request. *)
Definition mrpackModsOf (deps : Deps) (files : list ModrinthIndexFileRef.t)
    (versionMap : gomap HashResponse.t) (projects : list Project.t)
  : gomap ModInfo.t :=
  let (projectIDs, projectToVersionMap) := collectProjects versionMap [] [] in
  processProjects deps projects projectToVersionMap (hashToFileOf files []) [].

Definition projectPA : Project.t :=
  Project.mk (Some "PA") "Mod PA" (Some "pa") "mod" "required" "required".

(** Display names that are pairwise different. *)
Definition distinctNames (l : list ModInfo.t) : Prop :=
  NoDup (map ModInfo.ProjectName l).

(** A selection that keeps at most one record per entry, under the
    entry's display name. *)
Definition selects (f : string * ModInfo.t -> list ModInfo.t) : Prop :=
  forall kv, f kv = []
             \/ exists x, f kv = [x]
                          /\ ModInfo.ProjectName x
                             = ModInfo.ProjectName (snd kv).

(** Two projects with different titles. *)
Definition sodium : ModInfo.t :=
  ModInfo.mk "AANobbMI" "mc1.20-0.5.3" "Sodium" "mods/sodium.jar" "client".
Definition lithium : ModInfo.t :=
  ModInfo.mk "gvQqBUqZ" "mc1.20-0.11.2" "Lithium" "mods/lithium.jar" "both".

(** *** Notions and samples for the further properties *)


(** The bytes a slug is made of: [a-z], [0-9] and the dash. *)
Definition slugByte (c : ascii) : bool :=
  is_lower c || is_digit c || Ascii.eqb "-" c.

Fixpoint allBytes (Q : ascii -> bool) (s : string) : bool :=
  match s with
  | EmptyString => true
  | String c s' => Q c && allBytes Q s'
  end.

Definition startsWithDash (s : string) : bool :=
  match s with
  | String c _ => Ascii.eqb "-" c
  | EmptyString => false
  end.

Fixpoint endsWithDash (s : string) : bool :=
  match s with
  | EmptyString => false
  | String c EmptyString => Ascii.eqb "-" c
  | String _ s' => endsWithDash s'
  end.

Fixpoint noDoubleDash (s : string) : bool :=
  match s with
  | EmptyString => true
  | String c s' => negb (Ascii.eqb "-" c && startsWithDash s') && noDoubleDash s'
  end.

(** What is left of [s] after its leading dashes. *)
Fixpoint dropDashes (s : string) : string :=
  match s with
  | String c s' => if Ascii.eqb "-" c then dropDashes s' else s
  | EmptyString => EmptyString
  end.

(** [t] is what remains of [s] after some bytes. *)
Definition suffixOf (t s : string) : Prop := exists pre, s = pre ++ t.

(** Whether the command line of [modify] names a flag at all. *)
Definition anyFlag (f : Flags) : bool :=
  isSome (side f) || isSome (disabledClientPlatforms f) || isSome (pin f)
  || optionalFlagChanged f.

(** The states [modify] goes through when it writes. *)
Definition refreshedIndex (env : Env) (idx : Index) (modPath : string)
    (m' : Mod) : Index :=
  refreshEntry idx (RelIndexPath env modPath) "sha256"
               (hashContent env (FMod (stored m'))) true.

Definition afterIndexWrite (env : Env) (w : World) (idx : Index)
    (modPath : string) (m' : Mod) : World :=
  let idx' := refreshedIndex env idx modPath m' in
  mkWorld (set (set (fs w) (metaFile m') (FMod (stored m')))
               (indexFile idx) (FIndex (Files idx')))
          idx' (S (S (writes w))) (apiCalls w) (sleeps w).

Definition rehashed (env : Env) (pack : Pack) (content : FileContent) : Pack :=
  mkPack (PackName pack) (PackIndexFile pack) (PackIndexHashFormat pack)
         (hashContent env content).

Definition afterPackWrite (env : Env) (w : World) (idx : Index)
    (modPath : string) (m' : Mod) (pack' : Pack) : World :=
  let w4 := afterIndexWrite env w idx modPath m' in
  mkWorld (set (fs w4) (packFile env) (FPack pack')) (index w4)
          (S (S (S (writes w)))) (apiCalls w) (sleeps w).

(** A pack with one record, and surroundings in which [Index.FindMod]
    finds a record by the name of its file. *)
Definition findByName (i : Index) (name : string) : option string :=
  let path := "mods/" ++ name ++ MetaExtension in
  if has (Files i) path then Some path else None.

Definition modifyEnv : Env :=
  mkEnv "pack.toml" (fun pack => PackIndexFile pack)
        (fun path => path) (fun path => path)
        sampleHash (fun _ => false) sampleUpdaters "" ""
        (fun _ => ["fabric"]) findByName.

Definition modifyWorld : World :=
  mkWorld [("pack.toml", FPack samplePack);
           ("index.toml",
            FIndex [("mods/jei.pw.toml", mkIndexEntry "sha256" "old" true false)]);
           ("mods/jei.pw.toml", FMod (stored recordOptional))]
          (mkIndex "" []) 0 0 [].

Definition sideClient : Flags :=
  mkFlags (Some " client ") None None None None None.

Definition isPrimary (file : ApiFile.t) : bool :=
  match ApiFile.Primary file with Some true => true | _ => false end.

(** The record [compareMods] makes of a version difference. *)
Definition diffMod (projectID : string) (currentMod mrpackMod : ModInfo.t)
  : ModInfo.t :=
  ModInfo.mk projectID
    (ModInfo.VersionID currentMod ++ " → " ++ ModInfo.VersionID mrpackMod)
    (ModInfo.ProjectName currentMod) "" (ModInfo.Side currentMod).

(** A computation that sends at most [n] requests and sleeps at most
    [k] times, 60 seconds each time. *)
Definition spends {A : Type} (n k : nat) (c : M A) : Prop :=
  forall w,
    apiCalls w <= apiCalls (snd (c w)) <= apiCalls w + n
    /\ exists j, j <= k
                 /\ sleeps (snd (c w)) = (sleeps w ++ repeat (Seconds 60) j)%list.

(** The requests and the sleeps an artifact may cost. *)
Definition cost (attempted : bool) (each : nat) : nat :=
  if attempted then each else 0.

Definition sampleFile : ApiFile.t :=
  ApiFile.mk "VA.jar" "https://cdn.modrinth.com/data/VA"
             [("sha512", "sha512-VA")] (Some true).

Definition sampleInstall : option string * World :=
  installVersionByIdWithSide sampleEnv sampleRemote sampleDeps "VA" "" "client"
                             samplePack sampleWorld.

(** The place an entry of the bundle is copied to, if it is one of the
    overrides. *)
Definition overrideDest (env : Env) (name : string) : option string :=
  if (10 <? String.length name)%nat
     && String.eqb (substring 0 10 name) "overrides/"
  then Some (ResolveIndexPath env
               (substring 10 (String.length name - 10) name))
  else None.

(** A bundle none of whose files carries a sha512 hash. *)
Definition sha1Only : ModrinthIndexFile.t :=
  ModrinthIndexFile.mk 1 "minecraft" "1.0.0" "Old Pack" ""
    [ModrinthIndexFileRef.mk "mods/a.jar" [("sha1", "aa11")] None [] 10;
     ModrinthIndexFileRef.mk "mods/b.jar" [("sha1", "bb22")] None [] 20]
    [("minecraft", "1.20.1")].

Definition sha1Deps : Deps :=
  mkDeps (getSide sampleDeps) (getBestHash sampleDeps)
         (getProjectTypeFolder sampleDeps) (fun _ => Ok sha1Only).

Definition sha1World : World :=
  mkWorld [("pack.toml", FPack samplePack); ("index.toml", FIndex []);
           ("old.mrpack", FZip [("modrinth.index.json", false, "{...}")])]
          (mkIndex "" []) 0 0 [].

(** An indexed file that is not on disk. *)
Definition orphaned (env : Env) (w : World) (kv : string * IndexEntry) : bool :=
  negb (pathExists (fs w) (ResolveIndexPath env (fst kv))).

(** A metadata record of the Index that loads and passes the checks of
    its structure. *)
Definition recordPasses (env : Env) (w : World) (kv : string * IndexEntry)
  : bool :=
  IsMetaFile (snd kv)
  && match fst (LoadMod env (ResolveIndexPath env (fst kv)) w) with
     | Ok m => validModStructure m
     | Err _ => false
     end.

Definition recordFails (env : Env) (w : World) (kv : string * IndexEntry)
  : bool :=
  IsMetaFile (snd kv) && negb (recordPasses env w kv).

(** The hash of the Index that the pack file gives is there and is not
    the hash of the Index file. *)
Definition indexHashProblem (env : Env) (s : Surroundings) (pack : Pack)
    (w : World) : bool :=
  negb (String.eqb (PackIndexHash pack) "")
  && match fst (calculateIndexHash env s pack w) with
     | Ok currentHash => negb (String.eqb (PackIndexHash pack) currentHash)
     | Err _ => true
     end.

(** An artifact of the bundle that the first revision tries to install:
    its file reference is found and its environment does not make
    [determineSideFromEnv] skip it. *)
Definition wantedByEnv (files : list ModrinthIndexFileRef.t)
    (item : string * HashResponse.t) : bool :=
  match findFileRef files (fst item) with
  | Some fileRef =>
      negb (snd (fst (determineSideFromEnv (ModrinthIndexFileRef.Env fileRef))))
  | None => false
  end.

(** A bundle with one file for the client only, and a catalog that
    knows it. *)
Definition clientFileRef : ModrinthIndexFileRef.t :=
  ModrinthIndexFileRef.mk "mods/A.jar" [("sha512", "hash-A")]
    (Some (FileEnv.mk "required" "unsupported")) [] 1024.

(** Surroundings to run [validate] in: paths are relative to the pack
    root, which is the working directory. *)
Fixpoint dirPart (path : string) : option string :=
  match path with
  | EmptyString => None
  | String c rest =>
      match dirPart rest with
      | Some dir => Some (String c dir)
      | None => if Ascii.eqb c "/" then Some "" else None
      end
  end.

Definition sampleSurroundings : Surroundings :=
  mkSurroundings
    (fun _ => Ok "1.20.1")
    (fun _ => [("minecraft", "1.20.1")])
    (fun format => if String.eqb format "sha256" then Ok sampleHash
                   else Err "hash implementation not found")
    true
    (fun path => match dirPart path with
                 | Some "" => "/"
                 | Some dir => dir
                 | None => "."
                 end)
    (fun base target => if String.eqb base "." then Ok target
                        else Err "Rel: can't make relative")
    (fun disk root =>
       map (fun kv => (fst kv, match snd kv with FDir => true | _ => false end))
           (filter (fun kv => prefix (root ++ "/") (fst kv)) disk)).

(** A pack with one good record, one record that nobody indexed, one
    indexed file that is gone, and a stale hash of the Index. *)
Definition validateWorld : World :=
  mkWorld [("pack.toml", FPack (mkPack "Sample" "index.toml" "sha256" "stale"));
           ("index.toml",
            FIndex [("mods/jei.pw.toml", mkIndexEntry "sha256" "aa" true false);
                    ("config/gone.cfg", mkIndexEntry "sha256" "bb" false false)]);
           ("mods/jei.pw.toml", FMod (stored recordOptional));
           ("mods/stray.pw.toml", FMod (stored recordOptional))]
          (mkIndex "" []) 0 0 [].

Definition validateReport : Report :=
  mkReport (mkCounts 2 1) 1 1 0 1 2.

(* ------------------------------------------------------------------ *)
(** ** Theorems *)
(* ------------------------------------------------------------------ *)

(** ** [SlugifyName] *)

(** C9: slugify("Just Enough Items (Forge Edition) - Legacy") is
    "just-enough-items": the name is lowercased, the parenthesised part
    and the trailing " - text" are removed, what is not a lowercase letter
    or a digit becomes a hyphen, runs of hyphens collapse and the hyphens
    at both ends are stripped. *)
Theorem SlugifyName_just_enough_items :
  SlugifyName "Just Enough Items (Forge Edition) - Legacy"
  = "just-enough-items".
Proof. vm_compute. reflexivity. Qed.

(** The intermediate strings of the same run, one per replacement. *)
Lemma SlugifyName_stages :
  let lower := ToLower "Just Enough Items (Forge Edition) - Legacy" in
  let noBrackets := Regexp.ReplaceAllString slugifyRegex1 lower "" in
  let noSuffix := Regexp.ReplaceAllString slugifyRegex2 noBrackets "" in
  let limitedChars := Regexp.ReplaceAllString slugifyRegex3 noSuffix "-" in
  lower = "just enough items (forge edition) - legacy"
  /\ noBrackets = "just enough items  - legacy"
  /\ noSuffix = "just enough items "
  /\ limitedChars = "just-enough-items-".
Proof. vm_compute. repeat split. Qed.

(** ** Side resolution *)

(** C2: for client = unknown and server = unknown the function answers
    the client side (with both warnings), where the table of the
    specification and the function's own last-but-one branch say
    universal. *)
Theorem determineSideFromEnv_unknown_unknown :
  determineSideFromEnv (Some (FileEnv.mk "unknown" "unknown"))
  = (ClientSide, false,
     "Unknown side compatibility: client side compatibility unknown, server side compatibility unknown")
  /\ resolve Unknown Unknown = Some CLIENT
  /\ decisionTable Unknown Unknown = UNIVERSAL.
Proof. vm_compute. repeat split. Qed.

(** X2: on the fifteen other pairs of signals the function follows the
    table of the specification. *)
Lemma determineSideFromEnv_table :
  forall client server,
    (client, server) <> (Unknown, Unknown) ->
    resolve client server = Some (decisionTable client server).
Proof.
  intros [] [] H; try reflexivity; now elim H.
Qed.

(** client = required, server = unsupported: the client side. *)
Lemma determineSideFromEnv_table_witness :
  resolve Required Unsupported = Some CLIENT.
Proof.
  exact (determineSideFromEnv_table Required Unsupported
           (fun H : (Required, Unsupported) = (Unknown, Unknown) =>
              eq_ind (Required, Unsupported)
                     (fun p => match fst p with
                               | Required => True
                               | _ => False
                               end) I _ H)).
Defined.

(** Every pair of signals gets exactly one of the four outcomes. *)
Lemma determineSideFromEnv_total :
  forall client server, exists r, resolve client server = Some r.
Proof. intros [] []; eexists; reflexivity. Qed.

Ltac case_string c :=
  destruct (String.eqb_spec c "required") as [-> | ?];
  [ | destruct (String.eqb_spec c "optional") as [-> | ?];
      [ | destruct (String.eqb_spec c "unsupported") as [-> | ?];
          [ | destruct (String.eqb_spec c "unknown") as [-> | ?];
              [ | destruct (String.eqb_spec c "") as [-> | ?] ] ] ] ].

(** The branch commented "Default to universal if unknown" is never
    taken: whenever one of the two signals is unknown (neither required,
    optional, unsupported nor empty) and the file is not skipped, the
    answer is the client or the server side. *)
Lemma determineSideFromEnv_unknown_never_universal :
  forall client server side warning,
    (client <> "required" /\ client <> "optional"
     /\ client <> "unsupported" /\ client <> "")
    \/ (server <> "required" /\ server <> "optional"
        /\ server <> "unsupported" /\ server <> "") ->
    determineSideFromEnv (Some (FileEnv.mk client server))
    = (side, false, warning) ->
    side = ClientSide \/ side = ServerSide.
Proof.
  intros client server side warning H.
  unfold determineSideFromEnv; cbn [FileEnv.Client FileEnv.Server].
  case_string client; case_string server; cbn;
    try (intros E; inversion E; subst; auto; fail);
    try (destruct H as [(?&?&?&?)|(?&?&?&?)]; congruence).
Qed.

(** ** [modify]: the Option block *)

(** A modify operation that only pins a record leaves an all-default
    Option block where it is, and the written record has an [option]
    table. *)
Lemma modify_pin_keeps_default_option :
  (exists m',
      applyFlags pinOnly recordWithDefaultOption = Ok (m', true)
      /\ Option m' = Some (mkModOption false "" false)
      /\ hasTable ["option"] (encode (stored m')) = true)
  /\ ~ option_never_written_with_defaults.
Proof.
  split.
  - eexists; repeat split; reflexivity.
  - intros H.
    specialize (H pinOnly recordWithDefaultOption _ eq_refl _ eq_refl).
    discriminate H.
Qed.

Lemma existsb_map_false :
  forall (A B : Type) (f : A -> B) (p : B -> bool) (l : list A),
    (forall a, p (f a) = false) -> existsb p (map f l) = false.
Proof.
  intros A B f p l H. induction l as [|a l IH]; cbn; [reflexivity|].
  now rewrite H, IH.
Qed.

(** The written form has an [option] table exactly when the record has
    an Option block. *)
Lemma hasTable_option_encode :
  forall m, hasTable ["option"] (encode m) = isSome (Option m).
Proof.
  intros m. unfold encode, hasTable, encodeUpdate.
  rewrite !existsb_app. cbn [existsb isTableNamed].
  rewrite !existsb_map_false by reflexivity.
  destruct (Option m); reflexivity.
Qed.

Lemma Option_stored : forall m, Option (stored m) = Option m.
Proof. reflexivity. Qed.

Lemma handleOptional_changed :
  forall f m changed,
    optionalFlagChanged f = true ->
    handleOptional f (m, changed)
    = (setOption m (if allDefault (assignedOption f m) then None
                    else Some (assignedOption f m)), true).
Proof.
  intros f m changed H. unfold handleOptional, assignedOption.
  rewrite H. destruct (allDefault _); reflexivity.
Qed.

Lemma applyFlags_Option :
  forall f m m' changed,
    applyFlags f m = Ok (m', changed) ->
    exists m1 c1, handleOptional f (m1, c1) = (m', changed)
                  /\ Option m1 = Option m.
Proof.
  intros f m m' changed. unfold applyFlags, handleSide, handlePlatforms.
  destruct (side f) as [sd|].
  - destruct (ValidateSide _); [discriminate|].
    destruct (disabledClientPlatforms f) as [pl|].
    + destruct (ValidateClientPlatforms pl); [discriminate|].
      intros E; inversion E; clear E.
      unfold handlePin. destruct (pin f); eexists _, _; split; eauto.
    + intros E; inversion E; clear E.
      unfold handlePin. destruct (pin f); eexists _, _; split; eauto.
  - destruct (disabledClientPlatforms f) as [pl|].
    + destruct (ValidateClientPlatforms pl); [discriminate|].
      intros E; inversion E; clear E.
      unfold handlePin. destruct (pin f); eexists _, _; split; eauto.
    + intros E; inversion E; clear E.
      unfold handlePin. destruct (pin f); eexists _, _; split; eauto.
Qed.

(** C6, as the code has it: when a modify operation changes one of the
    optional settings ([--optional], [--optional-description],
    [--optional-default]), the record is written back, and an Option
    block whose three values are [false], [""], [false] is removed: the
    record has no Option block and its written form has no [option]
    table.  An Option block that is left is never all-default. *)
Theorem modify_removes_default_option :
  forall f m m' changed,
    optionalFlagChanged f = true ->
    applyFlags f m = Ok (m', changed) ->
    changed = true
    /\ (allDefault (assignedOption f m) = true ->
        Option m' = None
        /\ hasTable ["option"] (encode (stored m')) = false)
    /\ (forall o, Option m' = Some o -> allDefault o = false).
Proof.
  intros f m m' changed Hf Ha.
  destruct (applyFlags_Option _ _ _ _ Ha) as (m1 & c1 & Hh & Ho).
  rewrite (handleOptional_changed f m1 c1 Hf) in Hh.
  inversion Hh; subst; clear Hh.
  assert (Ea : assignedOption f m1 = assignedOption f m)
    by (unfold assignedOption; now rewrite Ho).
  rewrite Ea. split; [reflexivity|]. split.
  - intros Hd. rewrite Hd. split; [reflexivity|].
    now rewrite hasTable_option_encode.
  - intros o. destruct (allDefault (assignedOption f m)) eqn:Hd; cbn.
    + discriminate.
    + intros E; inversion E; subst; exact Hd.
Qed.

(** [modify <name> --optional=false] on an optional record without
    description and off by default. *)
Lemma modify_removes_default_option_witness :
  optionalFlagChanged optionalOff = true
  /\ applyFlags optionalOff recordOptional
     = Ok (setOption recordOptional None, true)
  /\ Option (setOption recordOptional None) = None
  /\ hasTable ["option"] (encode (stored (setOption recordOptional None)))
     = false.
Proof.
  pose proof (modify_removes_default_option optionalOff recordOptional
                (setOption recordOptional None) true eq_refl eq_refl)
    as (_ & H & _).
  destruct (H eq_refl) as (H1 & H2).
  split; [reflexivity|]. split; [reflexivity|].
  split; [exact H1 | exact H2].
Defined.


(** ** Go maps *)

Lemma get_set_same :
  forall (V : Type) (m : gomap V) k v, get (set m k v) k = Some v.
Proof.
  intros V m k v. induction m as [|[k' v'] m IH]; cbn.
  - now rewrite String.eqb_refl.
  - destruct (String.eqb k k') eqn:E; cbn.
    + now rewrite String.eqb_refl.
    + now rewrite E.
Qed.

Lemma get_set_other :
  forall (V : Type) (m : gomap V) k k' v,
    k' <> k -> get (set m k v) k' = get m k'.
Proof.
  intros V m k k' v Hne. induction m as [|[k0 v0] m IH]; cbn.
  - apply String.eqb_neq in Hne. now rewrite Hne.
  - destruct (String.eqb k k0) eqn:E; cbn.
    + apply String.eqb_eq in E; subst k0.
      apply String.eqb_neq in Hne. now rewrite Hne.
    + destruct (String.eqb k' k0); [reflexivity | exact IH].
Qed.


(** A successful [Mod.Write] leaves the record, without its unexported
    fields, at the record's path. *)
Lemma Mod_Write_stores :
  forall env m w format hash w',
    Mod_Write env m w = ((format, hash, None), w') ->
    get (fs w') (metaFile m) = Some (FMod (stored m)).
Proof.
  intros env m w format hash w'. unfold Mod_Write, bind, writeFile, ret.
  destruct (writeFails env (writes w)); intros E; inversion E; subst; cbn.
  apply get_set_same.
Qed.

(** ** [diff]: the tally by source *)

Lemma existsb_not_recognized :
  forall l,
    existsb (fun key => negb (String.eqb key "modrinth")
                        && negb (String.eqb key "curseforge")) l
    = existsb (fun key => negb (recognized key)) l.
Proof.
  intros l. induction l as [|k l IH]; cbn; [reflexivity|].
  unfold recognized at 1. now rewrite negb_orb, IH.
Qed.

Lemma forallb_existsb_negb :
  forall (A : Type) (p : A -> bool) l,
    forallb p l = negb (existsb (fun x => negb (p x)) l).
Proof.
  intros A p l. induction l as [|a l IH]; cbn; [reflexivity|].
  rewrite IH. now destruct (p a).
Qed.

(** C7, as the code has it: a record that is counted neither under
    modrinth (update data with a non-empty project ID) nor under
    curseforge is tallied only if its download URL is not empty; it is
    then "other source" if and only if one of its update-source entries
    has a name other than modrinth and curseforge, and "bare URL" if and
    only if none has, which includes the record without any entry. *)
Theorem tallyMod_URL_Other :
  forall m mods sources,
    let sources' := snd (tallyMod m (mods, sources)) in
    ModSources.URL sources' = bump (countedAsURL m) (ModSources.URL sources)
    /\ ModSources.Other sources'
       = bump (countedAsOther m) (ModSources.Other sources)
    /\ (countedAsURL m = true <->
        countedAsModrinth m = false
        /\ GetParsedUpdateData m "curseforge" = None
        /\ URL (Download m) <> ""
        /\ forall key, In key (keys (Update m)) ->
                       key = "modrinth" \/ key = "curseforge")
    /\ (countedAsOther m = true <->
        countedAsModrinth m = false
        /\ GetParsedUpdateData m "curseforge" = None
        /\ URL (Download m) <> ""
        /\ exists key, In key (keys (Update m))
                       /\ key <> "modrinth" /\ key <> "curseforge").
Proof.
  intros m mods [nMr nCf nUrl nOther]. cbn zeta.
  assert (Hcf : forall o : option UpdateData, isSome o = false <-> o = None)
    by (intros [x|]; cbn; split; congruence).
  split; [|split; [|split]].
  - unfold tallyMod, countedAsURL, countedAsModrinth.
    rewrite existsb_not_recognized, forallb_existsb_negb.
    destruct (GetParsedUpdateData m "modrinth") as [[pid v|raw]|];
      try destruct (String.eqb pid ""); cbn;
      destruct (GetParsedUpdateData m "curseforge"); cbn; try reflexivity;
      destruct (String.eqb (URL (Download m)) ""); cbn; try reflexivity;
      destruct (existsb _ _); reflexivity.
  - unfold tallyMod, countedAsOther, countedAsModrinth.
    rewrite existsb_not_recognized.
    destruct (GetParsedUpdateData m "modrinth") as [[pid v|raw]|];
      try destruct (String.eqb pid ""); cbn;
      destruct (GetParsedUpdateData m "curseforge"); cbn; try reflexivity;
      destruct (String.eqb (URL (Download m)) ""); cbn; try reflexivity;
      destruct (existsb _ _); reflexivity.
  - unfold countedAsURL.
    rewrite !andb_true_iff, !negb_true_iff, Hcf, String.eqb_neq, forallb_forall.
    unfold recognized.
    split.
    + intros [[[H1 H2] H3] H4]. repeat split; auto.
      intros key Hin. apply H4 in Hin. apply orb_true_iff in Hin.
      destruct Hin as [E|E]; apply String.eqb_eq in E; auto.
    + intros (H1 & H2 & H3 & H4). repeat split; auto.
      intros key Hin. apply orb_true_iff.
      destruct (H4 key Hin) as [->| ->]; [left|right]; reflexivity.
  - unfold countedAsOther.
    rewrite !andb_true_iff, !negb_true_iff, Hcf, String.eqb_neq, existsb_exists.
    unfold recognized.
    split.
    + intros [[[H1 H2] H3] (key & Hin & Hk)]. repeat split; auto.
      exists key. apply negb_true_iff, orb_false_iff in Hk.
      destruct Hk as [Ha Hb]. apply String.eqb_neq in Ha, Hb. auto.
    + intros (H1 & H2 & H3 & key & Hin & Ha & Hb). repeat split; auto.
      exists key. split; [exact Hin|].
      apply negb_true_iff, orb_false_iff.
      split; now apply String.eqb_neq.
Qed.

(** A loaded record without any update source and without download URL
    is not counted as a bare URL; a loaded record with a github and a
    curseforge entry is counted under curseforge and not as other
    source. *)
Lemma tally_not_as_specified :
  (exists m,
      fst (LoadMod sampleEnv "mods/local.pw.toml" tallyDisk) = Ok m
      /\ Update m = []
      /\ snd (tallyMod m ([], ModSources.mk 0 0 0 0)) = ModSources.mk 0 0 0 0)
  /\ (exists m,
         fst (LoadMod sampleEnv "mods/dual.pw.toml" tallyDisk) = Ok m
         /\ keys (Update m) = ["github"; "curseforge"]
         /\ snd (tallyMod m ([], ModSources.mk 0 0 0 0))
            = ModSources.mk 0 1 0 0)
  /\ ~ tally_as_specified.
Proof.
  split; [|split].
  - eexists. vm_compute. repeat split.
  - eexists. vm_compute. repeat split.
  - intros H.
    specialize (H (mkMod "mods/local.pw.toml" "Local Jar" "local.jar" "" false
                         (mkModDownload "" [] "sha256" "ab12" "") [] [] None)
                  [] (ModSources.mk 0 0 0 0)).
    cbn in H. destruct H as [[_ H] _]. specialize (H eq_refl). discriminate H.
Qed.

(** ** [diff]: the order of the result lists *)

Lemma ascii_compare_N :
  forall a b, Ascii.compare a b = N.compare (N_of_ascii a) (N_of_ascii b).
Proof. reflexivity. Qed.

Lemma ascii_compare_eq : forall a b, Ascii.compare a b = Eq -> a = b.
Proof.
  intros a b H. rewrite ascii_compare_N in H.
  apply N.compare_eq in H.
  rewrite <- (ascii_N_embedding a), <- (ascii_N_embedding b).
  now rewrite H.
Qed.

Lemma ascii_compare_refl : forall a, Ascii.compare a a = Eq.
Proof. intros a. rewrite ascii_compare_N. apply N.compare_refl. Qed.

Lemma ascii_lt_trans :
  forall a b c,
    Ascii.compare a b = Lt -> Ascii.compare b c = Lt -> Ascii.compare a c = Lt.
Proof.
  intros a b c. rewrite !ascii_compare_N, !N.compare_lt_iff. lia.
Qed.

Lemma ascii_gt_lt :
  forall a b, Ascii.compare a b = Gt <-> Ascii.compare b a = Lt.
Proof.
  intros a b. rewrite !ascii_compare_N, N.compare_gt_iff, N.compare_lt_iff.
  reflexivity.
Qed.

(** [strings.Compare] is a total order: the part about [Gt]. *)
Lemma Compare_not_Gt_trans :
  forall a b c,
    Compare a b <> Gt -> Compare b c <> Gt -> Compare a c <> Gt.
Proof.
  unfold Compare.
  induction a as [|x a IH]; intros [|y b] [|z c]; cbn; try congruence.
  destruct (Ascii.compare x y) eqn:Exy; try congruence.
  - apply ascii_compare_eq in Exy; subst y.
    destruct (Ascii.compare x z) eqn:Exz; try congruence.
    apply IH.
  - destruct (Ascii.compare y z) eqn:Eyz; try congruence.
    + apply ascii_compare_eq in Eyz; subst z. rewrite Exy. congruence.
    + rewrite (ascii_lt_trans _ _ _ Exy Eyz). congruence.
Qed.

Lemma nameLe_trans : forall a b c, nameLe a b -> nameLe b c -> nameLe a c.
Proof. intros a b c. apply Compare_not_Gt_trans. Qed.

Lemma nameLess_false_nameLe :
  forall x y, nameLess x y = false -> nameLe y x.
Proof.
  unfold nameLess, nameLe, Compare. intros x y H.
  rewrite String.compare_antisym.
  destruct (String.compare (ModInfo.ProjectName x) (ModInfo.ProjectName y));
    cbn; congruence.
Qed.

Lemma nameLess_true_nameLe :
  forall x y, nameLess x y = true -> nameLe x y.
Proof.
  unfold nameLess, nameLe, Compare. intros x y H.
  destruct (String.compare (ModInfo.ProjectName x) (ModInfo.ProjectName y));
    congruence.
Qed.

(** The sorted part, last element first, stays sorted when one more
    element sinks into it. *)
Lemma sinkInto_sorted :
  forall x l,
    StronglySorted (fun a b => nameLe b a) l ->
    StronglySorted (fun a b => nameLe b a) (sinkInto x l).
Proof.
  intros x l H. induction H as [|y l Hs IH Hall]; cbn.
  - constructor; constructor.
  - destruct (nameLess x y) eqn:E.
    + constructor; [exact IH|].
      assert (Hin : forall z, In z (sinkInto x l) -> z = x \/ In z l).
      { clear. induction l as [|u l IHl]; cbn; intros z Hz.
        - destruct Hz as [->|[]]; auto.
        - destruct (nameLess x u); cbn in Hz.
          + destruct Hz as [->|Hz]; auto.
            destruct (IHl _ Hz); auto.
          + destruct Hz as [->|Hz]; auto. }
      apply Forall_forall. intros z Hz.
      destruct (Hin _ Hz) as [->|Hz'].
      * now apply nameLess_true_nameLe.
      * rewrite Forall_forall in Hall. now apply Hall.
    + constructor; [constructor; assumption|].
      constructor.
      * now apply nameLess_false_nameLe.
      * apply Forall_forall. intros z Hz.
        rewrite Forall_forall in Hall.
        apply nameLe_trans with y; [now apply Hall|].
        now apply nameLess_false_nameLe.
Qed.

Lemma sinkInto_perm : forall x l, Permutation (x :: l) (sinkInto x l).
Proof.
  intros x l. induction l as [|y l IH]; cbn; [reflexivity|].
  destruct (nameLess x y); [|reflexivity].
  rewrite perm_swap. now constructor.
Qed.

Lemma StronglySorted_rev :
  forall (A : Type) (R : A -> A -> Prop) l,
    StronglySorted (fun a b => R b a) l -> StronglySorted R (rev l).
Proof.
  intros A R l H. induction H as [|y l Hs IH Hall]; cbn; [constructor|].
  clear Hs. revert IH. generalize (rev_involutive l).
  assert (Hall' : Forall (fun a => R a y) (rev l)).
  { apply Forall_forall. intros z Hz. rewrite Forall_forall in Hall.
    apply Hall. now apply in_rev. }
  clear Hall. intros _. induction (rev l) as [|u t IHt]; cbn; intros Hsort.
  - constructor; constructor.
  - inversion Hsort; subst. inversion Hall'; subst.
    constructor; [now apply IHt|].
    apply Forall_app. split; [assumption|]. constructor; [assumption|constructor].
Qed.

(** [slices.SortFunc] leaves the slice ordered by display name. *)
Lemma sortByName_sorted :
  forall l, StronglySorted nameLe (sortByName l).
Proof.
  intros l. unfold sortByName. apply StronglySorted_rev.
  assert (G : forall acc,
             StronglySorted (fun a b => nameLe b a) acc ->
             StronglySorted (fun a b => nameLe b a)
               (fold_left (fun revSorted x => sinkInto x revSorted) l acc)).
  { induction l as [|x l IH]; cbn; intros acc Hacc; [exact Hacc|].
    apply IH. now apply sinkInto_sorted. }
  apply G. constructor.
Qed.

(** ... and only rearranges it. *)
Lemma sortByName_perm : forall l, Permutation l (sortByName l).
Proof.
  intros l. unfold sortByName. rewrite <- Permutation_rev.
  assert (G : forall acc,
             Permutation (l ++ acc)
               (fold_left (fun revSorted x => sinkInto x revSorted) l acc)).
  { induction l as [|x l IH]; cbn; intros acc; [reflexivity|].
    rewrite <- IH. rewrite <- sinkInto_perm.
    now rewrite Permutation_middle. }
  specialize (G []). now rewrite app_nil_r in G.
Qed.

(** X1: each of the three lists that [compareMods] returns is sorted by
    display name, in byte-wise lexicographic order. *)
Lemma compareMods_sorted :
  forall current mrpack,
    match compareMods current mrpack with
    | (missing, extra, different) =>
        StronglySorted nameLe missing
        /\ StronglySorted nameLe extra
        /\ StronglySorted nameLe different
    end.
Proof.
  intros current mrpack. unfold compareMods.
  repeat split; apply sortByName_sorted.
Qed.

(** C4: the same bundle map, ranged over in two orders, gives two
    different lists of missing mods: the sort compares display names only
    and leaves records with equal names in the order of arrival. *)
Theorem compareMods_range_order :
  let mrpack1 := [("w7ThoJFB", zoomA); ("KuNKN7d2", zoomB)] in
  let mrpack2 := [("KuNKN7d2", zoomB); ("w7ThoJFB", zoomA)] in
  NoDup (keys mrpack1)
  /\ Permutation mrpack1 mrpack2
  /\ (forall k, get mrpack1 k = get mrpack2 k)
  /\ compareMods [] mrpack1 = ([zoomA; zoomB], [], [])
  /\ compareMods [] mrpack2 = ([zoomB; zoomA], [], [])
  /\ compareMods [] mrpack1 <> compareMods [] mrpack2.
Proof.
  cbv zeta. split; [|split; [|split; [|split; [|split]]]].
  - repeat constructor; cbn; intuition discriminate.
  - apply perm_swap.
  - intros k. cbn.
    destruct (String.eqb_spec k "w7ThoJFB") as [->|]; [reflexivity|].
    destruct (String.eqb k "KuNKN7d2"); reflexivity.
  - vm_compute. reflexivity.
  - vm_compute. reflexivity.
  - vm_compute. discriminate.
Qed.

(** ** [diff] is read-only *)

Lemma preserves_ret : forall (A : Type) (a : A), preserves (ret a).
Proof. intros A a w. cbn. auto. Qed.

Lemma preserves_bind :
  forall (A B : Type) (c : M A) (k : A -> M B),
    preserves c -> (forall a, preserves (k a)) -> preserves (bind c k).
Proof.
  intros A B c k Hc Hk w. unfold bind.
  destruct (c w) as [a w1] eqn:E.
  specialize (Hc w). rewrite E in Hc. cbn in Hc.
  destruct Hc as (H1 & H2 & H3).
  destruct (Hk a w1) as (K1 & K2 & K3).
  rewrite K1, K2, K3. auto.
Qed.

Lemma preserves_readFile : forall path, preserves (readFile path).
Proof. intros path w. cbn. auto. Qed.

Lemma preserves_getIndex : preserves getIndex.
Proof. intros w. cbn. auto. Qed.

Lemma preserves_Sleep : forall ms, preserves (Sleep ms).
Proof. intros ms w. cbn. auto. Qed.

Lemma preserves_request :
  forall (A : Type) (answer : nat -> A), preserves (request answer).
Proof. intros A answer w. cbn. auto. Qed.

Create HintDb frame.

#[local] Hint Resolve preserves_ret preserves_readFile preserves_getIndex
  preserves_Sleep preserves_request : frame.

Ltac frame :=
  repeat first
    [ apply preserves_bind; [ | intros ? ]
    | progress auto with frame
    | match goal with
      | |- preserves (match ?x with _ => _ end) => destruct x
      | |- preserves (if ?x then _ else _) => destruct x
      | |- preserves (let (_, _) := ?x in _) => destruct x
      end ].

Lemma preserves_LoadMod : forall env path, preserves (LoadMod env path).
Proof. intros env path. unfold LoadMod. frame. Qed.

Lemma preserves_LoadPack : forall env, preserves (LoadPack env).
Proof. intros env. unfold LoadPack. frame. Qed.

Lemma preserves_LoadIndex : forall env pack, preserves (LoadIndex env pack).
Proof. intros env pack. unfold LoadIndex. frame. Qed.

#[local] Hint Resolve preserves_LoadMod preserves_LoadPack
  preserves_LoadIndex : frame.

Lemma preserves_currentModsLoop :
  forall env entries acc, preserves (currentModsLoop env entries acc).
Proof.
  intros env entries. induction entries as [|[fileName fileData] rest IH];
    intros acc; cbn [currentModsLoop].
  - frame.
  - destruct (IsMetaFile fileData); [|apply IH].
    apply preserves_bind; [auto with frame|]. intros [m|e];
      (apply preserves_bind; [auto with frame | intros _; apply IH]).
Qed.

Lemma preserves_getCurrentModrinthMods :
  forall env, preserves (getCurrentModrinthMods env).
Proof.
  intros env. unfold getCurrentModrinthMods.
  apply preserves_bind; [auto with frame|]. intros i.
  apply preserves_currentModsLoop.
Qed.

Lemma preserves_getMrpackModsWithInfo :
  forall remote deps mrpackData,
    preserves (getMrpackModsWithInfo remote deps mrpackData).
Proof.
  intros remote deps mrpackData.
  unfold getMrpackModsWithInfo, lookupVersionsByHash. frame.
Qed.

Lemma preserves_parseMrpackFile :
  forall deps path, preserves (parseMrpackFile deps path).
Proof. intros deps path. unfold parseMrpackFile. frame. Qed.

#[local] Hint Resolve preserves_getCurrentModrinthMods
  preserves_getMrpackModsWithInfo preserves_parseMrpackFile : frame.

Lemma bind_run :
  forall (A B : Type) (c : M A) (k : A -> M B) w,
    bind c k w = k (fst (c w)) (snd (c w)).
Proof. intros A B c k w. unfold bind. now destruct (c w). Qed.

Lemma LoadPack_run :
  forall env w,
    LoadPack env w
    = (match get (fs w) (packFile env) with
       | Some (FPack p) => Ok p
       | _ => Err "cannot load pack"
       end, w).
Proof.
  intros env w. unfold LoadPack. rewrite bind_run. unfold readFile.
  cbn [fst snd]. now destruct (get (fs w) (packFile env)) as [[]|].
Qed.

Lemma LoadIndex_run :
  forall env pack w,
    LoadIndex env pack w
    = (match get (fs w) (indexLocation env pack) with
       | Some (FIndex files) => Ok (mkIndex (indexLocation env pack) files)
       | _ => Err "cannot load index"
       end, w).
Proof.
  intros env pack w. unfold LoadIndex. rewrite bind_run. unfold readFile.
  cbn [fst snd]. now destruct (get (fs w) (indexLocation env pack)) as [[]|].
Qed.

(** What follows the loading of the Index in [diffCmd]. *)
Lemma preserves_diff_tail :
  forall env remote deps path,
    preserves
      (bind (parseMrpackFile deps path)
         (fun m =>
            match m with
            | Err _ => ret None
            | Ok mrpackData =>
                bind (getCurrentModrinthMods env)
                  (fun x =>
                     let '(currentMods, otherSourceMods) := x in
                     bind (getMrpackModsWithInfo remote deps mrpackData)
                       (fun r =>
                          match r with
                          | Err _ => ret None
                          | Ok mrpackMods =>
                              let '(missing, extra, different) :=
                                compareMods currentMods mrpackMods in
                              ret (Some (mkDiffReport missing extra different
                                                      otherSourceMods))
                          end))
            end)).
Proof.
  intros env remote deps path.
  apply preserves_bind; [auto with frame|]. intros [mrpackData|e];
    [|auto with frame].
  apply preserves_bind; [auto with frame|]. intros [currentMods sources].
  apply preserves_bind; [auto with frame|]. intros [mrpackMods|e];
    [|auto with frame].
  destruct (compareMods currentMods mrpackMods) as [[ms ex] df].
  auto with frame.
Qed.

(** C8: whatever the pack, the bundle and the answers of the catalog,
    [diff] leaves every file as it was and attempts no write; the Index
    value it works on is, at the end, the one it loaded from disk (or the
    initial one, when loading failed), so that neither the Index in
    memory nor the persisted Index changes. *)
Theorem diffCmd_read_only :
  forall env remote deps mrpackFilePath w,
    let w' := snd (diffCmd env remote deps mrpackFilePath w) in
    fs w' = fs w
    /\ writes w' = writes w
    /\ (index w' = index w
        \/ exists pack files,
             get (fs w) (packFile env) = Some (FPack pack)
             /\ get (fs w) (indexLocation env pack) = Some (FIndex files)
             /\ index w' = mkIndex (indexLocation env pack) files).
Proof.
  intros env remote deps path w. cbv zeta.
  unfold diffCmd.
  rewrite bind_run, LoadPack_run. cbn [fst snd].
  destruct (get (fs w) (packFile env)) as [[files|pack|m|b|z|]|] eqn:Ep;
    cbn [snd ret]; auto.
  rewrite bind_run, LoadIndex_run. cbn [fst snd].
  destruct (get (fs w) (indexLocation env pack))
    as [[files|pack'|m|b|z|]|] eqn:Ei; cbn [snd ret]; auto.
  rewrite bind_run. unfold putIndex at 1 2. cbn [fst snd].
  destruct (preserves_diff_tail env remote deps path
              (with_index w (mkIndex (indexLocation env pack) files)))
    as (H1 & H2 & H3).
  split; [exact H1|]. split; [exact H2|].
  right. exists pack, files. split; [reflexivity|]. split; [exact Ei|].
  exact H3.
Qed.

(** ** Fetching a project: retries on a rate limit *)



Lemma getProjectWithRateLimit_examples :
  getProjectWithRateLimit (busyRemote someProject) "AANobbMI" freshWorld
  = (Ok someProject,
     mkWorld [] (mkIndex "index.toml" []) 0 3 [Seconds 60; Seconds 60])
  /\ getProjectWithRateLimit emptyRemote "AANobbMI" freshWorld
     = (Err "404 Not Found", mkWorld [] (mkIndex "index.toml" []) 0 1 [])
  /\ isRateLimit "429 Too Many Requests" = true
  /\ isRateLimit "404 Not Found" = false.
Proof. vm_compute. repeat split. Qed.

(** ** The import loop *)

Lemma append_assoc :
  forall a b c : string, ((a ++ b) ++ c)%string = (a ++ (b ++ c))%string.
Proof. induction a as [|x a IH]; intros b c; cbn; [reflexivity|now rewrite IH]. Qed.

Lemma append_eqb_nonempty :
  forall a b : string, b <> "" -> String.eqb (a ++ b) "" = false.
Proof.
  intros a b Hb. apply String.eqb_neq. destruct a; cbn; [exact Hb|discriminate].
Qed.

(** The path of a metadata record ends in the metadata extension. *)
Lemma metaPath_suffix :
  forall base folder name,
    exists s, filepath_Join [base; folder; (name ++ MetaExtension)%string]
              = (s ++ MetaExtension)%string.
Proof.
  intros base folder name. unfold filepath_Join. cbn [filter].
  rewrite (append_eqb_nonempty name MetaExtension) by discriminate.
  cbn [negb].
  destruct (String.eqb base ""), (String.eqb folder ""); cbn [negb Join].
  - now exists name.
  - exists (folder ++ "/" ++ name)%string. now rewrite !append_assoc.
  - exists (base ++ "/" ++ name)%string. now rewrite !append_assoc.
  - exists (base ++ "/" ++ folder ++ "/" ++ name)%string.
    now rewrite !append_assoc.
Qed.

Lemma preserves_getProjectLoop :
  forall remote projectID left,
    preserves (getProjectLoop remote projectID left).
Proof.
  intros remote projectID left. induction left as [|left IH];
    cbn [getProjectLoop]; [frame|].
  apply preserves_bind; [auto with frame|]. intros [p|e]; [frame|].
  destruct (_ && _); [|frame].
  apply preserves_bind; [auto with frame|]. intros _. exact IH.
Qed.

Lemma preserves_getProjectWithRateLimit :
  forall remote projectID,
    preserves (getProjectWithRateLimit remote projectID).
Proof. intros. apply preserves_getProjectLoop. Qed.

(** What one installation does to the disk and to the Index: nothing
    when it fails; when it succeeds, one record file is written, under a
    path that ends in the metadata extension, and the entry of that path
    is refreshed. *)
Lemma install_cases :
  forall env remote deps versionId side pack w,
    let r := installVersionByIdWithSide env remote deps versionId "" side
                                        pack w in
    (fst r <> None /\ fs (snd r) = fs w /\ index (snd r) = index w)
    \/ (fst r = None
        /\ writeFails env (writes w) = false
        /\ exists s m format hash,
             fs (snd r) = set (fs w) (s ++ MetaExtension)%string (FMod m)
             /\ index (snd r)
                = refreshEntry (index w)
                    (RelIndexPath env (s ++ MetaExtension)%string)
                    format hash true).
Proof.
  intros env remote deps versionId side pack w. cbv zeta.
  destruct (installVersionByIdWithSide env remote deps versionId "" side
                                       pack w) as [err w'] eqn:E.
  cbn [fst snd].
  unfold installVersionByIdWithSide in E.
  rewrite bind_run in E. unfold request in E. cbn [fst snd] in E.
  destruct (Versions_Get remote (apiCalls w) versionId) as [version|e];
    [|inversion E; subst; left; cbn; repeat split; auto; discriminate].
  rewrite bind_run in E. cbn [fst snd apiCalls with_apiCalls] in E.
  destruct (Projects_Get remote (S (apiCalls w)) (Version.ProjectID version))
    as [project|e];
    [|inversion E; subst; left; cbn; repeat split; auto; discriminate].
  unfold installVersionWithSide in E. cbn [String.eqb] in E.
  destruct (findPrimaryFile version (compatibleLoaders env pack)) as [file|];
    [|inversion E; subst; left; cbn; repeat split; auto; discriminate].
  unfold createFileMetaWithSide in E.
  destruct (getBestHash deps file) as [algorithm hash].
  destruct (String.eqb algorithm "");
    [inversion E; subst; left; cbn; repeat split; auto; discriminate|].
  set (folder := if String.eqb (metaFolder env) "" then _ else _) in E.
  destruct folder as [folder|e];
    [|inversion E; subst; left; cbn; repeat split; auto; discriminate].
  set (name := match Project.Slug project with
               | Some slug => slug
               | None => SlugifyName (Project.Title project)
               end).
  destruct (metaPath_suffix (metaFolderBase env) folder name) as [s Hs].
  assert (Em : forall m,
             match Project.Slug project with
             | Some slug =>
                 SetMetaPath m
                   (filepath_Join [metaFolderBase env; folder;
                                   (slug ++ MetaExtension)%string])
             | None =>
                 SetMetaPath m
                   (filepath_Join [metaFolderBase env; folder;
                                   (SlugifyName (Project.Title project)
                                    ++ MetaExtension)%string])
             end = SetMetaPath m (s ++ MetaExtension)%string).
  { intros m. subst name. rewrite <- Hs. now destruct (Project.Slug project). }
  rewrite Em in E. clear Em. unfold SetMetaPath in E.
  rewrite bind_run in E. unfold Mod_Write in E. rewrite bind_run in E.
  unfold writeFile in E. cbn [fst snd writes with_apiCalls metaFile] in E.
  destruct (writeFails env (writes w)) eqn:Hw.
  - cbn in E. inversion E; subst. left. cbn. repeat split; auto; discriminate.
  - cbn in E. inversion E; subst. right. cbn.
    split; [reflexivity|]. split; [reflexivity|].
    eexists s, _, _, _. split; reflexivity.
Qed.

(** The three ways one iteration of the loop can go. *)
Lemma importStep_cases :
  forall env remote deps files installedProjects item st w,
    let r := importStep env remote deps files installedProjects item st w in
    (itemSkipped files installedProjects item = true
     /\ r = (countedSkipped st, w))
    \/ (itemSkipped files installedProjects item = false
        /\ fst r = countedProcessed st
        /\ index (snd r) = index w /\ fs (snd r) = fs w)
    \/ (itemAttempted files installedProjects item = true
        /\ exists w0 w1 s m format hash,
             fs w0 = fs w /\ index w0 = index w /\ writes w0 = writes w
             /\ writeFails env (writes w) = false
             /\ fs w1 = set (fs w) (s ++ MetaExtension)%string (FMod m)
             /\ index w1
                = refreshEntry (index w)
                    (RelIndexPath env (s ++ MetaExtension)%string)
                    format hash true
             /\ r = if (S (successCount st) mod 10 =? 0)%nat
                    then saveProgress env (countedInstalled st) w1
                    else (countedInstalled st, w1)).
Proof.
  intros env remote deps files installed [hash versionInfo] st w. cbv zeta.
  unfold itemSkipped, itemAttempted, importStep.
  unfold countedSkipped, countedProcessed, countedInstalled.
  cbn [fst snd pack successCount skippedCount processedCount].
  destruct (findFileRef files hash) as [fileRef|].
  2:{ right; left. cbn. auto. }
  destruct (projectAlreadyInstalled installed
              (HashResponse.ProjectID versionInfo)).
  { left. auto. }
  rewrite bind_run.
  destruct (preserves_getProjectWithRateLimit remote
              (HashResponse.ProjectID versionInfo) w) as (F1 & F2 & F3).
  destruct (getProjectWithRateLimit remote
              (HashResponse.ProjectID versionInfo) w) as [[project|e] w0].
  2:{ right; left. cbn in *. auto. }
  cbn [fst snd] in *.
  rewrite bind_run.
  set (side := if String.eqb (getSide deps project) "" then UniversalSide
               else getSide deps project).
  pose proof (install_cases env remote deps (HashResponse.ID versionInfo)
                side (pack st) w0) as H.
  cbv zeta in H.
  destruct (installVersionByIdWithSide env remote deps
              (HashResponse.ID versionInfo) "" side (pack st) w0)
    as [err w1].
  cbn [fst snd] in *.
  destruct H as [(Hne & Hfs & Hix) | (He & Hw & s & m & format & h & Hfs & Hix)].
  - right; left. destruct err as [e|]; [|congruence].
    cbn. repeat split; congruence.
  - right; right. subst err. split; [reflexivity|].
    exists w0, w1, s, m, format, h. cbn [successCount].
    rewrite <- F1, <- F3, <- F2. repeat split; auto.
    now destruct (_ =? 0)%nat.
Qed.

(** [saveProgress] leaves the counters and the Index value alone; it
    writes nothing when no artifact was installed; otherwise it rewrites
    the Index file, unless that write fails, and then possibly the pack
    file. *)
Lemma saveProgress_cases :
  forall env st w,
    let r := saveProgress env st w in
    index (snd r) = index w
    /\ successCount (fst r) = successCount st
    /\ skippedCount (fst r) = skippedCount st
    /\ processedCount (fst r) = processedCount st
    /\ (successCount st = 0 -> r = (st, w))
    /\ (0 < successCount st ->
        (writeFails env (writes w) = true
         /\ fs (snd r) = fs w /\ writes (snd r) = S (writes w))
        \/ (writeFails env (writes w) = false
            /\ S (writes w) <= writes (snd r)
            /\ (fs (snd r)
                = set (fs w) (indexFile (index w)) (FIndex (Files (index w)))
                \/ exists p,
                     fs (snd r)
                     = set (set (fs w) (indexFile (index w))
                                (FIndex (Files (index w))))
                           (packFile env) (FPack p)))).
Proof.
  intros env st w. cbv zeta.
  destruct (saveProgress env st w) as [st' w'] eqn:E. cbn [fst snd].
  unfold saveProgress in E.
  destruct (successCount st) as [|n] eqn:En; cbn [Nat.ltb Nat.leb] in E.
  { inversion E; subst. repeat split; auto. intros H; inversion H. }
  rewrite bind_run in E. unfold Index_Write in E. rewrite bind_run in E.
  unfold getIndex, writeFile in E. cbn [fst snd] in E.
  destruct (writeFails env (writes w)) eqn:Hw; cbn [fst snd] in E.
  { inversion E; subst. cbn.
    repeat split; auto; try discriminate; try (intros _; left; auto). }
  rewrite bind_run in E. unfold UpdateIndexHash in E. rewrite bind_run in E.
  unfold readFile in E. cbn [fst snd] in E.
  match type of E with
  | context [match ?x with _ => _ end] => destruct x as [content|]
  end; cbn [fst snd ret] in E.
  - rewrite bind_run in E. unfold Pack_Write, writeFile in E.
    cbn [fst snd writes with_writes with_fs] in E.
    destruct (writeFails env (S (writes w))); cbn [fst snd] in E;
      inversion E; subst; cbn; repeat split; auto; try discriminate;
      try (intros _; right; (split; [reflexivity|]); (split; [lia|]); eauto).
  - inversion E; subst; cbn; repeat split; auto; try discriminate;
      try (intros _; right; (split; [reflexivity|]); (split; [lia|]); eauto).
Qed.

Lemma itemAttempted_not_skipped :
  forall files installedProjects item,
    itemAttempted files installedProjects item = true ->
    itemSkipped files installedProjects item = false.
Proof.
  intros files installed item. unfold itemAttempted, itemSkipped.
  destruct (findFileRef files (fst item)); [|discriminate].
  now destruct (projectAlreadyInstalled installed _).
Qed.

(** One iteration adds one to the skip counter exactly when the
    artifact's project is already installed, whatever the state of the
    loop, of the disk and of the Index. *)
Lemma importStep_skippedCount :
  forall env remote deps files installedProjects item st w,
    skippedCount (fst (importStep env remote deps files installedProjects
                                  item st w))
    = skippedCount st + bumpIf (itemSkipped files installedProjects item).
Proof.
  intros env remote deps files installed item st w.
  destruct (importStep_cases env remote deps files installed item st w)
    as [(Hs & E) | [(Hs & E & _) | (Ha & w0 & w1 & s & m & f & h & _ & _ & _
                                      & _ & _ & _ & E)]].
  - rewrite E, Hs. cbn. lia.
  - rewrite E, Hs. cbn. lia.
  - rewrite (itemAttempted_not_skipped _ _ _ Ha), E.
    destruct (saveProgress_cases env (countedInstalled st) w1)
      as (_ & _ & H & _).
    destruct (_ =? 0)%nat; [rewrite H|]; cbn; lia.
Qed.

(** One iteration installs at most one artifact, and none that it
    skips. *)
Lemma importStep_successCount :
  forall env remote deps files installedProjects item st w,
    let st' := fst (importStep env remote deps files installedProjects
                               item st w) in
    (successCount st' = successCount st
     \/ (successCount st' = S (successCount st)
         /\ itemAttempted files installedProjects item = true)).
Proof.
  intros env remote deps files installed item st w. cbv zeta.
  destruct (importStep_cases env remote deps files installed item st w)
    as [(Hs & E) | [(Hs & E & _) | (Ha & w0 & w1 & s & m & f & h & _ & _ & _
                                      & _ & _ & _ & E)]].
  - rewrite E. cbn. auto.
  - rewrite E. cbn. auto.
  - right. split; [|exact Ha]. rewrite E.
    destruct (saveProgress_cases env (countedInstalled st) w1)
      as (_ & H & _).
    destruct (_ =? 0)%nat; [rewrite H|]; reflexivity.
Qed.

Lemma importLoop_cons :
  forall env remote deps files installedProjects item rest st w,
    importLoop env remote deps files installedProjects (item :: rest) st w
    = importLoop env remote deps files installedProjects rest
        (fst (importStep env remote deps files installedProjects item st w))
        (snd (importStep env remote deps files installedProjects item st w)).
Proof. intros. cbn [importLoop]. now rewrite bind_run. Qed.

(** The skip counter after the loop: one per artifact whose project is
    already installed. *)
Lemma importLoop_skippedCount :
  forall env remote deps files installedProjects versionMap st w,
    skippedCount (fst (importLoop env remote deps files installedProjects
                                  versionMap st w))
    = skippedCount st
      + length (filter (itemSkipped files installedProjects) versionMap).
Proof.
  intros env remote deps files installed vm.
  induction vm as [|item rest IH]; intros st w.
  - cbn. lia.
  - rewrite importLoop_cons, IH, importStep_skippedCount. cbn [filter].
    destruct (itemSkipped files installed item); cbn; lia.
Qed.

Lemma filter_length_perm :
  forall (A : Type) (p : A -> bool) l l',
    Permutation l l' -> length (filter p l) = length (filter p l').
Proof.
  intros A p l l' H. induction H; cbn.
  - reflexivity.
  - destruct (p x); cbn; now rewrite IHPermutation.
  - destruct (p x), (p y); reflexivity.
  - congruence.
Qed.

(** ** Duplicates of an installed project *)

(** With project [PA] installed, the two references to [PA] are both
    skipped, none is installed and no request is sent. *)
Lemma both_duplicates_skipped :
  importLoop sampleEnv sampleRemote sampleDeps twoFiles ["PA"]
             twoVersionsOfPA (mkImportState samplePack 0 0 0) sampleWorld
  = (mkImportState samplePack 0 2 2, sampleWorld)
  /\ ~ one_of_two_duplicates_processed.
Proof.
  split; [vm_compute; reflexivity|].
  intros H.
  specialize (H sampleEnv sampleRemote sampleDeps twoFiles ["PA"]
                "hash-A" (HashResponse.mk "VA" "PA")
                "hash-B" (HashResponse.mk "VA2" "PA")
                (mkImportState samplePack 0 0 0) sampleWorld).
  assert (E : 0 = 1); [|discriminate E].
  apply H; try reflexivity; discriminate.
Qed.

Lemma importStep_skipped :
  forall env remote deps files installedProjects item st w,
    itemSkipped files installedProjects item = true ->
    importStep env remote deps files installedProjects item st w
    = (countedSkipped st, w).
Proof.
  intros env remote deps files installed item st w H.
  destruct (importStep_cases env remote deps files installed item st w)
    as [(_ & E) | [(Hs & _) | (Ha & _)]].
  - exact E.
  - congruence.
  - apply itemAttempted_not_skipped in Ha. congruence.
Qed.

(** C3, as the code has it: every reference whose project ID is already
    installed (and whose file reference is found) is skipped and counted
    in the skip counter; none of them is processed, the iteration leaves
    the disk, the Index and the catalog untouched.  So of two references
    that share an installed project ID both are skipped, and the skip
    counter does not depend on the order of the iteration. *)
Theorem importLoop_skips_installed :
  forall env remote deps files installedProjects versionMap versionMap' st w,
    Permutation versionMap versionMap' ->
    let final vm :=
      fst (importLoop env remote deps files installedProjects vm st w) in
    skippedCount (final versionMap)
    = skippedCount st
      + length (filter (itemSkipped files installedProjects) versionMap)
    /\ skippedCount (final versionMap') = skippedCount (final versionMap)
    /\ (forall item st0 w0,
          itemSkipped files installedProjects item = true ->
          importStep env remote deps files installedProjects item st0 w0
          = (countedSkipped st0, w0))
    /\ (forall item1 item2,
          itemSkipped files installedProjects item1 = true ->
          itemSkipped files installedProjects item2 = true ->
          importLoop env remote deps files installedProjects
                     [item1; item2] st w
          = (countedSkipped (countedSkipped st), w)
          /\ importLoop env remote deps files installedProjects
                        [item2; item1] st w
             = (countedSkipped (countedSkipped st), w)).
Proof.
  intros env remote deps files installed vm vm' st w Hperm. cbv zeta.
  split; [apply importLoop_skippedCount|].
  split.
  { rewrite !importLoop_skippedCount.
    now rewrite (filter_length_perm _ _ _ _ Hperm). }
  split; [intros; now apply importStep_skipped|].
  intros item1 item2 H1 H2.
  split.
  - rewrite importLoop_cons, (importStep_skipped _ _ _ _ _ _ _ _ H1).
    cbn [fst snd].
    rewrite importLoop_cons, (importStep_skipped _ _ _ _ _ _ _ _ H2).
    reflexivity.
  - rewrite importLoop_cons, (importStep_skipped _ _ _ _ _ _ _ _ H2).
    cbn [fst snd].
    rewrite importLoop_cons, (importStep_skipped _ _ _ _ _ _ _ _ H1).
    reflexivity.
Qed.

Lemma importLoop_skips_installed_witness :
  let final vm :=
    fst (importLoop sampleEnv sampleRemote sampleDeps twoFiles ["PA"]
                    vm (mkImportState samplePack 0 0 0) sampleWorld) in
  skippedCount (final twoVersionsOfPA) = 2
  /\ skippedCount (final (rev twoVersionsOfPA)) = 2.
Proof.
  destruct (importLoop_skips_installed sampleEnv sampleRemote sampleDeps
              twoFiles ["PA"] twoVersionsOfPA (rev twoVersionsOfPA)
              (mkImportState samplePack 0 0 0) sampleWorld
              (Permutation_rev twoVersionsOfPA)) as (H1 & H2 & _).
  cbv zeta. split; [exact H1 | rewrite H2; exact H1].
Defined.

(** ** Duplicates within a batch *)

Lemma findPrimaryFile_some :
  forall version loaders,
    Version.Files version <> [] ->
    exists file, findPrimaryFile version loaders = Some file.
Proof.
  intros version loaders H. unfold findPrimaryFile.
  destruct (Version.Files version) as [|first rest]; [congruence|].
  destruct (find _ _); eauto.
Qed.

Lemma install_reliable :
  forall env remote deps versionId side pack w,
    reliable env remote deps ->
    fst (installVersionByIdWithSide env remote deps versionId "" side pack w)
    = None.
Proof.
  intros env remote deps versionId side pack w (Hw & Hp & Hv & Hh & Hf).
  unfold installVersionByIdWithSide.
  rewrite bind_run. unfold request. cbn [fst snd].
  destruct (Hv (apiCalls w) versionId) as (version & Ev & Hfiles).
  rewrite Ev. rewrite bind_run. cbn [fst snd apiCalls with_apiCalls].
  destruct (Hp (S (apiCalls w)) (Version.ProjectID version)) as (project & Ep).
  rewrite Ep. unfold installVersionWithSide. cbn [String.eqb].
  destruct (findPrimaryFile_some version (compatibleLoaders env pack) Hfiles)
    as (file & Efile).
  rewrite Efile. unfold createFileMetaWithSide.
  specialize (Hh file).
  destruct (getBestHash deps file) as [algorithm hash]. cbn [fst] in Hh.
  apply String.eqb_neq in Hh. rewrite Hh.
  destruct (Hf (Project.ProjectType project) (Version.Loaders version)
               (compatibleLoaders env pack)) as (folder & Efolder).
  rewrite Efolder.
  assert (Efd : (if String.eqb (metaFolder env) "" then Ok folder
                 else Ok (metaFolder env))
                = Ok (if String.eqb (metaFolder env) "" then folder
                      else metaFolder env))
    by now destruct (String.eqb (metaFolder env) "").
  rewrite Efd.
  destruct (Project.Slug project); unfold SetMetaPath;
    rewrite bind_run; unfold Mod_Write; rewrite bind_run;
    unfold writeFile; cbn [fst snd writes with_apiCalls];
    rewrite Hw; reflexivity.
Qed.

Lemma getProject_reliable :
  forall env remote deps projectID w,
    reliable env remote deps ->
    exists project,
      fst (getProjectWithRateLimit remote projectID w) = Ok project.
Proof.
  intros env remote deps projectID w (_ & Hp & _).
  unfold getProjectWithRateLimit, maxRetries. cbn [getProjectLoop].
  rewrite bind_run. unfold request. cbn [fst snd].
  destruct (Hp (apiCalls w) projectID) as (project & Ep).
  rewrite Ep. cbn. eauto.
Qed.

(** In reliable surroundings an artifact whose project is not among the
    installed ones is installed, whatever was installed before it. *)
Lemma importStep_reliable :
  forall env remote deps files installedProjects item st w,
    reliable env remote deps ->
    itemAttempted files installedProjects item = true ->
    successCount (fst (importStep env remote deps files installedProjects
                                  item st w))
    = S (successCount st).
Proof.
  intros env remote deps files installed [hash versionInfo] st w Hr.
  unfold itemAttempted, importStep.
  cbn [fst snd pack successCount skippedCount processedCount].
  destruct (findFileRef files hash) as [fileRef|]; [|discriminate].
  destruct (projectAlreadyInstalled installed _); [discriminate|]. intros _.
  rewrite bind_run.
  destruct (getProject_reliable env remote deps
              (HashResponse.ProjectID versionInfo) w Hr) as (project & Ep).
  rewrite Ep. rewrite bind_run, install_reliable by exact Hr.
  match goal with
  | |- context [saveProgress env ?s] =>
      destruct (saveProgress_cases env s
                  (snd (installVersionByIdWithSide env remote deps
                          (HashResponse.ID versionInfo) ""
                          (if String.eqb (getSide deps project) ""
                           then UniversalSide else getSide deps project)
                          (pack st)
                          (snd (getProjectWithRateLimit remote
                                  (HashResponse.ProjectID versionInfo) w)))))
        as (_ & Hs & _)
  end.
  destruct (_ =? 0)%nat; [rewrite Hs|]; reflexivity.
Qed.

(** The count of installed artifacts after the loop, in reliable
    surroundings: one per artifact whose project was not installed
    before the loop began. *)
Lemma importLoop_successCount :
  forall env remote deps files installedProjects versionMap st w,
    reliable env remote deps ->
    successCount (fst (importLoop env remote deps files installedProjects
                                  versionMap st w))
    = successCount st
      + length (filter (itemAttempted files installedProjects) versionMap).
Proof.
  intros env remote deps files installed vm st w Hr. revert st w.
  induction vm as [|item rest IH]; intros st w.
  - cbn. lia.
  - rewrite importLoop_cons, IH. cbn [filter].
    destruct (itemAttempted files installed item) eqn:Ha.
    + rewrite importStep_reliable by assumption. cbn. lia.
    + destruct (importStep_successCount env remote deps files installed
                  item st w) as [E | [_ E]]; [|congruence].
      cbv zeta in E. rewrite E. lia.
Qed.

Lemma sample_reliable : reliable sampleEnv sampleRemote sampleDeps.
Proof.
  split; [|split; [|split; [|split]]].
  - intros n. reflexivity.
  - intros n id. eexists. reflexivity.
  - intros n id. eexists. split; [reflexivity|discriminate].
  - intros file. discriminate.
  - intros t loaders compatible. eexists. reflexivity.
Qed.

(** ** Checkpoints *)


Lemma checkpoint_arith :
  forall n, S n mod 10 <> 0 -> (S n / 10) * 10 = (n / 10) * 10.
Proof.
  intros n H.
  pose proof (Nat.div_mod_eq (S n) 10) as E1.
  pose proof (Nat.div_mod_eq n 10) as E2.
  pose proof (Nat.mod_upper_bound (S n) 10) as B1.
  pose proof (Nat.mod_upper_bound n 10) as B2.
  assert (S n / 10 = n / 10); [|lia].
  assert (H1 : 10 * (n / 10) <= S n) by lia.
  assert (H2 : S n < 10 * (n / 10) + 10) by lia.
  assert (L : n / 10 <= S n / 10).
  { apply Nat.Div0.div_le_mono; lia. }
  assert (U : S n / 10 <= n / 10).
  { destruct (Nat.le_gt_cases (S n / 10) (n / 10)) as [?|G]; [assumption|].
    exfalso. lia. }
  lia.
Qed.

Lemma div10_le : forall n, (n / 10) * 10 <= n.
Proof. intros n. pose proof (Nat.div_mod_eq n 10). lia. Qed.

Lemma copyOverrides_index :
  forall env zipFiles w, index (snd (copyOverrides env zipFiles w)) = index w.
Proof.
  intros env zipFiles. induction zipFiles as [|[[name isDir] bytes] rest IH];
    intros w; cbn [copyOverrides]; [reflexivity|].
  destruct (_ && _); [|apply IH].
  destruct isDir; rewrite bind_run.
  - unfold MkdirAll. rewrite bind_run. unfold readFile, writeFile.
    cbn [fst snd].
    destruct (get (fs w) _) as [[]|]; cbn [fst snd ret];
      try reflexivity; try (rewrite IH; reflexivity).
    destruct (writeFails env (writes w)); cbn [fst snd];
      try reflexivity; rewrite IH; reflexivity.
  - unfold writeFile.
    destruct (writeFails env (writes w)); cbn [fst snd];
      try reflexivity; rewrite IH; reflexivity.
Qed.

Lemma length_append :
  forall a b : string,
    String.length (a ++ b) = String.length a + String.length b.
Proof. induction a as [|x a IH]; intros b; cbn; [reflexivity|now rewrite IH]. Qed.

Lemma index_toml_not_meta :
  forall s, "index.toml" <> (s ++ MetaExtension)%string.
Proof.
  intros s H.
  assert (L : String.length (s ++ MetaExtension) = 10) by now rewrite <- H.
  rewrite length_append in L. cbn in L.
  destruct s as [|a [|b [|c s]]]; cbn in L; try lia.
  cbn in H. inversion H.
Qed.

Lemma persistedIndex_frame :
  forall w w',
    fs w' = fs w -> index w' = index w ->
    persistedIndex w' = persistedIndex w.
Proof. intros w w' Hf Hi. unfold persistedIndex. now rewrite Hf, Hi. Qed.

Lemma Index_Write_run :
  forall env w,
    writeFails env (writes w) = false ->
    Index_Write env w
    = (None, with_writes (with_fs w (set (fs w) (indexFile (index w))
                                         (FIndex (Files (index w)))))
                         (S (writes w))).
Proof.
  intros env w H. unfold Index_Write. rewrite bind_run.
  unfold getIndex, writeFile. cbn [fst snd]. now rewrite H.
Qed.

Lemma Pack_Write_run :
  forall env p w,
    writeFails env (writes w) = false ->
    Pack_Write env p w
    = (None, with_writes (with_fs w (set (fs w) (packFile env) (FPack p)))
                         (S (writes w))).
Proof. intros env p w H. unfold Pack_Write, writeFile. now rewrite H. Qed.

Lemma UpdateIndexHash_world :
  forall env p w, snd (UpdateIndexHash env p w) = w.
Proof.
  intros env p w. unfold UpdateIndexHash. rewrite bind_run.
  unfold readFile. cbn [fst snd]. now destruct (get (fs w) _).
Qed.

(** The statements of [saveProgress], with writes that succeed: only
    [index.Write] changes the Index file, and it makes it the Index
    value. *)
Lemma saveStep_cases :
  forall env s st w,
    (forall n, writeFails env n = false) ->
    packFile env <> indexFile (index w) ->
    let r := saveStep env s st w in
    index (snd r) = index w
    /\ successCount (snd (fst r)) = successCount st
    /\ match s with
       | SaveTest =>
           snd r = w
           /\ fst (fst r)
              = (if (0 <? successCount st)%nat then Some SaveIndex else None)
       | SaveIndex =>
           fst (fst r) = Some SaveHash
           /\ persistedIndex (snd r) = Some (Files (index w))
       | SaveHash =>
           snd r = w
           /\ (fst (fst r) = Some SavePack \/ fst (fst r) = None)
       | SavePack =>
           fst (fst r) = None
           /\ persistedIndex (snd r) = persistedIndex w
       end.
Proof.
  intros env s st w Hio Hpack. cbv zeta. destruct s; cbn [saveStep].
  - destruct (0 <? successCount st)%nat; cbn; auto.
  - rewrite bind_run, Index_Write_run by apply Hio. cbn.
    repeat split. unfold persistedIndex. cbn. now rewrite get_set_same.
  - rewrite bind_run.
    pose proof (UpdateIndexHash_world env (pack st) w) as Hw.
    destruct (UpdateIndexHash env (pack st) w) as [[pack' [e|]] w'];
      cbn in *; subst; auto.
  - rewrite bind_run, Pack_Write_run by apply Hio. cbn.
    repeat split. unfold persistedIndex. cbn.
    now rewrite get_set_other by congruence.
Qed.

Lemma copyOverrides_keeps_path :
  forall env path zipFiles w,
    (forall name isDir bytes,
        In (name, isDir, bytes) zipFiles ->
        overrideDest env name <> Some path) ->
    get (fs (snd (copyOverrides env zipFiles w))) path = get (fs w) path.
Proof.
  intros env path zipFiles.
  induction zipFiles as [|[[name isDir] bytes] rest IH]; intros w H;
    [reflexivity|].
  assert (Hrest : forall w0,
             get (fs (snd (copyOverrides env rest w0))) path
             = get (fs w0) path).
  { intros w0. apply IH. intros n d b Hin. apply (H n d b). now right. }
  pose proof (H name isDir bytes (or_introl eq_refl)) as Hhead.
  unfold overrideDest in Hhead. cbn [copyOverrides].
  destruct ((10 <? String.length name)%nat
            && String.eqb (substring 0 10 name) "overrides/");
    [|apply Hrest].
  set (dest := ResolveIndexPath env
                 (substring 10 (String.length name - 10) name)) in *.
  assert (Hne : path <> dest) by congruence.
  destruct isDir.
  - rewrite bind_run. unfold MkdirAll. rewrite bind_run. unfold readFile.
    cbn [fst snd].
    destruct (get (fs w) dest) as [[]|]; cbn [fst snd ret];
      try reflexivity; try apply Hrest.
    unfold writeFile. destruct (writeFails env (writes w)); cbn [fst snd ret];
      [reflexivity|].
    rewrite Hrest. cbn [fs with_fs with_writes]. now apply get_set_other.
  - rewrite bind_run. unfold writeFile.
    destruct (writeFails env (writes w)); cbn [fst snd ret]; [reflexivity|].
    rewrite Hrest. cbn [fs with_fs with_writes]. now apply get_set_other.
Qed.


(** An event that leaves the count and the Index file as they are keeps
    the snapshot. *)
Lemma snapshotKept_quiet :
  forall idx c snap b w b' w',
    snapshotKept idx c snap b w ->
    indexFile (index w') = indexFile (index w) ->
    persistedIndex w' = persistedIndex w ->
    successCount (vars b') = successCount (vars b) ->
    (saveDue (mainAt b') = false ->
     saveDue (mainAt b) = false
     \/ successCount (vars b) mod 10 <> 0
     \/ successCount (vars b) = 0) ->
    (indexSaved b' = true -> indexSaved b = true /\ index w' = index w) ->
    (ended b' = Some Completed \/ ended b' = Some Recovered ->
     mainAt b' = AtReturn) ->
    snapshotKept idx c snap b' w'.
Proof.
  intros idx c snap b w b' w' (Hidx & Hp & Hle & HA & HB & HC & HE)
         Hfile Hpers Hcount Hdue Hsaved Hend.
  unfold snapshotKept. rewrite Hfile, Hpers, Hcount.
  do 4 (split; [assumption|]).
  split; [|split; [|exact Hend]].
  - intros Hd. destruct (Hdue Hd) as [H|[H|H]]; [auto| |].
    + destruct (successCount (vars b)) as [|n] eqn:En; [now elim H|].
      rewrite (checkpoint_arith _ H).
      replace (S n - 1) with n in HA by lia. lia.
    + rewrite H. cbn. lia.
  - intros Hs. destruct (Hsaved Hs) as (Hs0 & Hix). rewrite Hix. auto.
Qed.

(** A write of the Index makes the Index value the snapshot. *)
Lemma snapshotKept_written :
  forall idx c snap b w b' w',
    snapshotKept idx c snap b w ->
    indexFile (index w') = indexFile (index w) ->
    persistedIndex w' = Some (Files (index w')) ->
    (ended b' = Some Completed \/ ended b' = Some Recovered ->
     mainAt b' = AtReturn) ->
    snapshotKept idx (successCount (vars b')) (Files (index w')) b' w'.
Proof.
  intros idx c snap b w b' w' (Hidx & _) Hfile Hpers Hend.
  unfold snapshotKept. rewrite Hfile.
  split; [assumption|]. split; [assumption|]. split; [lia|].
  split.
  { pose proof (div10_le (successCount (vars b') - 1)). lia. }
  split; [intros _; apply div10_le|]. split; [reflexivity|exact Hend].
Qed.

Ltac no_return :=
  let H := fresh in
  intros [H|H]; cbn in H; congruence.

(** Every event keeps the snapshot or replaces it by the Index value.
    Writes are taken to succeed; the Index file is neither the pack
    file, nor named like a metadata record, nor the destination of an
    override. *)
Lemma step_keeps :
  forall env remote deps zipFiles files installedProjects idx e b w c snap,
    (forall n, writeFails env n = false) ->
    packFile env <> idx ->
    (forall s, idx <> (s ++ MetaExtension)%string) ->
    (forall name isDir bytes,
        In (name, isDir, bytes) zipFiles ->
        overrideDest env name <> Some idx) ->
    snapshotKept idx c snap b w ->
    let r := step env remote deps zipFiles files installedProjects e b w in
    snapshotKept idx c snap (fst r) (snd r)
    \/ snapshotKept idx (successCount (vars (fst r)))
                    (Files (index (snd r))) (fst r) (snd r).
Proof.
  intros env remote deps zipFiles files installed idx e b w c snap
         Hio Hpack Hmeta Hover Hinv.
  cbv zeta.
  assert (Hidx : indexFile (index w) = idx) by apply Hinv.
  assert (Hpack' : packFile env <> indexFile (index w)) by congruence.
  (* the save routine, whoever runs it *)
  assert (Hsave : forall s (wrap : option SaveAt -> ImportState -> Batch),
             (forall next st', successCount st' = successCount (vars b) ->
                ended (wrap next st') = Some Completed
                \/ ended (wrap next st') = Some Recovered ->
                mainAt (wrap next st') = AtReturn) ->
             (forall next st', successCount st' = successCount (vars b) ->
                vars (wrap next st') = st') ->
             (forall st',
                successCount st' = successCount (vars b) ->
                s = SaveTest ->
                let next := if (0 <? successCount (vars b))%nat
                            then Some SaveIndex else None in
                (saveDue (mainAt (wrap next st')) = false ->
                 saveDue (mainAt b) = false \/ successCount (vars b) = 0)
                /\ (indexSaved (wrap next st') = true -> indexSaved b = true)) ->
             (forall next st',
                successCount st' = successCount (vars b) ->
                s = SaveHash \/ s = SavePack ->
                (saveDue (mainAt (wrap next st')) = false ->
                 saveDue (mainAt b) = false)
                /\ (indexSaved (wrap next st') = true -> indexSaved b = true)) ->
             let r := saveStep env s (vars b) w in
             snapshotKept idx c snap (wrap (fst (fst r)) (snd (fst r))) (snd r)
             \/ snapshotKept idx
                  (successCount (vars (wrap (fst (fst r)) (snd (fst r)))))
                  (Files (index (snd r)))
                  (wrap (fst (fst r)) (snd (fst r))) (snd r)).
  { intros s wrap Hend Hvars Htest Hlate. cbv zeta.
    destruct (saveStep_cases env s (vars b) w Hio Hpack') as (Hi & Hc & Hs).
    cbv zeta in Hi, Hc, Hs.
    destruct (saveStep env s (vars b) w) as [[next st'] w'].
    cbn [fst snd] in *.
    destruct s.
    - destruct Hs as (-> & ->). left.
      destruct (Htest st' Hc eq_refl) as (Hd & Hs). cbv zeta in Hd, Hs.
      apply snapshotKept_quiet with (b := b) (w := w); auto;
        try (now rewrite Hvars).
      intros H. destruct (Hd H) as [H0|H0]; auto.
    - destruct Hs as (-> & Hp). right.
      apply snapshotKept_written with (c := c) (snap := snap) (b := b) (w := w);
        auto; now rewrite Hi.
    - destruct Hs as (-> & Hn). left.
      destruct (Hlate next st' Hc (or_introl eq_refl)) as (Hd & Hs).
      apply snapshotKept_quiet with (b := b) (w := w); auto;
        try (now rewrite Hvars).
    - destruct Hs as (-> & Hp). left.
      destruct (Hlate None st' Hc (or_intror eq_refl)) as (Hd & Hs).
      apply snapshotKept_quiet with (b := b) (w := w); auto;
        try (now rewrite Hi); try (now rewrite Hvars). }
  unfold step.
  destruct (ended b) as [e0|] eqn:Een; [left; exact Hinv|].
  destruct b as [m h st en]. cbn [ended mainAt handlerAt vars] in *. subst en.
  destruct e.
  - (* the main goroutine *)
    unfold mainStep. cbn [mainAt handlerAt vars ended].
    destruct m as [[|[hash versionInfo] rest]|versionInfo side rest|rest|rest
                  |s rest| | | | |s|].
    + left. cbn [fst snd ret].
      apply snapshotKept_quiet with (b := mkBatch (AtRange []) h st None)
                                    (w := w); cbn; auto; try discriminate.
      no_return.
    + left.
      destruct (findFileRef files hash);
        [|cbn [fst snd ret];
          apply snapshotKept_quiet with (2 := eq_refl) (3 := eq_refl)
                                        (1 := Hinv); cbn; auto;
          try discriminate; no_return].
      destruct (projectAlreadyInstalled installed _);
        [cbn [fst snd ret];
         apply snapshotKept_quiet with (2 := eq_refl) (3 := eq_refl)
                                       (1 := Hinv); cbn; auto;
         try discriminate; no_return|].
      rewrite bind_run.
      destruct (preserves_getProjectWithRateLimit remote
                  (HashResponse.ProjectID versionInfo) w) as (Hf & _ & Hi).
      destruct (getProjectWithRateLimit remote _ w) as [[project|err] w0];
        cbn [fst snd ret] in *;
        apply snapshotKept_quiet with (1 := Hinv); cbn;
        try (now rewrite Hi); try (now apply persistedIndex_frame);
        auto; try discriminate; try no_return.
    + left. rewrite bind_run.
      pose proof (install_cases env remote deps (HashResponse.ID versionInfo)
                    side (pack st) w) as H. cbv zeta in H.
      destruct (installVersionByIdWithSide env remote deps _ "" side
                                           (pack st) w) as [err w1].
      cbn [fst snd] in *.
      destruct H as [(Hne & Hfs & Hix) | (He & _ & s & m & f & hh & Hfs & Hix)].
      * destruct err; [|congruence]. cbn [fst snd ret].
        apply snapshotKept_quiet with (1 := Hinv); cbn;
          try (now rewrite Hix); try (now apply persistedIndex_frame);
          auto; try discriminate; no_return.
      * subst err. cbn [fst snd ret].
        apply snapshotKept_quiet with (1 := Hinv); cbn;
          try (now rewrite Hix); auto; try discriminate; try no_return.
        unfold persistedIndex. rewrite Hix, Hfs. cbn [indexFile refreshEntry].
        rewrite get_set_other; [reflexivity|]. rewrite Hidx. apply Hmeta.
    + (* successCount++ *)
      left. cbn [fst snd ret].
      destruct Hinv as (_ & Hp & Hle & HA & HB & HC & HE). cbn in *.
      unfold snapshotKept. cbn.
      split; [assumption|]. split; [assumption|]. split; [lia|].
      split; [|split; [discriminate|split; [discriminate|no_return]]].
      replace (successCount st - 0) with (successCount st) by lia.
      specialize (HB eq_refl). lia.
    + (* if successCount%10 == 0 *)
      left. destruct (successCount st mod 10 =? 0)%nat eqn:Emod;
        cbn [fst snd ret];
        apply snapshotKept_quiet with (1 := Hinv); cbn; auto;
        try discriminate; try no_return.
      intros _. right. left. now apply Nat.eqb_neq.
    + (* the checkpoint *)
      rewrite bind_run.
      pose proof (Hsave s (fun next st' =>
                             mkBatch match next with
                                     | Some s' => InCheckpoint s' rest
                                     | None => AtRange rest
                                     end h st' None)) as H.
      cbv zeta in H. cbn [vars mainAt ended] in H.
      destruct (saveStep env s st w) as [[[s'|] st'] w']; cbn [fst snd ret] in *;
        apply H; auto; try (intros ? ? _; no_return).
      all: try (intros st0 _ ->; cbv zeta;
                destruct (0 <? successCount st)%nat eqn:E0; cbn;
                split; try discriminate; intros _; right;
                apply Nat.ltb_ge in E0; lia).
      all: intros [s0|] st0 _ [-> | ->]; cbn; split; auto; discriminate.
    + (* copyOverrides *)
      left. rewrite bind_run. cbn [fst snd ret].
      apply snapshotKept_quiet with (1 := Hinv); cbn;
        try (now rewrite copyOverrides_index); auto; try discriminate;
        try no_return.
      unfold persistedIndex. rewrite copyOverrides_index.
      rewrite copyOverrides_keeps_path; [reflexivity|].
      rewrite Hidx. exact Hover.
    + (* index.Write *)
      right. rewrite bind_run, Index_Write_run by apply Hio.
      cbn [fst snd ret].
      apply snapshotKept_written with (1 := Hinv); cbn; auto; try no_return.
      unfold persistedIndex. cbn. now rewrite get_set_same.
    + (* pack.UpdateIndexHash *)
      left. rewrite bind_run.
      pose proof (UpdateIndexHash_world env (pack st) w) as Hw.
      destruct (UpdateIndexHash env (pack st) w) as [[pack' [e0|]] w'];
        cbn [fst snd ret] in *; subst w';
        apply snapshotKept_quiet with (1 := Hinv); cbn; auto;
        try discriminate; no_return.
    + (* pack.Write *)
      left. rewrite bind_run, Pack_Write_run by apply Hio.
      cbn [fst snd ret].
      apply snapshotKept_quiet with (1 := Hinv); cbn; auto;
        try discriminate.
      unfold persistedIndex. cbn. now rewrite get_set_other by congruence.
    + (* the deferred function *)
      rewrite bind_run.
      pose proof (Hsave s (fun next st' =>
                             match next with
                             | Some s' => mkBatch (InRecover s') h st' None
                             | None => mkBatch AtReturn h st' (Some Recovered)
                             end)) as H.
      cbv zeta in H.
      destruct (saveStep env s st w) as [[[s'|] st'] w']; cbn [fst snd ret] in *;
        apply H; auto.
      all: try (intros [s0|] st0 _; cbn; auto; no_return).
      all: try (intros [s0|] st0 _; cbn; reflexivity).
      all: try (intros st0 Hc0 ->; cbv zeta;
                destruct (0 <? successCount st)%nat eqn:E0;
                [cbn; split; discriminate|];
                apply Nat.ltb_ge in E0;
                split; [intros _; right; lia|];
                unfold indexSaved; cbn [mainAt ended vars];
                rewrite Hc0; replace (successCount st) with 0 by lia;
                cbn; discriminate).
      all: intros [s0|] st0 _ [-> | ->]; cbn; split; auto; discriminate.
    + left. exact Hinv.
  - (* a signal *)
    left. destruct h; cbn [fst snd ret]; exact Hinv.
  - (* the goroutine that handles signals *)
    unfold handlerStep. cbn [handlerAt vars mainAt].
    destruct h as [|s|]; [left; exact Hinv| |].
    + rewrite bind_run.
      pose proof (Hsave s (fun next st' =>
                             mkBatch m match next with
                                       | Some s' => InHandler s'
                                       | None => AtExit
                                       end st' None)) as H.
      cbv zeta in H. cbn [vars mainAt ended] in H.
      destruct (saveStep env s st w) as [[next st'] w']; cbn [fst snd ret] in *.
      apply H; auto; try (intros ? ? _; no_return).
      * intros st0 H0 _. cbv zeta. split; [auto|].
        unfold indexSaved. cbn [mainAt ended vars]. rewrite H0. auto.
      * intros next0 st0 H0 _. split; [auto|].
        unfold indexSaved. cbn [mainAt ended vars]. rewrite H0. auto.
    + left. cbn [fst snd ret].
      apply snapshotKept_quiet with (1 := Hinv); cbn; auto; no_return.
  - (* a panic *)
    left. destruct m; cbn [fst snd ret];
      apply snapshotKept_quiet with (1 := Hinv); cbn; auto;
      try discriminate; try no_return.
    all: unfold indexSaved; cbn; auto.
Qed.

Lemma run_cons :
  forall env remote deps zipFiles files installedProjects e rest b w,
    run env remote deps zipFiles files installedProjects (e :: rest) b w
    = run env remote deps zipFiles files installedProjects rest
        (fst (step env remote deps zipFiles files installedProjects e b w))
        (snd (step env remote deps zipFiles files installedProjects e b w)).
Proof. intros. cbn [run]. now rewrite bind_run. Qed.


(** Nothing moves once the process has ended. *)
Lemma run_ended :
  forall env remote deps zipFiles files installedProjects schedule b w,
    ended b <> None ->
    run env remote deps zipFiles files installedProjects schedule b w = (b, w).
Proof.
  intros env remote deps zipFiles files installed schedule b w H.
  induction schedule as [|e rest IH]; [reflexivity|].
  rewrite run_cons. unfold step.
  destruct (ended b); [exact IH|congruence].
Qed.

Lemma batchTrace_head :
  forall env remote deps zipFiles files installedProjects schedule b w,
    exists tail,
      batchTrace env remote deps zipFiles files installedProjects schedule b w
      = (b, w) :: tail.
Proof. intros. destruct schedule; cbn [batchTrace]; eauto. Qed.



(** The invariant of a run: the Index file holds the snapshot the run
    began with, or the Index value of one of the states the run went
    through. *)
Lemma run_snapshot :
  forall env remote deps zipFiles files installedProjects idx schedule b w
         c snap,
    (forall n, writeFails env n = false) ->
    packFile env <> idx ->
    (forall s, idx <> (s ++ MetaExtension)%string) ->
    (forall name isDir bytes,
        In (name, isDir, bytes) zipFiles ->
        overrideDest env name <> Some idx) ->
    snapshotKept idx c snap b w ->
    let r := run env remote deps zipFiles files installedProjects schedule
                 b w in
    exists c' snap',
      snapshotKept idx c' snap' (fst r) (snd r)
      /\ ((c' = c /\ snap' = snap)
          \/ exists before bj wj after,
               batchTrace env remote deps zipFiles files installedProjects
                          schedule b w
               = (before ++ (bj, wj) :: after)%list
               /\ snap' = Files (index wj)
               /\ c' = successCount (vars bj)).
Proof.
  intros env remote deps zipFiles files installed idx schedule.
  induction schedule as [|e rest IH];
    intros b w c snap Hio Hpack Hmeta Hover Hinv; cbv zeta.
  - cbn. exists c, snap. auto.
  - rewrite run_cons. cbn [batchTrace].
    pose proof (step_keeps env remote deps zipFiles files installed idx e b w
                  c snap Hio Hpack Hmeta Hover Hinv) as Hstep.
    cbv zeta in Hstep.
    set (b1 := fst (step env remote deps zipFiles files installed e b w)) in *.
    set (w1 := snd (step env remote deps zipFiles files installed e b w)) in *.
    destruct Hstep as [H1|H1].
    + destruct (IH b1 w1 c snap Hio Hpack Hmeta Hover H1)
        as (c' & snap' & Hk & Hor).
      exists c', snap'. split; [exact Hk|].
      destruct Hor as [Hsame | (before & bj & wj & after & E & Hs & Hc)];
        [left; exact Hsame|].
      right. exists ((b, w) :: before), bj, wj, after.
      rewrite E. auto.
    + destruct (IH b1 w1 _ _ Hio Hpack Hmeta Hover H1)
        as (c' & snap' & Hk & Hor).
      exists c', snap'. split; [exact Hk|]. right.
      destruct Hor as [(-> & ->) | (before & bj & wj & after & E & Hs & Hc)].
      * destruct (batchTrace_head env remote deps zipFiles files installed
                    rest b1 w1) as (tail & E).
        exists [(b, w)], b1, w1, tail. rewrite E. auto.
      * exists ((b, w) :: before), bj, wj, after. rewrite E. auto.
Qed.

(** The snapshot at the end of a batch that starts with an Index file
    that holds the Index value. *)
Lemma run_persisted_snapshot :
  forall env remote deps zipFiles files installedProjects schedule b w,
    (forall n, writeFails env n = false) ->
    packFile env <> indexFile (index w) ->
    (forall s, indexFile (index w) <> (s ++ MetaExtension)%string) ->
    (forall name isDir bytes,
        In (name, isDir, bytes) zipFiles ->
        overrideDest env name <> Some (indexFile (index w))) ->
    persistedIndex w = Some (Files (index w)) ->
    successCount (vars b) = 0 ->
    (ended b = Some Completed \/ ended b = Some Recovered ->
     mainAt b = AtReturn) ->
    let r := run env remote deps zipFiles files installedProjects schedule
                 b w in
    exists before bj wj after,
      batchTrace env remote deps zipFiles files installedProjects schedule b w
      = (before ++ (bj, wj) :: after)%list
      /\ snapshotKept (indexFile (index w)) (successCount (vars bj))
                      (Files (index wj)) (fst r) (snd r).
Proof.
  intros env remote deps zipFiles files installed schedule b w
         Hio Hpack Hmeta Hover Hsync H0 Hend. cbv zeta.
  assert (Hinv : snapshotKept (indexFile (index w)) 0 (Files (index w)) b w).
  { unfold snapshotKept. rewrite H0. cbn.
    repeat split; auto; lia. }
  destruct (run_snapshot env remote deps zipFiles files installed
              (indexFile (index w)) schedule b w 0 (Files (index w))
              Hio Hpack Hmeta Hover Hinv) as (c' & snap' & Hk & Hor).
  cbv zeta in Hk.
  destruct Hor as [(-> & ->) | (before & bj & wj & after & E & -> & ->)].
  - destruct (batchTrace_head env remote deps zipFiles files installed
                schedule b w) as (tail & E).
    exists [], b, w, tail. rewrite E, H0. auto.
  - exists before, bj, wj, after. auto.
Qed.





Lemma run25_persisted :
  successCount (vars (fst run25)) = 23
  /\ length (Files (index (snd run25))) = 23
  /\ option_map (fun files => keys files) (persistedIndex (snd run25))
     = Some (map (fun n => "mods/p" ++ ToLower (letter n) ++ ".pw.toml")
                 (seq 0 20)).
Proof. vm_compute. repeat split. Qed.





(** ** The batch that nothing interrupts *)

Lemma run_Main :
  forall env remote deps zipFiles files installedProjects n b w,
    run env remote deps zipFiles files installedProjects (repeat Main (S n))
        b w
    = run env remote deps zipFiles files installedProjects (repeat Main n)
        (fst (step env remote deps zipFiles files installedProjects Main b w))
        (snd (step env remote deps zipFiles files installedProjects Main b w)).
Proof. intros. cbn [repeat]. apply run_cons. Qed.

Ltac main_step :=
  cbn [Nat.add]; rewrite run_Main; unfold step, mainStep;
  cbn [ended mainAt handlerAt vars pack successCount skippedCount
       processedCount];
  rewrite ?bind_run.

(** When nothing interrupts it, the main goroutine gets through one
    iteration of the loop in at most eight statements, and they do what
    [importStep] does. *)
Lemma iteration_steps :
  forall env remote deps zipFiles files installedProjects item rest h st w,
    exists k,
      k <= 8
      /\ forall n,
           run env remote deps zipFiles files installedProjects
               (repeat Main (k + n))
               (mkBatch (AtRange (item :: rest)) h st None) w
           = run env remote deps zipFiles files installedProjects
                 (repeat Main n)
                 (mkBatch (AtRange rest) h
                    (fst (importStep env remote deps files installedProjects
                                     item st w))
                    None)
                 (snd (importStep env remote deps files installedProjects
                                  item st w)).
Proof.
  intros env remote deps zipFiles files installed [hash versionInfo] rest h
         st w.
  unfold importStep.
  cbn [pack successCount skippedCount processedCount].
  destruct (findFileRef files hash) as [fileRef|] eqn:Ef.
  2:{ exists 1. split; [lia|]. intros n. main_step. rewrite Ef. reflexivity. }
  destruct (projectAlreadyInstalled installed
              (HashResponse.ProjectID versionInfo)) eqn:Ea.
  { exists 1. split; [lia|]. intros n. main_step. rewrite Ef, Ea.
    reflexivity. }
  rewrite !bind_run.
  destruct (getProjectWithRateLimit remote
              (HashResponse.ProjectID versionInfo) w) as [[project|e] w0]
    eqn:Ep; cbn [fst snd].
  2:{ exists 1. split; [lia|]. intros n. main_step. rewrite Ef, Ea.
      rewrite bind_run, Ep. reflexivity. }
  rewrite !bind_run.
  set (side := if String.eqb (getSide deps project) "" then UniversalSide
               else getSide deps project).
  destruct (installVersionByIdWithSide env remote deps
              (HashResponse.ID versionInfo) "" side (pack st) w0)
    as [[e|] w1] eqn:Ei; cbn [fst snd].
  { exists 2. split; [lia|]. intros n. main_step. rewrite Ef, Ea.
    rewrite bind_run, Ep. cbn [fst snd ret]. main_step. fold side.
    rewrite Ei. reflexivity. }
  assert (Start : forall n,
             run env remote deps zipFiles files installed
                 (repeat Main (4 + n))
                 (mkBatch (AtRange ((hash, versionInfo) :: rest)) h st None) w
             = run env remote deps zipFiles files installed (repeat Main n)
                 (mkBatch (if (S (successCount st) mod 10 =? 0)%nat
                           then InCheckpoint SaveTest rest
                           else AtRange rest) h
                          (mkImportState (pack st) (S (successCount st))
                             (skippedCount st) (S (processedCount st)))
                          None) w1).
  { intros n. main_step. rewrite Ef, Ea.
    rewrite bind_run, Ep. cbn [fst snd ret]. main_step. fold side.
    rewrite Ei. cbn [fst snd ret]. main_step. cbn [fst snd ret].
    main_step. destruct (_ =? 0)%nat; reflexivity. }
  destruct (S (successCount st) mod 10 =? 0)%nat eqn:Emod.
  2:{ exists 4. split; [lia|]. intros n. rewrite Start. reflexivity. }
  set (st1 := mkImportState (pack st) (S (successCount st)) (skippedCount st)
                            (S (processedCount st))) in *.
  unfold saveProgress. cbn [successCount st1 Nat.ltb Nat.leb].
  rewrite !bind_run.
  destruct (Index_Write env w1) as [[e|] w2] eqn:Ew; cbn [fst snd ret].
  { exists 6. split; [lia|]. intros n.
    change (6 + n) with (4 + (2 + n)). rewrite Start.
    main_step. cbn [saveStep successCount st1 Nat.ltb Nat.leb fst snd ret].
    main_step. cbn [saveStep]. rewrite bind_run, Ew. reflexivity. }
  rewrite !bind_run.
  destruct (UpdateIndexHash env (pack st) w2) as [[pack' [e|]] w3] eqn:Eh;
    cbn [fst snd ret].
  { exists 7. split; [lia|]. intros n.
    change (7 + n) with (4 + (3 + n)). rewrite Start.
    main_step. cbn [saveStep successCount st1 Nat.ltb Nat.leb fst snd ret].
    main_step. cbn [saveStep]. rewrite bind_run, Ew. cbn [fst snd ret].
    main_step. cbn [saveStep pack st1]. rewrite bind_run, Eh. reflexivity. }
  exists 8. split; [lia|]. intros n.
  change (8 + n) with (4 + (4 + n)). rewrite Start.
  main_step. cbn [saveStep successCount st1 Nat.ltb Nat.leb fst snd ret].
  main_step. cbn [saveStep]. rewrite bind_run, Ew. cbn [fst snd ret].
  main_step. cbn [saveStep pack st1]. rewrite bind_run, Eh.
  cbn [fst snd ret].
  main_step. cbn [saveStep pack setPack]. rewrite !bind_run.
  reflexivity.
Qed.

Lemma loop_steps :
  forall env remote deps zipFiles files installedProjects versionMap h st w,
    exists k,
      k <= 8 * length versionMap
      /\ forall n,
           run env remote deps zipFiles files installedProjects
               (repeat Main (k + n))
               (mkBatch (AtRange versionMap) h st None) w
           = run env remote deps zipFiles files installedProjects
                 (repeat Main n)
                 (mkBatch (AtRange []) h
                    (fst (importLoop env remote deps files installedProjects
                                     versionMap st w))
                    None)
                 (snd (importLoop env remote deps files installedProjects
                                  versionMap st w)).
Proof.
  intros env remote deps zipFiles files installed vm h.
  induction vm as [|item rest IH]; intros st w.
  - exists 0. split; [cbn; lia|]. intros n. reflexivity.
  - destruct (iteration_steps env remote deps zipFiles files installed item
                rest h st w) as (k1 & Hk1 & E1).
    destruct (IH (fst (importStep env remote deps files installed item st w))
                 (snd (importStep env remote deps files installed item st w)))
      as (k2 & Hk2 & E2).
    exists (k1 + k2). split; [cbn [length]; lia|]. intros n.
    rewrite <- Nat.add_assoc, E1, E2, importLoop_cons. reflexivity.
Qed.

(** After the loop, when nothing interrupts it, five statements do what
    [finish] does. *)
Lemma finish_steps :
  forall env remote deps zipFiles files installedProjects h st w n,
    let r := run env remote deps zipFiles files installedProjects
                 (repeat Main (5 + n))
                 (mkBatch (AtRange []) h st None) w in
    ended (fst r) = Some (fst (fst (finish env zipFiles st w)))
    /\ vars (fst r) = snd (fst (finish env zipFiles st w))
    /\ snd r = snd (finish env zipFiles st w).
Proof.
  intros env remote deps zipFiles files installed h st w n. cbv zeta.
  unfold finish. rewrite !bind_run.
  main_step. cbn [fst snd ret]. main_step. cbn [fst snd ret].
  set (w1 := snd (copyOverrides env zipFiles w)).
  main_step.
  destruct (Index_Write env w1) as [[e|] w2] eqn:Ew; cbn [fst snd ret].
  { rewrite run_ended by (cbn; discriminate). cbn. auto. }
  rewrite !bind_run. main_step.
  destruct (UpdateIndexHash env (pack st) w2) as [[pack' [e|]] w3] eqn:Eh;
    cbn [fst snd ret].
  { rewrite run_ended by (cbn; discriminate). cbn. auto. }
  rewrite !bind_run. main_step. cbn [pack setPack].
  destruct (Pack_Write env pack' w3) as [[e|] w4] eqn:Epw; cbn [fst snd ret];
    rewrite run_ended by (cbn; discriminate); cbn; auto.
Qed.

(** The batch that nothing interrupts is the loop followed by the end
    of the command: a schedule that lets the main goroutine execute
    eight statements for each artifact and five more brings it to its
    end. *)
Lemma importBatch_uninterrupted :
  forall env remote deps zipFiles files installedProjects versionMap st w n,
    8 * length versionMap + 5 <= n ->
    importBatch env remote deps zipFiles files installedProjects versionMap
                (repeat Main n) st w
    = finish env zipFiles
        (fst (importLoop env remote deps files installedProjects versionMap
                         st w))
        (snd (importLoop env remote deps files installedProjects versionMap
                         st w)).
Proof.
  intros env remote deps zipFiles files installed vm st w n Hn.
  destruct (loop_steps env remote deps zipFiles files installed vm Waiting
              st w) as (k & Hk & E).
  unfold importBatch. rewrite bind_run.
  replace n with (k + (5 + (n - k - 5))) by lia. rewrite E.
  destruct (finish_steps env remote deps zipFiles files installed Waiting
              (fst (importLoop env remote deps files installed vm st w))
              (snd (importLoop env remote deps files installed vm st w))
              (n - k - 5)) as (He & Hv & Hw).
  cbv zeta in He, Hv, Hw. cbn [ret]. rewrite He, Hv, Hw.
  now destruct (finish _ _ _ _) as [[e st'] w'].
Qed.

(** ** The import command as a whole *)

Lemma preserves_installedProjectIDs :
  forall env entries acc, preserves (installedProjectIDs env entries acc).
Proof.
  intros env entries. induction entries as [|[fileName e] rest IH];
    intros acc; cbn [installedProjectIDs]; [frame|].
  destruct (IsMetaFile e); [|apply IH].
  apply preserves_bind; [auto with frame|]. intros [m|err]; [|apply IH].
  destruct (GetParsedUpdateData m "modrinth") as [[pid v|raw]|]; apply IH.
Qed.

Lemma preserves_getInstalledProjectIDs :
  forall env, preserves (getInstalledProjectIDs env).
Proof.
  intros env. unfold getInstalledProjectIDs.
  apply preserves_bind; [auto with frame|]. intros i.
  apply preserves_installedProjectIDs.
Qed.

Lemma preserves_lookupVersionsByHash :
  forall remote hashes, preserves (lookupVersionsByHash remote hashes).
Proof. intros. unfold lookupVersionsByHash. auto with frame. Qed.

(** [importCmd] either ends before the batch, having written nothing, or
    runs the batch from a state in which the Index value is the one
    just loaded from the Index file. *)
Lemma importCmd_batch :
  forall env remote deps mrpackFilePath schedule w,
    let r := importCmd env remote deps mrpackFilePath schedule w in
    (snd (fst r) = None /\ fs (snd r) = fs w /\ writes (snd r) = writes w)
    \/ exists zipFiles pack files manifest versionMap installedProjects w1,
         get (fs w) mrpackFilePath = Some (FZip zipFiles)
         /\ get (fs w) (packFile env) = Some (FPack pack)
         /\ get (fs w) (indexLocation env pack) = Some (FIndex files)
         /\ extractModrinthIndex deps zipFiles = Ok manifest
         /\ fs w1 = fs w /\ writes w1 = writes w
         /\ index w1 = mkIndex (indexLocation env pack) files
         /\ persistedIndex w1 = Some (Files (index w1))
         /\ exists st,
              snd (fst r) = Some st
              /\ importBatch env remote deps zipFiles
                   (ModrinthIndexFile.Files manifest) installedProjects
                   versionMap schedule (mkImportState pack 0 0 0) w1
                 = (fst (fst r), st, snd r).
Proof.
  intros env remote deps path schedule w. cbv zeta.
  destruct (importCmd env remote deps path schedule w) as [[e ost] w'] eqn:E.
  cbn [fst snd]. unfold importCmd in E.
  rewrite bind_run in E. unfold readFile in E. cbn [fst snd] in E.
  destruct (get (fs w) path) as [[| | | |zipFiles|]|] eqn:Ez;
    try (inversion E; subst; left; auto; fail).
  rewrite bind_run, LoadPack_run in E. cbn [fst snd] in E.
  destruct (get (fs w) (packFile env)) as [[|pack| | | |]|] eqn:Ep;
    try (inversion E; subst; left; auto; fail).
  rewrite bind_run, LoadIndex_run in E. cbn [fst snd] in E.
  destruct (get (fs w) (indexLocation env pack)) as [[files| | | | |]|] eqn:Ei;
    try (inversion E; subst; left; auto; fail).
  rewrite bind_run in E. unfold putIndex in E. cbn [fst snd] in E.
  destruct (extractModrinthIndex deps zipFiles) as [manifest|err] eqn:Em;
    [|inversion E; subst; left; auto].
  set (w0 := with_index w (mkIndex (indexLocation env pack) files)) in *.
  destruct (sha512Hashes (ModrinthIndexFile.Files manifest)) as [|h hs] eqn:Eh;
    [inversion E; subst; left; auto|].
  rewrite bind_run in E.
  destruct (preserves_lookupVersionsByHash remote (h :: hs) w0)
    as (L1 & L2 & L3).
  destruct (lookupVersionsByHash remote (h :: hs) w0) as [[versionMap|err] wa];
    cbn [fst snd] in *; [|inversion E; subst; left; auto].
  rewrite bind_run in E.
  destruct (preserves_getInstalledProjectIDs env wa) as (G1 & G2 & G3).
  destruct (getInstalledProjectIDs env wa) as [installed w1].
  cbn [fst snd] in *.
  rewrite bind_run in E.
  destruct (importBatch env remote deps zipFiles
              (ModrinthIndexFile.Files manifest) installed versionMap schedule
              (mkImportState pack 0 0 0) w1) as [[e1 st1] w2] eqn:Eb.
  cbn [fst snd ret] in E. inversion E; subst. right.
  exists zipFiles, pack, files, manifest, versionMap, installed, w1.
  assert (Hix : index w1 = mkIndex (indexLocation env pack) files)
    by (rewrite G3, L3; reflexivity).
  assert (Hfs : fs w1 = fs w) by (rewrite G1, L1; reflexivity).
  repeat split; auto.
  - rewrite G2, L2. reflexivity.
  - unfold persistedIndex. rewrite Hix, Hfs. cbn. now rewrite Ei.
  - exists st1. auto.
Qed.

(** The bound of the checkpoints, for the command: if [importCmd] gets
    to the batch, then at whatever moment the process ends, with N
    artifacts counted as installed, the Index file holds the Index value
    of a state the batch went through, in which at least
    10 * floor((N-1)/10) of them were counted. *)
Lemma importCmd_checkpoint_bound :
  forall env remote deps mrpackFilePath schedule w st,
    (forall n, writeFails env n = false) ->
    (forall pack, packFile env <> indexLocation env pack) ->
    (forall pack s, indexLocation env pack <> (s ++ MetaExtension)%string) ->
    (forall zipFiles pack name isDir bytes,
        get (fs w) mrpackFilePath = Some (FZip zipFiles) ->
        In (name, isDir, bytes) zipFiles ->
        overrideDest env name <> Some (indexLocation env pack)) ->
    let r := importCmd env remote deps mrpackFilePath schedule w in
    snd (fst r) = Some st ->
    exists zipFiles files installedProjects versionMap pack w1
           before bj wj after,
      batchTrace env remote deps zipFiles files installedProjects schedule
                 (batchStart versionMap pack) w1
      = (before ++ (bj, wj) :: after)%list
      /\ persistedIndex (snd r) = Some (Files (index wj))
      /\ 10 * ((successCount st - 1) / 10) <= successCount (vars bj)
         <= successCount st.
Proof.
  intros env remote deps path schedule w st Hio Hpack Hmeta Hover r Hst.
  destruct (importCmd_batch env remote deps path schedule w)
    as [(Hnone & _) | (zipFiles & pack & files & manifest & vm & installed
                       & w1 & Hz & _ & _ & _ & _ & _ & Hix & Hsync
                       & st' & Hst' & Hb)].
  { fold r in Hnone. congruence. }
  fold r in Hst', Hb. rewrite Hst in Hst'. inversion Hst'; subst st'.
  assert (Hpack1 : packFile env <> indexFile (index w1))
    by (rewrite Hix; apply Hpack).
  assert (Hmeta1 : forall s, indexFile (index w1) <> (s ++ MetaExtension)%string)
    by (intros s; rewrite Hix; apply Hmeta).
  assert (Hover1 : forall name isDir bytes,
             In (name, isDir, bytes) zipFiles ->
             overrideDest env name <> Some (indexFile (index w1))).
  { intros name isDir bytes Hin. rewrite Hix. cbn [indexFile].
    exact (Hover zipFiles pack name isDir bytes Hz Hin). }
  destruct (run_persisted_snapshot env remote deps zipFiles
              (ModrinthIndexFile.Files manifest) installed schedule
              (batchStart vm pack) w1 Hio Hpack1 Hmeta1 Hover1 Hsync eq_refl)
    as (before & bj & wj & after & E & Hk).
  { intros [H|H]; discriminate. }
  unfold importBatch in Hb. rewrite bind_run in Hb. cbn [ret] in Hb.
  fold (batchStart vm pack) in Hb.
  cbv zeta in Hk.
  destruct (run env remote deps zipFiles (ModrinthIndexFile.Files manifest)
                installed schedule (batchStart vm pack) w1) as [b' w'].
  cbn [fst snd] in Hb, Hk. unfold ret in Hb.
  injection Hb as He Hv Hw. rewrite <- Hw, <- Hv.
  destruct Hk as (_ & Hp & Hle & HA & _).
  exists zipFiles, (ModrinthIndexFile.Files manifest), installed, vm, pack, w1,
         before, bj, wj, after.
  split; [exact E|]. split; [exact Hp|]. lia.
Qed.

(** A write of the Index that fails at a checkpoint is only reported:
    the loop goes on, and if the process dies before the next
    checkpoint the persisted Index lacks the entries of the installed
    artifacts.  This is why the bound is stated for writes that
    succeed. *)
Lemma checkpoint_lost_when_write_fails :
  let r := run flakyEnv sampleRemote sampleDeps [] files25 []
               (repeat Main 62)
               (batchStart (sampleVersionMap 25) samplePack) sampleWorld in
  successCount (vars (fst r)) = 15
  /\ length (Files (index (snd r))) = 15
  /\ persistedIndex (snd r) = Some [].
Proof. vm_compute. repeat split. Qed.

(** ** [diff]: what the order of a [range] can change *)

(** A bundle with two files that resolve to two versions of one
    project: the version that [diff] reports for the project is the one
    that the range over the lookup's answer yields last. *)
Lemma mrpackMods_range_order :
  mrpackModsOf sampleDeps twoFiles twoVersionsOfPA [projectPA]
  = [("PA", ModInfo.mk "PA" "VA2" "Mod PA" "mods/B.jar" "both")]
  /\ mrpackModsOf sampleDeps twoFiles (rev twoVersionsOfPA) [projectPA]
     = [("PA", ModInfo.mk "PA" "VA" "Mod PA" "mods/A.jar" "both")].
Proof. vm_compute. split; reflexivity. Qed.

Lemma get_In :
  forall (V : Type) (m : gomap V) k v,
    NoDup (keys m) -> In (k, v) m -> get m k = Some v.
Proof.
  intros V m k v Hnd Hin. induction m as [|[k' v'] m IH]; [inversion Hin|].
  cbn in Hnd. inversion Hnd as [|? ? Hnotin Hnd']; subst.
  cbn. destruct Hin as [E|Hin].
  - inversion E; subst. now rewrite String.eqb_refl.
  - destruct (String.eqb_spec k k') as [->|_]; [|auto].
    exfalso. apply Hnotin. unfold keys.
    change k' with (fst (k', v)). now apply in_map.
Qed.

Lemma get_Some_In :
  forall (V : Type) (m : gomap V) k v, get m k = Some v -> In (k, v) m.
Proof.
  intros V m k v. induction m as [|[k' v'] m IH]; cbn; [discriminate|].
  destruct (String.eqb_spec k k') as [->|_].
  - intros E; inversion E; auto.
  - auto.
Qed.

(** Two lists of entries without repeated keys that are rearrangements
    of each other are the same map. *)
Lemma get_perm :
  forall (V : Type) (m m' : gomap V) k,
    NoDup (keys m) -> Permutation m m' -> get m k = get m' k.
Proof.
  intros V m m' k Hnd Hperm.
  assert (Hnd' : NoDup (keys m')).
  { unfold keys. eapply Permutation_NoDup; [|exact Hnd].
    now apply Permutation_map. }
  destruct (get m k) as [v|] eqn:E.
  - symmetry. apply get_In; [exact Hnd'|].
    eapply Permutation_in; [exact Hperm|]. now apply get_Some_In.
  - destruct (get m' k) as [v'|] eqn:E'; [|reflexivity].
    apply get_Some_In in E'.
    apply (Permutation_in _ (Permutation_sym Hperm)) in E'.
    apply (get_In _ _ _ _ Hnd) in E'. congruence.
Qed.

Lemma flat_map_pointwise :
  forall (A B : Type) (f g : A -> list B) l,
    (forall a, f a = g a) -> flat_map f l = flat_map g l.
Proof.
  intros A B f g l H. induction l as [|a l IH]; cbn; [reflexivity|].
  now rewrite H, IH.
Qed.

Lemma nameLe_antisym :
  forall a b, nameLe a b -> nameLe b a ->
              ModInfo.ProjectName a = ModInfo.ProjectName b.
Proof.
  unfold nameLe, Compare. intros a b H1 H2.
  apply String.compare_eq_iff.
  rewrite String.compare_antisym in H2.
  destruct (String.compare (ModInfo.ProjectName a) (ModInfo.ProjectName b));
    cbn in *; congruence.
Qed.

Lemma distinctNames_inj :
  forall l a b,
    distinctNames l -> In a l -> In b l ->
    ModInfo.ProjectName a = ModInfo.ProjectName b -> a = b.
Proof.
  unfold distinctNames. intros l. induction l as [|x l IH];
    intros a b Hnd Ha Hb E; [inversion Ha|].
  cbn in Hnd. inversion Hnd as [|? ? Hnotin Hnd']; subst.
  destruct Ha as [->|Ha], Hb as [->|Hb]; auto.
  - exfalso. apply Hnotin. rewrite E. now apply in_map.
  - exfalso. apply Hnotin. rewrite <- E. now apply in_map.
Qed.

(** A list with pairwise different names has one sorted arrangement. *)
Lemma sorted_unique :
  forall l1 l2,
    StronglySorted nameLe l1 -> StronglySorted nameLe l2 ->
    Permutation l1 l2 -> distinctNames l1 -> l1 = l2.
Proof.
  induction l1 as [|a l1 IH]; intros l2 S1 S2 Hperm Hd.
  - apply Permutation_nil in Hperm. now subst.
  - destruct l2 as [|b l2].
    { apply Permutation_sym, Permutation_nil in Hperm. discriminate. }
    inversion S1 as [|? ? S1' F1]; subst.
    inversion S2 as [|? ? S2' F2]; subst.
    assert (Hab : a = b).
    { assert (Hb : In b (a :: l1))
        by (eapply Permutation_in; [apply Permutation_sym; exact Hperm|];
            now left).
      assert (Ha : In a (b :: l2))
        by (eapply Permutation_in; [exact Hperm|]; now left).
      destruct Hb as [E|Hb]; [exact E|].
      destruct Ha as [E|Ha]; [now symmetry|].
      rewrite Forall_forall in F1, F2.
      apply (distinctNames_inj (a :: l1)); auto; [now left|now right|].
      apply nameLe_antisym; auto. }
    subst b. f_equal.
    apply IH; auto.
    + now apply Permutation_cons_inv in Hperm.
    + unfold distinctNames in *. cbn in Hd. now inversion Hd.
Qed.

Lemma sortByName_perm_eq :
  forall l l',
    Permutation l l' -> distinctNames l -> sortByName l = sortByName l'.
Proof.
  intros l l' Hperm Hd.
  apply sorted_unique; try apply sortByName_sorted.
  - rewrite <- (sortByName_perm l), <- (sortByName_perm l'). exact Hperm.
  - unfold distinctNames in *.
    eapply Permutation_NoDup; [|exact Hd].
    apply Permutation_map, sortByName_perm.
Qed.

Lemma select_names_sub :
  forall f (m : gomap ModInfo.t) n,
    selects f ->
    In n (map ModInfo.ProjectName (flat_map f m)) ->
    In n (map ModInfo.ProjectName (map snd m)).
Proof.
  intros f m n Hf. induction m as [|kv m IH]; cbn; [auto|]. intros Hn.
  rewrite map_app, in_app_iff in Hn. destruct Hn as [Hn|Hn]; [|auto].
  destruct (Hf kv) as [E | (x & E & Ex)]; rewrite E in Hn; cbn in Hn.
  - destruct Hn.
  - destruct Hn as [<-|[]]. now left.
Qed.

Lemma distinctNames_select :
  forall f (m : gomap ModInfo.t),
    selects f -> distinctNames (map snd m) -> distinctNames (flat_map f m).
Proof.
  unfold distinctNames. intros f m Hf.
  induction m as [|kv m IH]; cbn; intros Hd; [constructor|].
  inversion Hd as [|? ? Hnotin Hd']; subst.
  destruct (Hf kv) as [E | (x & E & Ex)]; rewrite E; cbn.
  - now apply IH.
  - constructor; [|now apply IH].
    rewrite Ex. intros Hin. apply Hnotin.
    now apply (select_names_sub f).
Qed.

(** X3: when the display names of the pack's mods are pairwise different
    and so are those of the bundle's mods, the three lists do not depend
    on the orders in which the two maps are ranged over. *)
Lemma compareMods_order_independent :
  forall current current' mrpack mrpack',
    NoDup (keys current) ->
    NoDup (keys mrpack) ->
    Permutation current current' ->
    Permutation mrpack mrpack' ->
    distinctNames (map snd current) ->
    distinctNames (map snd mrpack) ->
    compareMods current mrpack = compareMods current' mrpack'.
Proof.
  intros current current' mrpack mrpack' Nc Nm Pc Pm Dc Dm.
  assert (Gc : forall k, get current' k = get current k)
    by (intros k; symmetry; now apply get_perm).
  assert (Gm : forall k, get mrpack' k = get mrpack k)
    by (intros k; symmetry; now apply get_perm).
  assert (Hc : forall k, has current' k = has current k)
    by (intros k; unfold has; now rewrite Gc).
  assert (Hm : forall k, has mrpack' k = has mrpack k)
    by (intros k; unfold has; now rewrite Gm).
  unfold compareMods. f_equal; [f_equal|].
  - rewrite (flat_map_pointwise _ _
               (fun kv : string * ModInfo.t =>
                  if has current' (fst kv) then [] else [snd kv])
               (fun kv => if has current (fst kv) then [] else [snd kv]))
      by (intros kv; now rewrite Hc).
    apply sortByName_perm_eq; [now apply Permutation_flat_map|].
    apply distinctNames_select; [|exact Dm].
    intros kv. destruct (has current (fst kv)); eauto.
  - rewrite (flat_map_pointwise _ _
               (fun kv : string * ModInfo.t =>
                  if has mrpack' (fst kv) then [] else [snd kv])
               (fun kv => if has mrpack (fst kv) then [] else [snd kv]))
      by (intros kv; now rewrite Hm).
    apply sortByName_perm_eq; [now apply Permutation_flat_map|].
    apply distinctNames_select; [|exact Dc].
    intros kv. destruct (has mrpack (fst kv)); eauto.
  - match goal with
    | |- sortByName (flat_map ?f current) = sortByName (flat_map ?g current') =>
        rewrite (flat_map_pointwise _ _ g f)
          by (intros [k v]; now rewrite Gm)
    end.
    apply sortByName_perm_eq; [now apply Permutation_flat_map|].
    apply distinctNames_select; [|exact Dc].
    intros [k v]. destruct (get mrpack k) as [mm|]; [|auto].
    destruct (negb _); [right|auto]. eexists. split; reflexivity.
Qed.

(** The bundle lists Sodium and Lithium, the pack has none of them:
    both orders of the bundle's map give the same lists. *)
Lemma compareMods_order_independent_witness :
  compareMods [] [("AANobbMI", sodium); ("gvQqBUqZ", lithium)]
  = compareMods [] [("gvQqBUqZ", lithium); ("AANobbMI", sodium)].
Proof.
  apply (compareMods_order_independent
           [] [] [("AANobbMI", sodium); ("gvQqBUqZ", lithium)]
           [("gvQqBUqZ", lithium); ("AANobbMI", sodium)]).
  - constructor.
  - repeat constructor; cbn; intuition discriminate.
  - constructor.
  - apply perm_swap.
  - constructor.
  - repeat constructor; cbn; intuition discriminate.
Defined.

(* ------------------------------------------------------------------ *)
(** ** Further properties of the code *)
(* ------------------------------------------------------------------ *)

Import Regexp.

Lemma existsb_eqb_In :
  forall (x : string) l, existsb (String.eqb x) l = true <-> In x l.
Proof.
  intros x l. rewrite existsb_exists. split.
  - intros (y & Hy & E). apply String.eqb_eq in E. now subst.
  - intros H. exists x. split; [exact H|apply String.eqb_refl].
Qed.

Lemma trim_right_idempotent : forall s, trim_right (trim_right s) = trim_right s.
Proof.
  induction s as [|c s IH]; [reflexivity|].
  cbn [trim_right]. destruct (trim_right s) as [|d t] eqn:E.
  - destruct (is_space c) eqn:Ec; [reflexivity|].
    cbn [trim_right]. now rewrite Ec.
  - change (trim_right (String c (String d t))) with
      (match trim_right (String d t) with
       | EmptyString => if is_space c then EmptyString else String c EmptyString
       | u => String c u end).
    now rewrite IH.
Qed.

Lemma trim_left_head :
  forall s, trim_left s = "" \/ exists c t, trim_left s = String c t /\ is_space c = false.
Proof.
  induction s as [|c s IH]; [now left|].
  cbn [trim_left]. destruct (is_space c) eqn:Ec; [exact IH|].
  right. now exists c, s.
Qed.

Lemma trim_left_trim_right :
  forall c t, is_space c = false ->
    trim_left (trim_right (String c t)) = trim_right (String c t).
Proof.
  intros c t Hc. cbn [trim_right].
  destruct (trim_right t); rewrite ?Hc; cbn [trim_left]; now rewrite Hc.
Qed.

Lemma TrimSpace_idempotent : forall s, TrimSpace (TrimSpace s) = TrimSpace s.
Proof.
  intros s. unfold TrimSpace.
  destruct (trim_left_head s) as [E | (c & t & E & Hc)]; rewrite E.
  - reflexivity.
  - rewrite (trim_left_trim_right c t Hc). apply trim_right_idempotent.
Qed.

Lemma NormalizeSide_TrimSpace : forall s, NormalizeSide s = TrimSpace s.
Proof.
  intros s. unfold NormalizeSide, UniversalSide.
  destruct (String.eqb_spec (TrimSpace s) "both") as [E|E]; [now rewrite E|reflexivity].
Qed.

Lemma ValidateSide_None_inv :
  forall side,
    ValidateSide side = None ->
    side = ClientSide \/ side = ServerSide \/ side = UniversalSide.
Proof.
  intros side. unfold ValidateSide.
  destruct (String.eqb side ""); [discriminate|].
  destruct (existsb (String.eqb side) [ClientSide; ServerSide; UniversalSide; "both"]) eqn:Ex;
    [intros _|discriminate].
  apply existsb_eqb_In in Ex.
  destruct Ex as [E|[E|[E|[E|[]]]]]; subst side;
    [left|right; left|right; right|right; right]; reflexivity.
Qed.

(** X4: [ValidateSide] accepts exactly the three sides "client", "server"
    and "both" (not the empty side, and nothing in another case or with
    white space around it); [NormalizeSide] leaves each of the three as
    it is, and normalizing twice is the same as normalizing once. *)
Theorem ValidateSide_accepts :
  forall side,
    (ValidateSide side = None
     <-> side = ClientSide \/ side = ServerSide \/ side = UniversalSide)
    /\ (ValidateSide side = None -> NormalizeSide side = side)
    /\ NormalizeSide (NormalizeSide side) = NormalizeSide side.
Proof.
  intros side. split; [split|split].
  - apply ValidateSide_None_inv.
  - intros [H|[H|H]]; subst; reflexivity.
  - intros H. apply ValidateSide_None_inv in H.
    destruct H as [H|[H|H]]; subst; reflexivity.
  - rewrite !NormalizeSide_TrimSpace. apply TrimSpace_idempotent.
Qed.






Lemma suffixOf_refl : forall s, suffixOf s s.
Proof. intros s. now exists "". Qed.

Lemma suffixOf_cons : forall t c s, suffixOf t s -> suffixOf t (String c s).
Proof. intros t c s [pre E]. exists (String c pre). cbn. now rewrite E. Qed.

Lemma suffixOf_trans : forall a b c, suffixOf a b -> suffixOf b c -> suffixOf a c.
Proof.
  intros a b c [p E] [q F]. exists (q ++ p). subst.
  now rewrite append_assoc.
Qed.

Lemma allBytes_app :
  forall Q a b, allBytes Q (a ++ b) = allBytes Q a && allBytes Q b.
Proof.
  induction a as [|c a IH]; intros b; cbn; [reflexivity|].
  now rewrite IH, andb_assoc.
Qed.

Lemma allBytes_suffix :
  forall Q t s, suffixOf t s -> allBytes Q s = true -> allBytes Q t = true.
Proof.
  intros Q t s [pre E] H. subst s. rewrite allBytes_app in H.
  now apply andb_true_iff in H.
Qed.

(** A match consumes a prefix of the input. *)
Lemma matchHere_suffix :
  forall fuel r atStart s k rest,
    (forall st s' rest', k st s' = Some rest' -> suffixOf rest' s') ->
    matchHere fuel r atStart s k = Some rest ->
    suffixOf rest s.
Proof.
  induction fuel as [|fuel IH]; intros r atStart s k rest Hk H; [discriminate|].
  destruct r; cbn [matchHere] in H.
  - destruct s as [|d s']; [discriminate|].
    destruct (Ascii.eqb c d); [|discriminate].
    apply suffixOf_cons. eapply Hk. exact H.
  - destruct s as [|d s']; [discriminate|].
    destruct (Ascii.eqb d "010"); [discriminate|].
    apply suffixOf_cons. eapply Hk. exact H.
  - destruct s as [|d s']; [discriminate|].
    destruct (p d); [|discriminate].
    apply suffixOf_cons. eapply Hk. exact H.
  - eapply IH; [|exact H]. intros st s' rest' H'.
    eapply IH; [exact Hk|exact H'].
  - destruct (matchHere fuel r1 atStart s k) eqn:E.
    + injection H as <-. eapply IH; [exact Hk|exact E].
    + eapply IH; [exact Hk|exact H].
  - match type of H with match ?m with _ => _ end = _ => destruct m eqn:E end.
    + injection H as <-. eapply IH; [|exact E].
      intros st s' rest' H'. cbn beta in H'.
      destruct (String.length s' <? String.length s)%nat; [|discriminate].
      eapply IH; [exact Hk|exact H'].
    + eapply Hk. exact H.
  - eapply IH; [exact Hk|exact H].
  - destruct atStart; [|discriminate]. eapply Hk. exact H.
  - destruct s; [|discriminate]. eapply Hk. exact H.
Qed.

Lemma matchPrefix_suffix :
  forall r atStart s rest, matchPrefix r atStart s = Some rest -> suffixOf rest s.
Proof.
  intros r atStart s rest H. unfold matchPrefix in H.
  eapply matchHere_suffix; [|exact H].
  intros st s' rest' E. injection E as <-. apply suffixOf_refl.
Qed.

(** A replacement only removes bytes of the input and puts bytes of the
    replacement in. *)
Lemma replaceLoop_bytes :
  forall Q r repl,
    allBytes Q repl = true ->
    forall fuel atStart afterMatch s,
      allBytes Q s = true ->
      allBytes Q (replaceLoop fuel r repl atStart afterMatch s) = true.
Proof.
  intros Q r repl Hrepl.
  induction fuel as [|fuel IH]; intros atStart afterMatch s Hs; [exact Hs|].
  cbn [replaceLoop].
  destruct (matchPrefix r atStart s) as [rest|] eqn:E.
  - destruct (String.length rest <? String.length s)%nat.
    + rewrite allBytes_app, Hrepl. cbn. apply IH.
      eapply allBytes_suffix; [|exact Hs].
      eapply matchPrefix_suffix. exact E.
    + destruct s as [|c s'].
      * destruct afterMatch; [reflexivity|exact Hrepl].
      * cbn in Hs. apply andb_true_iff in Hs. destruct Hs as [Hc Hs'].
        rewrite allBytes_app. cbn. rewrite Hc, IH by exact Hs'.
        destruct afterMatch; [reflexivity|]. now rewrite Hrepl.
  - destruct s as [|c s']; [reflexivity|].
    cbn in Hs. apply andb_true_iff in Hs. destruct Hs as [Hc Hs'].
    cbn. now rewrite Hc, IH.
Qed.

Lemma ReplaceAllString_bytes :
  forall Q r src repl,
    allBytes Q src = true -> allBytes Q repl = true ->
    allBytes Q (ReplaceAllString r src repl) = true.
Proof.
  intros Q r src repl Hs Hr. unfold ReplaceAllString.
  now apply replaceLoop_bytes.
Qed.

Lemma matchPrefix_fuel :
  forall r s, exists f, (2 * (String.length s + size r) + 2 = S (S f))%nat
                        /\ (String.length s + size r <= f)%nat.
Proof.
  intros r s. exists (2 * (String.length s + size r))%nat. split; lia.
Qed.

(** [[^a-z\d]] at one position. *)
Lemma matchPrefix_regex3 :
  forall atStart s,
    matchPrefix slugifyRegex3 atStart s
    = match s with
      | String c s' => if is_lower c || is_digit c then None else Some s'
      | EmptyString => None
      end.
Proof.
  intros atStart s. unfold matchPrefix.
  destruct (matchPrefix_fuel slugifyRegex3 s) as (f & -> & _).
  unfold slugifyRegex3. cbn [matchHere].
  destruct s as [|c s']; [reflexivity|].
  now destruct (is_lower c || is_digit c).
Qed.

Lemma limitedChars_bytes :
  forall fuel atStart afterMatch s,
    (String.length s <= fuel)%nat ->
    allBytes slugByte (replaceLoop fuel slugifyRegex3 "-" atStart afterMatch s)
    = true.
Proof.
  induction fuel as [|fuel IH]; intros atStart afterMatch s Hlen.
  - destruct s; [reflexivity|cbn in Hlen; lia].
  - cbn [replaceLoop]. rewrite matchPrefix_regex3.
    destruct s as [|c s']; [reflexivity|]. cbn in Hlen.
    destruct (is_lower c || is_digit c) eqn:Ec.
    + cbn. unfold slugByte at 1. rewrite Ec. cbn. apply IH. lia.
    + assert ((String.length s' <? String.length (String c s'))%nat = true) as ->
        by (apply Nat.ltb_lt; cbn; lia).
      cbn. apply IH. lia.
Qed.

Lemma limitedChars_all :
  forall s, allBytes slugByte (ReplaceAllString slugifyRegex3 s "-") = true.
Proof.
  intros s. unfold ReplaceAllString. apply limitedChars_bytes. lia.
Qed.

(** X7: whatever the name, every byte of [SlugifyName name] is a lower
    case letter, a digit or a hyphen. *)
Theorem SlugifyName_bytes :
  forall name,
    Forall (fun c => is_lower c = true \/ is_digit c = true \/ c = "-"%char)
           (list_ascii_of_string (SlugifyName name)).
Proof.
  intros name.
  assert (allBytes slugByte (SlugifyName name) = true) as H.
  { unfold SlugifyName. cbv zeta.
    apply ReplaceAllString_bytes; [|reflexivity].
    apply ReplaceAllString_bytes; [|reflexivity].
    apply limitedChars_all. }
  revert H. generalize (SlugifyName name) as s.
  induction s as [|d s IH]; cbn [list_ascii_of_string allBytes];
    [constructor|].
  intros H. apply andb_true_iff in H. destruct H as [Hd Hs].
  constructor; [|now apply IH].
  unfold slugByte in Hd. apply orb_true_iff in Hd. destruct Hd as [Hd|Hd].
  - apply orb_true_iff in Hd. tauto.
  - right. right. apply Ascii.eqb_eq in Hd. now subst.
Qed.

Lemma dropDashes_length :
  forall s, (String.length (dropDashes s) <= String.length s)%nat.
Proof.
  induction s as [|c s IH]; cbn [dropDashes String.length startsWithDash endsWithDash noDoubleDash append replaceLoop negb andb]; [lia|].
  destruct (Ascii.eqb "-" c); cbn [dropDashes String.length startsWithDash endsWithDash noDoubleDash append replaceLoop negb andb]; lia.
Qed.

Lemma dropDashes_start : forall s, startsWithDash (dropDashes s) = false.
Proof.
  induction s as [|c s IH]; cbn [dropDashes String.length startsWithDash endsWithDash noDoubleDash append replaceLoop negb andb]; [reflexivity|].
  destruct (Ascii.eqb "-" c) eqn:E; [exact IH|]. cbn [dropDashes String.length startsWithDash endsWithDash noDoubleDash append replaceLoop negb andb]. exact E.
Qed.

(** [-*] takes every leading dash. *)
Lemma matchHere_Lit :
  forall fuel c atStart d s k,
    matchHere (S fuel) (Lit c) atStart (String d s) k
    = if Ascii.eqb c d then k false s else None.
Proof. reflexivity. Qed.

Lemma star_dash :
  forall s fuel atStart,
    (String.length s < fuel)%nat ->
    matchHere fuel (Star (Lit "-")) atStart s (fun _ rest => Some rest)
    = Some (dropDashes s).
Proof.
  induction s as [|c s IH]; intros fuel atStart Hlen.
  - destruct fuel as [|fuel]; [lia|]. cbn [matchHere].
    destruct fuel; reflexivity.
  - cbn [String.length] in Hlen. destruct fuel as [|fuel]; [lia|].
    cbn [matchHere dropDashes]. destruct fuel as [|fuel]; [lia|].
    rewrite matchHere_Lit.
    destruct (Ascii.eqb "-" c); [|reflexivity].
    assert ((String.length s <? String.length (String c s))%nat = true) as ->
      by (apply Nat.ltb_lt; cbn [String.length]; lia).
    rewrite IH by lia. reflexivity.
Qed.

(** [-+] at one position. *)
Lemma matchPrefix_regex4 :
  forall atStart s,
    matchPrefix slugifyRegex4 atStart s
    = match s with
      | String c s' => if Ascii.eqb "-" c then Some (dropDashes s') else None
      | EmptyString => None
      end.
Proof.
  intros atStart s. unfold matchPrefix.
  destruct (matchPrefix_fuel slugifyRegex4 s) as (f & -> & Hf).
  unfold slugifyRegex4 in *. cbn [size] in Hf.
  destruct f as [|f]; [lia|].
  change (matchHere (S (S (S f))) (Plus (Lit "-")) atStart s
            (fun _ rest => Some rest))
    with (matchHere (S f) (Lit "-") atStart s
            (fun st s' => matchHere (S f) (Star (Lit "-")) st s'
                            (fun _ rest => Some rest))).
  destruct s as [|c s']; [reflexivity|].
  rewrite matchHere_Lit.
  destruct (Ascii.eqb "-" c); [|reflexivity].
  apply star_dash. cbn [String.length] in Hf. lia.
Qed.

Lemma noDuplicateDashes_loop :
  forall fuel atStart afterMatch s,
    (String.length s <= fuel)%nat ->
    let out := replaceLoop fuel slugifyRegex4 "-" atStart afterMatch s in
    noDoubleDash out = true /\ startsWithDash out = startsWithDash s.
Proof.
  induction fuel as [|fuel IH]; intros atStart afterMatch s Hlen out; subst out.
  - destruct s; [now split|cbn [dropDashes String.length startsWithDash endsWithDash noDoubleDash append replaceLoop negb andb] in Hlen; lia].
  - cbn [replaceLoop]. rewrite matchPrefix_regex4.
    destruct s as [|c s']; [now split|]. cbn [dropDashes String.length startsWithDash endsWithDash noDoubleDash append replaceLoop negb andb] in Hlen.
    destruct (Ascii.eqb "-" c) eqn:Ec.
    + assert ((String.length (dropDashes s') <? String.length (String c s'))%nat
              = true) as ->.
      { apply Nat.ltb_lt. pose proof (dropDashes_length s'). cbn [dropDashes String.length startsWithDash endsWithDash noDoubleDash append replaceLoop negb andb]. lia. }
      destruct (IH false true (dropDashes s')) as [N S0].
      { pose proof (dropDashes_length s'). lia. }
      cbn [dropDashes String.length startsWithDash endsWithDash noDoubleDash append replaceLoop negb andb]. rewrite N, S0, dropDashes_start, Ec. now split.
    + destruct (IH false false s') as [N S0]; [lia|].
      cbn [dropDashes String.length startsWithDash endsWithDash noDoubleDash append replaceLoop negb andb]. rewrite N, Ec. now split.
Qed.

(** [^-|-$] at one position. *)
Lemma matchPrefix_regex5 :
  forall atStart s,
    matchPrefix slugifyRegex5 atStart s
    = match s with
      | String c s' =>
          if Ascii.eqb "-" c then
            if atStart then Some s'
            else match s' with EmptyString => Some "" | _ => None end
          else None
      | EmptyString => None
      end.
Proof.
  intros atStart s. unfold matchPrefix.
  destruct (matchPrefix_fuel slugifyRegex5 s) as (f & -> & Hf).
  unfold slugifyRegex5 in *. cbn [size] in Hf.
  destruct f as [|[|f]]; try lia.
  cbn [matchHere].
  destruct s as [|c s']; [now destruct atStart|].
  destruct atStart; destruct (Ascii.eqb "-" c); try reflexivity.
  now destruct s'.
Qed.

Lemma trailingDash_loop :
  forall fuel afterMatch s,
    (String.length s <= fuel)%nat ->
    noDoubleDash s = true ->
    let out := replaceLoop fuel slugifyRegex5 "" false afterMatch s in
    endsWithDash out = false
    /\ noDoubleDash out = true
    /\ (startsWithDash s = false ->
        startsWithDash out = false /\ (s <> "" -> out <> "")).
Proof.
  induction fuel as [|fuel IH]; intros afterMatch s Hlen Hnd out; subst out.
  - destruct s; [|cbn [dropDashes String.length startsWithDash endsWithDash noDoubleDash append replaceLoop negb andb] in Hlen; lia]. cbn [dropDashes String.length startsWithDash endsWithDash noDoubleDash append replaceLoop negb andb]. repeat split; auto.
  - cbn [replaceLoop]. rewrite matchPrefix_regex5.
    destruct s as [|c s']; [cbn [dropDashes String.length startsWithDash endsWithDash noDoubleDash append replaceLoop negb andb]; repeat split; auto|].
    cbn [dropDashes String.length startsWithDash endsWithDash noDoubleDash append replaceLoop negb andb] in Hlen. cbn [dropDashes String.length startsWithDash endsWithDash noDoubleDash append replaceLoop negb andb] in Hnd. apply andb_true_iff in Hnd. destruct Hnd as [Hc Hnd].
    destruct (Ascii.eqb "-" c) eqn:Ec.
    + destruct s' as [|d s''].
      * assert (replaceLoop fuel slugifyRegex5 "" false true "" = "") as E.
        { destruct fuel; [reflexivity|]. cbn [replaceLoop].
          now rewrite matchPrefix_regex5. }
        cbn [String.length Nat.ltb Nat.leb append]. rewrite E.
        cbn [startsWithDash]. rewrite Ec.
        split; [reflexivity|]. split; [reflexivity|]. discriminate.
      * cbn [dropDashes String.length startsWithDash endsWithDash noDoubleDash append replaceLoop negb andb] in Hc. apply negb_true_iff in Hc.
        destruct (IH false (String d s'')) as (E0 & N0 & S0); [cbn [dropDashes String.length startsWithDash endsWithDash noDoubleDash append replaceLoop negb andb] in *; lia|exact Hnd|].
        destruct (S0 Hc) as [S1 S2].
        set (X := replaceLoop fuel slugifyRegex5 "" false false (String d s'')) in *.
        assert (X <> "") as HX by (apply S2; discriminate).
        destruct X as [|x X'] eqn:EX; [contradiction|].
        cbn [endsWithDash noDoubleDash startsWithDash] in *.
        rewrite E0, N0, S1, Ec. cbn [dropDashes String.length startsWithDash endsWithDash noDoubleDash append replaceLoop negb andb]. repeat split; auto. discriminate.
    + destruct (IH false s') as (E0 & N0 & S0); [lia|exact Hnd|].
      set (X := replaceLoop fuel slugifyRegex5 "" false false s') in *.
      cbn [endsWithDash noDoubleDash startsWithDash]. rewrite N0, Ec.
      split; [destruct X; [reflexivity|exact E0]|].
      split; [reflexivity|]. intros _. split; [reflexivity|discriminate].
Qed.

Lemma noLeadingTrailingDashes :
  forall s,
    noDoubleDash s = true ->
    let out := ReplaceAllString slugifyRegex5 s "" in
    startsWithDash out = false /\ endsWithDash out = false
    /\ noDoubleDash out = true.
Proof.
  intros s Hnd out. subst out. unfold ReplaceAllString.
  cbn [replaceLoop]. rewrite matchPrefix_regex5.
  destruct s as [|c s']; [now split|].
  cbn [noDoubleDash] in Hnd. apply andb_true_iff in Hnd. destruct Hnd as [Hc Hnd].
  set (fuel := String.length (String c s')).
  assert (String.length s' <= fuel)%nat as Hlen by (subst fuel; cbn [String.length]; lia).
  destruct (trailingDash_loop fuel true s' Hlen Hnd) as (E1 & N1 & S1).
  destruct (trailingDash_loop fuel false s' Hlen Hnd) as (E0 & N0 & S0).
  destruct (Ascii.eqb "-" c) eqn:Ec.
  - assert ((String.length s' <? fuel)%nat = true) as ->
      by (apply Nat.ltb_lt; subst fuel; cbn [String.length]; lia).
    cbn [andb] in Hc.
    apply negb_true_iff in Hc. destruct (S1 Hc) as [S2 _].
    cbn [append]. now rewrite S2, E1, N1.
  - set (X := replaceLoop fuel slugifyRegex5 "" false false s') in *.
    cbn [endsWithDash noDoubleDash startsWithDash]. rewrite N0, Ec.
    split; [reflexivity|]. split; [destruct X; [reflexivity|exact E0]|reflexivity].
Qed.

Lemma endsWithDash_app : forall t, endsWithDash (t ++ "-") = true.
Proof.
  induction t as [|c t IH]; [reflexivity|].
  cbn [append endsWithDash]. destruct (t ++ "-") eqn:E; [|exact IH].
  destruct t; discriminate.
Qed.

Lemma noDoubleDash_app : forall t u, noDoubleDash (t ++ "--" ++ u) = false.
Proof.
  induction t as [|c t IH]; intros u; [reflexivity|].
  change (String c t ++ "--" ++ u) with (String c (t ++ "--" ++ u)).
  cbn [noDoubleDash]. rewrite IH. apply andb_false_r.
Qed.

(** X8: whatever the name, [SlugifyName name] neither begins nor ends
    with a hyphen, and has no two hyphens in a row. *)
Theorem SlugifyName_dashes :
  forall name t u,
    SlugifyName name <> "-" ++ t
    /\ SlugifyName name <> t ++ "-"
    /\ SlugifyName name <> t ++ "--" ++ u.
Proof.
  intros name t u. unfold SlugifyName. cbv zeta.
  set (limitedChars := ReplaceAllString slugifyRegex3 _ "-").
  destruct (noDuplicateDashes_loop (S (String.length limitedChars)) true false
              limitedChars) as [N _]; [lia|].
  fold (ReplaceAllString slugifyRegex4 limitedChars "-") in N.
  destruct (noLeadingTrailingDashes _ N) as (S0 & E0 & N0).
  repeat split; intros E; rewrite E in *.
  - discriminate.
  - now rewrite endsWithDash_app in E0.
  - now rewrite noDoubleDash_app in N0.
Qed.

(** What the handlers of [modify] do to the fields of a record. *)
Lemma applyFlags_fields :
  forall f m m' changed,
    applyFlags f m = Ok (m', changed) ->
    metaFile m' = metaFile m
    /\ Name m' = Name m /\ FileName m' = FileName m
    /\ Update m' = Update m /\ updateData m' = updateData m
    /\ URL (Download m') = URL (Download m)
    /\ HashFormat (Download m') = HashFormat (Download m)
    /\ Hash (Download m') = Hash (Download m)
    /\ Mode (Download m') = Mode (Download m)
    /\ Side m' = match side f with
                 | Some s => TrimSpace s
                 | None => Side m
                 end
    /\ DisabledClientPlatforms (Download m')
       = match disabledClientPlatforms f with
         | Some platforms => NormalizeClientPlatforms platforms
         | None => DisabledClientPlatforms (Download m)
         end
    /\ Pin m' = match pin f with Some p => p | None => Pin m end.
Proof.
  intros f m m' changed. unfold applyFlags, handleSide, handlePlatforms.
  destruct (side f) as [sd|].
  - destruct (ValidateSide (TrimSpace sd)) eqn:Ev; [discriminate|].
    rewrite NormalizeSide_TrimSpace, TrimSpace_idempotent.
    destruct (disabledClientPlatforms f) as [pl|].
    + destruct (ValidateClientPlatforms pl); [discriminate|].
      unfold handlePin, handleOptional.
      destruct (pin f); destruct (optionalFlagChanged f);
        try destruct (allDefault _);
        intros E; inversion E; subst; cbn; repeat split; reflexivity.
    + unfold handlePin, handleOptional.
      destruct (pin f); destruct (optionalFlagChanged f);
        try destruct (allDefault _);
        intros E; inversion E; subst; cbn; repeat split; reflexivity.
  - destruct (disabledClientPlatforms f) as [pl|].
    + destruct (ValidateClientPlatforms pl); [discriminate|].
      unfold handlePin, handleOptional.
      destruct (pin f); destruct (optionalFlagChanged f);
        try destruct (allDefault _);
        intros E; inversion E; subst; cbn; repeat split; reflexivity.
    + unfold handlePin, handleOptional.
      destruct (pin f); destruct (optionalFlagChanged f);
        try destruct (allDefault _);
        intros E; inversion E; subst; cbn; repeat split; reflexivity.
Qed.

Ltac applyFlags_cases :=
  unfold applyFlags, handleSide, handlePlatforms, handlePin, handleOptional;
  repeat match goal with
    | |- context [match side ?f with _ => _ end] => destruct (side f)
    | |- context [match ValidateSide ?s with _ => _ end] =>
        destruct (ValidateSide s); [discriminate|]
    | |- context [match disabledClientPlatforms ?f with _ => _ end] =>
        destruct (disabledClientPlatforms f)
    | |- context [match ValidateClientPlatforms ?p with _ => _ end] =>
        destruct (ValidateClientPlatforms p); [discriminate|]
    | |- context [match pin ?f with _ => _ end] => destruct (pin f)
    | |- context [if optionalFlagChanged ?f then _ else _] =>
        destruct (optionalFlagChanged f)
    | |- context [if allDefault ?o then _ else _] => destruct (allDefault o)
    end.

(** The handlers leave the path of the record alone, and report a
    change exactly when a flag was given. *)
Lemma applyFlags_metaFile :
  forall f m m' changed,
    applyFlags f m = Ok (m', changed) ->
    metaFile m' = metaFile m /\ changed = anyFlag f.
Proof.
  intros f m m' changed. unfold anyFlag. applyFlags_cases;
    intros E; inversion E; subst; split; reflexivity.
Qed.

Lemma applyFlags_Ok_valid :
  forall f m m' changed,
    applyFlags f m = Ok (m', changed) ->
    (forall s, side f = Some s -> ValidateSide (TrimSpace s) = None)
    /\ (forall platforms, disabledClientPlatforms f = Some platforms ->
          ValidateClientPlatforms platforms = None).
Proof.
  intros f m m' changed. unfold applyFlags, handleSide, handlePlatforms.
  destruct (side f) as [sd|].
  - destruct (ValidateSide (TrimSpace sd)) eqn:Ev; [discriminate|].
    destruct (disabledClientPlatforms f) as [pl|].
    + destruct (ValidateClientPlatforms pl) eqn:Ep; [discriminate|].
      intros _. split; intros ? E; inversion E; subst; assumption.
    + intros _. split; intros ? E; inversion E; subst; assumption.
  - destruct (disabledClientPlatforms f) as [pl|].
    + destruct (ValidateClientPlatforms pl) eqn:Ep; [discriminate|].
      intros _. split; intros ? E; inversion E; subst; assumption.
    + intros _. split; intros ? E; inversion E.
Qed.

Lemma LoadMod_run :
  forall env path w,
    LoadMod env path w
    = (match get (fs w) path with
       | Some (FMod m) =>
           match parseUpdates env (Update m) [] with
           | Ok ud => Ok (mkMod path (Name m) (FileName m) (Side m) (Pin m)
                                (Download m) (Update m) ud (Option m))
           | Err e => Err e
           end
       | _ => Err "cannot decode mod file"
       end, w).
Proof.
  intros env path w. unfold LoadMod. rewrite bind_run. unfold readFile.
  cbn [fst snd].
  destruct (get (fs w) path) as [[]|]; try reflexivity.
  now destruct (parseUpdates env (Update m) []).
Qed.

(** The run of [modify], step by step. *)
Lemma modify_run :
  forall env f args0 w e w',
    modifyModProperties env f args0 w = (e, w') ->
    (e = Exit1 /\ fs w' = fs w /\ writes w' = writes w)
    \/ exists pack files modPath m m' changed,
         get (fs w) (packFile env) = Some (FPack pack)
         /\ get (fs w) (indexLocation env pack) = Some (FIndex files)
         /\ FindMod env (mkIndex (indexLocation env pack) files) args0
            = Some modPath
         /\ LoadMod env modPath w = (Ok m, w)
         /\ applyFlags f m = Ok (m', changed)
         /\ metaFile m' = modPath
         /\ let idx := mkIndex (indexLocation env pack) files in
            (changed = false /\ e = Returned /\ w' = with_index w idx)
            \/ (changed = true
                /\ (e = Exit1
                    \/ (e = Returned
                        /\ exists content,
                             get (fs (afterIndexWrite env w idx modPath m'))
                                 (indexLocation env pack) = Some content
                             /\ w' = afterPackWrite env w idx modPath m'
                                       (rehashed env pack content)))).
Proof.
  intros env f args0 w e w' H. unfold modifyModProperties in H.
  rewrite bind_run, LoadPack_run in H. cbn [fst snd] in H.
  destruct (get (fs w) (packFile env)) as [[files|pack|m|b|z|]|] eqn:Ep;
    try (left; inversion H; subst; repeat split; reflexivity).
  rewrite bind_run, LoadIndex_run in H. cbn [fst snd] in H.
  destruct (get (fs w) (indexLocation env pack))
    as [[files|pack'|m|b|z|]|] eqn:Ei;
    try (left; inversion H; subst; repeat split; reflexivity).
  rewrite bind_run in H. unfold putIndex in H. cbn [fst snd] in H.
  set (idx := mkIndex (indexLocation env pack) files) in *.
  destruct (FindMod env idx args0) as [modPath|] eqn:Ef;
    [|left; inversion H; subst; repeat split; reflexivity].
  rewrite bind_run, LoadMod_run in H. cbn [fst snd] in H.
  pose proof (LoadMod_run env modPath w) as HL.
  change (fs (with_index w idx)) with (fs w) in H.
  destruct (match get (fs w) modPath with
            | Some (FMod m) =>
                match parseUpdates env (Update m) [] with
                | Ok ud => Ok (mkMod modPath (Name m) (FileName m) (Side m) (Pin m)
                                     (Download m) (Update m) ud (Option m))
                | Err e => Err e
                end
            | _ => Err "cannot decode mod file"
            end) as [m|err] eqn:El;
    [|left; inversion H; subst; repeat split; reflexivity].
  assert (metaFile m = modPath) as Hmeta.
  { destruct (get (fs w) modPath) as [[ | |m0| | | ]|]; try discriminate.
    destruct (parseUpdates env (Update m0) []); [|discriminate].
    injection El as <-. reflexivity. }
  destruct (applyFlags f m) as [[m' changed]|err] eqn:Ea;
    [|left; inversion H; subst; repeat split; reflexivity].
  destruct (applyFlags_metaFile _ _ _ _ Ea) as (Hmf & _).
  right. exists pack, files, modPath, m, m', changed.
  repeat (split; [first [assumption|reflexivity|congruence]|]).
  cbv zeta. fold idx.
  destruct changed;
    [right|left; inversion H; subst; repeat split; reflexivity].
  split; [reflexivity|].
  rewrite bind_run in H. unfold Mod_Write in H. rewrite !bind_run in H.
  unfold writeFile in H. cbn [writes with_index] in H.
  destruct (writeFails env (writes w)) eqn:W1; cbn [fst snd ret] in H;
    [left; now inversion H|].
  rewrite bind_run in H. unfold RefreshFileWithHash in H. rewrite !bind_run in H.
  unfold getIndex, putIndex in H.
  cbn [fst snd ret index with_index with_fs with_writes] in H.
  rewrite bind_run in H. unfold Index_Write in H. rewrite !bind_run in H.
  unfold getIndex, writeFile in H.
  cbn [fst snd ret index with_index with_fs with_writes writes] in H.
  destruct (writeFails env (S (writes w))) eqn:W2; cbn [fst snd ret] in H;
    [left; now inversion H|].
  cbn [with_fs with_writes fs index writes apiCalls sleeps refreshEntry indexFile]
    in H.
  rewrite bind_run in H. unfold UpdateIndexHash in H. rewrite !bind_run in H.
  unfold readFile in H. cbn [fst snd fs] in H.
  match type of H with
  | context [get ?F (indexLocation env pack)] =>
      destruct (get F (indexLocation env pack)) as [content|] eqn:Ec
  end; cbn [fst snd ret] in H; [|left; now inversion H].
  rewrite bind_run in H. unfold Pack_Write, writeFile in H.
  cbn [writes with_writes with_fs with_index fs index apiCalls sleeps] in H.
  destruct (writeFails env (S (S (writes w)))) eqn:W3; cbn [fst snd ret] in H;
    [left; now inversion H|].
  right. inversion H; subst e w'; clear H. split; [reflexivity|]. exists content.
  unfold afterIndexWrite, afterPackWrite, refreshedIndex, rehashed.
  cbn [with_fs with_writes fs index writes apiCalls sleeps refreshEntry
       indexFile Files].
  split; [exact Ec|]. reflexivity.
Qed.

Lemma has_set :
  forall (V : Type) (m : gomap V) k v k',
    has (set m k v) k' = String.eqb k' k || has m k'.
Proof.
  intros V m k v k'. unfold has.
  destruct (String.eqb_spec k' k) as [->|Hne].
  - now rewrite get_set_same.
  - now rewrite get_set_other.
Qed.

Lemma parseUpdates_keys :
  forall env upd acc ud,
    parseUpdates env upd acc = Ok ud ->
    (forall k, has ud k = has acc k || existsb (String.eqb k) (keys upd))
    /\ (forall k, In k (keys upd) -> has (Updaters env) k = true).
Proof.
  intros env. induction upd as [|[k v] rest IH]; intros acc ud H.
  - injection H as <-. split; [intros k; now rewrite orb_false_r|intros k []].
  - cbn [parseUpdates] in H.
    destruct (get (Updaters env) k) as [ParseUpdate|] eqn:Eu; [|discriminate].
    destruct (ParseUpdate v) as [d|e]; [|discriminate].
    destruct (IH _ _ H) as [H1 H2]. split.
    + intros k'. rewrite H1, has_set. cbn [keys map fst existsb].
      fold (keys rest). now destruct (String.eqb k' k), (has acc k').
    + intros k' [E|Hin].
      * cbn in E. subst k'. unfold has. now rewrite Eu.
      * now apply H2.
Qed.

(** X9: a record that [LoadMod] returns has the path it was loaded from;
    each of its update sources has an updater registered under its name,
    and the parsed update data are there for the names of the update
    sources and for no other name. *)
Theorem LoadMod_needs_updaters :
  forall env modFile w m,
    fst (LoadMod env modFile w) = Ok m ->
    metaFile m = modFile
    /\ forall k,
         (In k (keys (Update m)) -> has (Updaters env) k = true)
         /\ (GetParsedUpdateData m k <> None <-> In k (keys (Update m))).
Proof.
  intros env modFile w m H. rewrite LoadMod_run in H. cbn [fst] in H.
  destruct (get (fs w) modFile) as [[ | |m0| | | ]|]; try discriminate.
  destruct (parseUpdates env (Update m0) []) as [ud|e] eqn:Ep; [|discriminate].
  injection H as <-. cbn [metaFile Update updateData]. split; [reflexivity|].
  destruct (parseUpdates_keys _ _ _ _ Ep) as [H1 H2].
  intros k. split; [apply H2|].
  unfold GetParsedUpdateData. cbn [updateData].
  specialize (H1 k). unfold has in H1. cbn [get orb] in H1.
  rewrite <- existsb_eqb_In, <- H1.
  destruct (get ud k); split; congruence.
Qed.

Lemma LoadMod_needs_updaters_witness :
  metaFile (mkMod "mods/dual.pw.toml" "Dual" "dual.jar" "" false
              (Download fileGithubCurseforge) (Update fileGithubCurseforge)
              [("github", ForeignUpdateData [("slug", "o/r"); ("tag", "v1")]);
               ("curseforge",
                ForeignUpdateData [("project-id", "238222");
                                   ("file-id", "4711")])] None)
  = "mods/dual.pw.toml"
  /\ forall k,
       (In k (keys (Update fileGithubCurseforge)) ->
        has (Updaters sampleEnv) k = true)
       /\ (GetParsedUpdateData
             (mkMod "mods/dual.pw.toml" "Dual" "dual.jar" "" false
                (Download fileGithubCurseforge) (Update fileGithubCurseforge)
                [("github", ForeignUpdateData [("slug", "o/r"); ("tag", "v1")]);
                 ("curseforge",
                  ForeignUpdateData [("project-id", "238222");
                                     ("file-id", "4711")])] None) k <> None
           <-> In k (keys (Update fileGithubCurseforge))).
Proof.
  exact (LoadMod_needs_updaters sampleEnv "mods/dual.pw.toml" tallyDisk _ eq_refl).
Defined.

(** X11: [modify] without any flag writes nothing: the disk is as it was
    and no write is attempted. *)
Theorem modify_without_flags_writes_nothing :
  forall env f args0 w,
    anyFlag f = false ->
    let r := modifyModProperties env f args0 w in
    fs (snd r) = fs w /\ writes (snd r) = writes w.
Proof.
  intros env f args0 w Hf r.
  destruct r as [e w'] eqn:Er. subst r. cbn [snd].
  destruct (modify_run _ _ _ _ _ _ Er)
    as [(_ & H1 & H2)
       |(pack & files & modPath & m & m' & changed & _ & _ & _ & _ & Ha & _ & H)];
    [now split|].
  destruct (applyFlags_metaFile _ _ _ _ Ha) as [_ Hc].
  cbv zeta in H. destruct H as [(_ & _ & ->)|(Ht & _)].
  - now split.
  - congruence.
Qed.

Lemma modify_without_flags_writes_nothing_witness :
  fs (snd (modifyModProperties modifyEnv noFlags "jei" modifyWorld))
  = fs modifyWorld
  /\ writes (snd (modifyModProperties modifyEnv noFlags "jei" modifyWorld))
     = writes modifyWorld.
Proof.
  exact (modify_without_flags_writes_nothing modifyEnv noFlags "jei"
           modifyWorld eq_refl).
Defined.



(** The world after a [modify] that went through. *)
Lemma modify_success_world :
  forall env f args0 w w',
    modifyModProperties env f args0 w = (Returned, w') ->
    anyFlag f = true ->
    exists pack files modPath m m',
      get (fs w) (packFile env) = Some (FPack pack)
      /\ get (fs w) (indexLocation env pack) = Some (FIndex files)
      /\ FindMod env (mkIndex (indexLocation env pack) files) args0
         = Some modPath
      /\ LoadMod env modPath w = (Ok m, w)
      /\ applyFlags f m = Ok (m', true)
      /\ metaFile m' = modPath
      /\ modPath <> indexLocation env pack
      /\ modPath <> packFile env
      /\ indexLocation env pack <> packFile env
      /\ let idx := mkIndex (indexLocation env pack) files in
         let idx' := refreshedIndex env idx modPath m' in
         w' = afterPackWrite env w idx modPath m'
                (rehashed env pack (FIndex (Files idx'))).
Proof.
  intros env f args0 w w' Er Hf.
  destruct (modify_run _ _ _ _ _ _ Er)
    as [(H & _)
       |(pack & files & modPath & m & m' & changed & Ep & Ei & Ef & El & Ha
         & Hm & H)];
    [discriminate|].
  destruct (applyFlags_metaFile _ _ _ _ Ha) as [_ Hc].
  cbv zeta in H. destruct H as [(Hn & _)|(Ht & [H|(_ & content & Ec & Ew)])];
    [congruence|discriminate|].
  subst changed.
  assert (get (fs w) modPath <> None /\ exists m0, get (fs w) modPath = Some (FMod m0))
    as [_ (m0 & Em)].
  { rewrite LoadMod_run in El. injection El as El.
    destruct (get (fs w) modPath) as [[ | |m0| | | ]|]; try discriminate.
    split; [discriminate|now exists m0]. }
  exists pack, files, modPath, m, m'.
  repeat (split; [first [assumption|congruence]|]).
  cbv zeta. unfold afterIndexWrite in Ec. cbn [fs indexFile] in Ec.
  rewrite get_set_same in Ec. injection Ec as <-. exact Ew.
Qed.



(** X15: the handlers of [modify] keep a record valid: a record that
    passes the structure checks of [validate] passes them after any
    combination of flags that [modify] accepts. *)
Theorem modify_preserves_validity :
  forall f m m' changed,
    applyFlags f m = Ok (m', changed) ->
    Validate.validModStructure m = true ->
    Validate.validModStructure m' = true.
Proof.
  intros f m m' changed Ha.
  destruct (applyFlags_fields _ _ _ _ Ha)
    as (_ & F1 & F2 & _ & _ & F4 & F5 & F6 & _ & F8 & _).
  destruct (applyFlags_Ok_valid _ _ _ _ Ha) as [Hs _].
  unfold Validate.validModStructure. rewrite F1, F2, F4, F5, F6.
  destruct (String.eqb (Name m) ""); [discriminate|].
  destruct (String.eqb (FileName m) ""); [discriminate|].
  destruct (String.eqb (URL (Download m)) ""); [discriminate|].
  destruct (_ || _); [discriminate|].
  rewrite F8. destruct (side f) as [s|]; [|auto].
  intros _. rewrite (Hs s eq_refl). now destruct (negb _).
Qed.

Lemma modify_preserves_validity_witness :
  Validate.validModStructure (setSide recordOptional "client") = true.
Proof.
  exact (modify_preserves_validity sideClient recordOptional
           (setSide recordOptional "client") true eq_refl eq_refl).
Defined.

(** X14: after a [modify] that returned normally with a flag given,
    three writes were made, the Index file holds the entries of the
    Index in memory, and the pack file holds the pack with the hash of
    that Index file. *)
Theorem modify_keeps_hashes_consistent :
  forall env f args0 w w',
    modifyModProperties env f args0 w = (Returned, w') ->
    anyFlag f = true ->
    writes w' = 3 + writes w
    /\ exists pack pack',
         get (fs w) (packFile env) = Some (FPack pack)
         /\ indexFile (index w') = indexLocation env pack
         /\ get (fs w') (indexLocation env pack)
            = Some (FIndex (Files (index w')))
         /\ get (fs w') (packFile env) = Some (FPack pack')
         /\ PackIndexHash pack' = hashContent env (FIndex (Files (index w')))
         /\ PackName pack' = PackName pack
         /\ PackIndexFile pack' = PackIndexFile pack.
Proof.
  intros env f args0 w w' Er Hf.
  destruct (modify_success_world _ _ _ _ _ Er Hf)
    as (pack & files & modPath & m & m' & Ep & Ei & Ef & El & Ha & Hm
        & N1 & N2 & N3 & Ew).
  cbv zeta in Ew. subst w'.
  unfold afterPackWrite, afterIndexWrite, refreshedIndex, refreshEntry, rehashed.
  cbn [fs index indexFile Files writes]. split; [reflexivity|].
  exists pack. eexists. split; [exact Ep|]. split; [reflexivity|].
  split; [rewrite get_set_other by assumption; apply get_set_same|].
  split; [apply get_set_same|]. repeat split.
Qed.

Lemma modify_keeps_hashes_consistent_witness :
  writes (snd (modifyModProperties modifyEnv sideClient "jei" modifyWorld))
  = 3 + writes modifyWorld
  /\ exists pack pack',
       get (fs modifyWorld) (packFile modifyEnv) = Some (FPack pack)
       /\ indexFile (index (snd (modifyModProperties modifyEnv sideClient "jei"
                                   modifyWorld)))
          = indexLocation modifyEnv pack
       /\ get (fs (snd (modifyModProperties modifyEnv sideClient "jei"
                          modifyWorld)))
              (indexLocation modifyEnv pack)
          = Some (FIndex (Files (index (snd (modifyModProperties modifyEnv
                                              sideClient "jei" modifyWorld)))))
       /\ get (fs (snd (modifyModProperties modifyEnv sideClient "jei"
                          modifyWorld)))
              (packFile modifyEnv) = Some (FPack pack')
       /\ PackIndexHash pack'
          = hashContent modifyEnv
              (FIndex (Files (index (snd (modifyModProperties modifyEnv
                                            sideClient "jei" modifyWorld)))))
       /\ PackName pack' = PackName pack
       /\ PackIndexFile pack' = PackIndexFile pack.
Proof.
  apply (modify_keeps_hashes_consistent modifyEnv sideClient "jei" modifyWorld);
    [vm_compute; reflexivity|reflexivity].
Defined.

Lemma substring_prefix :
  forall sub post, substring 0 (String.length sub) (sub ++ post) = sub.
Proof.
  induction sub as [|c sub IH]; intros post; cbn.
  - now destruct post.
  - now rewrite IH.
Qed.

Lemma substring_skip :
  forall pre m s, substring (String.length pre) m (pre ++ s) = substring 0 m s.
Proof.
  induction pre as [|c pre IH]; intros m s; cbn; [reflexivity|apply IH].
Qed.

Lemma substring_0_inv :
  forall sub s,
    substring 0 (String.length sub) s = sub -> exists post, s = sub ++ post.
Proof.
  induction sub as [|c sub IH]; intros s H.
  - now exists s.
  - cbn in H. destruct s as [|d s']; [discriminate|].
    injection H as -> H. destruct (IH _ H) as [post ->]. now exists post.
Qed.

Lemma substring_inv :
  forall j sub s,
    substring j (String.length sub) s = sub ->
    exists pre post, s = pre ++ sub ++ post.
Proof.
  induction j as [|j IH]; intros sub s H.
  - destruct (substring_0_inv _ _ H) as [post ->]. now exists "", post.
  - destruct s as [|c s'].
    + cbn in H. subst sub. now exists "", "".
    + cbn in H. destruct (IH _ _ H) as (pre & post & ->).
      now exists (String c pre), post.
Qed.

Lemma foundFrom_true :
  forall s substr n i,
    foundFrom s substr i n = true
    <-> exists j, i <= j < i + n
                  /\ substring j (String.length substr) s = substr.
Proof.
  intros s substr. induction n as [|n IH]; intros i; cbn [foundFrom].
  - split; [discriminate|]. intros (j & Hj & _). lia.
  - destruct (String.eqb_spec (substring i (String.length substr) s) substr)
      as [E|E].
    + split; [intros _|reflexivity]. exists i. split; [lia|exact E].
    + rewrite IH. split; intros (j & Hj & Hs).
      * exists j. split; [lia|exact Hs].
      * exists j. split; [|exact Hs].
        destruct (Nat.eq_dec j i) as [->|]; [contradiction|lia].
Qed.

Lemma found_iff_infix :
  forall s substr,
    (String.length substr <=? String.length s)%nat
    && foundFrom s substr 0 (S (String.length s - String.length substr)) = true
    <-> exists pre post, s = pre ++ substr ++ post.
Proof.
  intros s substr. rewrite andb_true_iff, Nat.leb_le, foundFrom_true. split.
  - intros (_ & j & _ & H). eapply substring_inv. exact H.
  - intros (pre & post & ->). rewrite !length_append. split; [lia|].
    exists (String.length pre). split; [lia|].
    now rewrite substring_skip, substring_prefix.
Qed.

(** X19: [containsAny s substrings] is true exactly when one of the
    substrings occurs in [s]. *)
Theorem containsAny_infix :
  forall s substrings,
    containsAny s substrings = true
    <-> exists substr pre post,
          In substr substrings /\ s = pre ++ substr ++ post.
Proof.
  intros s. induction substrings as [|substr rest IH]; cbn [containsAny].
  - split; [discriminate|]. intros (? & ? & ? & [] & _).
  - destruct ((String.length substr <=? String.length s)%nat
              && foundFrom s substr 0
                   (S (String.length s - String.length substr))) eqn:E.
    + split; [intros _|reflexivity].
      apply found_iff_infix in E. destruct E as (pre & post & E).
      exists substr, pre, post. split; [now left|exact E].
    + rewrite IH. split.
      * intros (x & pre & post & Hin & Hs). exists x, pre, post.
        split; [now right|exact Hs].
      * intros (x & pre & post & [->|Hin] & Hs).
        -- assert (true = false) as Habs; [|discriminate].
           rewrite <- E. symmetry. apply found_iff_infix. now exists pre, post.
        -- now exists x, pre, post.
Qed.

Lemma find_first :
  forall (A : Type) (p : A -> bool) l x,
    find p l = Some x ->
    exists before after,
      l = (before ++ x :: after)%list
      /\ forallb (fun a => negb (p a)) before = true /\ p x = true.
Proof.
  intros A p. induction l as [|a l IH]; intros x H; [discriminate|].
  cbn in H. destruct (p a) eqn:E.
  - injection H as <-. now exists [], l.
  - destruct (IH _ H) as (before & after & -> & Hb & Hx).
    exists (a :: before), after. cbn. now rewrite E, Hb.
Qed.

Lemma find_none :
  forall (A : Type) (p : A -> bool) l,
    find p l = None -> forallb (fun a => negb (p a)) l = true.
Proof.
  intros A p. induction l as [|a l IH]; intros H; [reflexivity|].
  cbn in H. destruct (p a) eqn:E; [discriminate|].
  cbn. now rewrite E, IH.
Qed.

(** X20: [findPrimaryFile] returns nil exactly for a version without
    files; otherwise it returns the first file marked primary, or, when
    no file is marked primary, the first file.  The compatible loaders
    play no part. *)
Theorem findPrimaryFile_choice :
  forall version compatibleLoaders,
    match findPrimaryFile version compatibleLoaders with
    | None => Version.Files version = []
    | Some file =>
        exists before after,
          Version.Files version = (before ++ file :: after)%list
          /\ forallb (fun f => negb (isPrimary f)) before = true
          /\ (isPrimary file = true
              \/ (before = []
                  /\ forallb (fun f => negb (isPrimary f)) after = true))
    end.
Proof.
  intros version loaders. unfold findPrimaryFile.
  destruct (Version.Files version) as [|first rest] eqn:Ef; [reflexivity|].
  change (fun file : ApiFile.t => match ApiFile.Primary file with
                                  | Some true => true
                                  | _ => false
                                  end) with isPrimary.
  destruct (find isPrimary (first :: rest)) as [file|] eqn:E.
  - destruct (find_first _ _ _ _ E) as (before & after & Hl & Hb & Hx).
    exists before, after. auto.
  - apply find_none in E. cbn [forallb] in E.
    apply andb_true_iff in E. destruct E as [_ E].
    exists [], rest. cbn. auto.
Qed.

(** A side that [determineSideFromEnv] gives to a file it does not skip
    is one that [ValidateSide] accepts. *)
Lemma determineSideFromEnv_side_valid :
  forall env,
    match determineSideFromEnv env with
    | (side, false, _) => ValidateSide side = None
    | (side, true, warning) => side = "" /\ warning = ""
    end.
Proof.
  intros [[client server]|]; [|reflexivity].
  unfold determineSideFromEnv; cbn [FileEnv.Client FileEnv.Server].
  case_string client; case_string server; cbn; try reflexivity; auto.
Qed.

Lemma In_sortByName : forall x l, In x (sortByName l) <-> In x l.
Proof.
  intros x l. split; apply Permutation_in;
    [apply Permutation_sym|]; apply sortByName_perm.
Qed.

Lemma has_In :
  forall (V : Type) (m : gomap V) k, has m k = true <-> exists v, In (k, v) m.
Proof.
  intros V m k. unfold has. split.
  - destruct (get m k) as [v|] eqn:E; [|discriminate].
    intros _. exists v. now apply get_Some_In.
  - intros [v Hin]. induction m as [|[k' v'] m IH]; [inversion Hin|].
    cbn. destruct (String.eqb_spec k k'); [reflexivity|].
    destruct Hin as [E|Hin]; [congruence|auto].
Qed.

(** X28: what is in the three lists of [compareMods]: missing are the
    mods of the bundle whose project ID the pack does not have, extra
    the mods of the pack whose project ID the bundle does not have,
    different one record per mod of the pack whose project ID the bundle
    has with another version ID, with the two version IDs joined by an
    arrow, the name and the side of the pack's mod and no file name. *)
Theorem compareMods_membership :
  forall current mrpack x,
    (In x (fst (fst (compareMods current mrpack)))
     <-> exists projectID, In (projectID, x) mrpack
                           /\ has current projectID = false)
    /\ (In x (snd (fst (compareMods current mrpack)))
        <-> exists projectID, In (projectID, x) current
                              /\ has mrpack projectID = false)
    /\ (In x (snd (compareMods current mrpack))
        <-> exists projectID currentMod mrpackMod,
              In (projectID, currentMod) current
              /\ get mrpack projectID = Some mrpackMod
              /\ ModInfo.VersionID currentMod <> ModInfo.VersionID mrpackMod
              /\ x = diffMod projectID currentMod mrpackMod).
Proof.
  intros current mrpack x. unfold compareMods. cbn [fst snd].
  rewrite !In_sortByName, !in_flat_map. repeat split.
  - intros ([k v] & Hin & Hx). cbn [fst snd] in Hx.
    destruct (has current k) eqn:E; [contradiction|].
    destruct Hx as [<-|[]]. now exists k.
  - intros (k & Hin & E). exists (k, x). split; [exact Hin|].
    cbn [fst snd]. rewrite E. now left.
  - intros ([k v] & Hin & Hx). cbn [fst snd] in Hx.
    destruct (has mrpack k) eqn:E; [contradiction|].
    destruct Hx as [<-|[]]. now exists k.
  - intros (k & Hin & E). exists (k, x). split; [exact Hin|].
    cbn [fst snd]. rewrite E. now left.
  - intros ([k c] & Hin & Hx).
    destruct (get mrpack k) as [m|] eqn:E; [|contradiction].
    destruct (String.eqb_spec (ModInfo.VersionID c) (ModInfo.VersionID m))
      as [Ev|Ev]; cbn [negb] in Hx; [contradiction|].
    destruct Hx as [<-|[]]. now exists k, c, m.
  - intros (k & c & m & Hin & E & Ev & ->). exists (k, c).
    split; [exact Hin|]. rewrite E.
    apply String.eqb_neq in Ev. rewrite Ev. now left.
Qed.

Lemma sortByName_nil : forall l, sortByName l = [] <-> l = [].
Proof.
  intros l. split; intros H.
  - apply Permutation_nil. rewrite <- H. apply Permutation_sym, sortByName_perm.
  - now subst.
Qed.

Lemma flat_map_nil :
  forall (A B : Type) (f : A -> list B) l,
    flat_map f l = [] <-> forall a, In a l -> f a = [].
Proof.
  intros A B f. induction l as [|a l IH]; cbn.
  - split; [intros _ ? []|reflexivity].
  - split.
    + intros H. apply app_eq_nil in H. destruct H as [Ha Hl].
      intros b [<-|Hb]; [exact Ha|]. now apply IH.
    + intros H. rewrite (H a) by now left. apply IH. auto.
Qed.

(** X29: [compareMods] returns three empty lists, so that [diff] says
    the mods are identical, exactly when the pack and the bundle have
    the same project IDs and the same version ID for each of them;
    names, file names and sides are not compared. *)
Theorem compareMods_identical :
  forall current mrpack,
    NoDup (keys current) ->
    (compareMods current mrpack = ([], [], [])
     <-> (forall projectID, has current projectID = has mrpack projectID)
         /\ (forall projectID currentMod mrpackMod,
               get current projectID = Some currentMod ->
               get mrpack projectID = Some mrpackMod ->
               ModInfo.VersionID currentMod = ModInfo.VersionID mrpackMod)).
Proof.
  intros current mrpack Hnd. unfold compareMods. split.
  - intros H. injection H as Hm He Hd.
    apply (proj1 (sortByName_nil _)) in Hm.
    apply (proj1 (sortByName_nil _)) in He.
    apply (proj1 (sortByName_nil _)) in Hd.
    pose proof (proj1 (flat_map_nil _ _ _ _) Hm) as Hm'.
    pose proof (proj1 (flat_map_nil _ _ _ _) He) as He'.
    pose proof (proj1 (flat_map_nil _ _ _ _) Hd) as Hd'.
    clear Hm He Hd. rename Hm' into Hm, He' into He, Hd' into Hd. split.
    + intros k. destruct (has current k) eqn:Ec, (has mrpack k) eqn:Em;
        try reflexivity; exfalso.
      * apply has_In in Ec. destruct Ec as [v Hin].
        specialize (He _ Hin). cbn [fst snd] in He. rewrite Em in He.
        discriminate.
      * apply has_In in Em. destruct Em as [v Hin].
        specialize (Hm _ Hin). cbn [fst snd] in Hm. rewrite Ec in Hm.
        discriminate.
    + intros k c m Ec Em. apply get_Some_In in Ec.
      specialize (Hd _ Ec). cbn beta iota in Hd. rewrite Em in Hd.
      destruct (String.eqb_spec (ModInfo.VersionID c) (ModInfo.VersionID m));
        [assumption|discriminate].
  - intros [Hk Hv]. f_equal; [f_equal|]; apply sortByName_nil, flat_map_nil.
    + intros [k v] Hin. cbn [fst snd].
      rewrite Hk. assert (has mrpack k = true) as -> by (apply has_In; eauto).
      reflexivity.
    + intros [k v] Hin. cbn [fst snd].
      rewrite <- Hk. assert (has current k = true) as -> by (apply has_In; eauto).
      reflexivity.
    + intros [k c] Hin.
      destruct (get mrpack k) as [m|] eqn:Em; [|reflexivity].
      rewrite (Hv k c m); [now rewrite String.eqb_refl| |exact Em].
      now apply get_In.
Qed.

Lemma compareMods_identical_witness :
  compareMods [("AANobbMI", sodium); ("gvQqBUqZ", lithium)]
              [("gvQqBUqZ", lithium); ("AANobbMI", sodium)] = ([], [], [])
  <-> (forall projectID,
         has [("AANobbMI", sodium); ("gvQqBUqZ", lithium)] projectID
         = has [("gvQqBUqZ", lithium); ("AANobbMI", sodium)] projectID)
      /\ (forall projectID currentMod mrpackMod,
            get [("AANobbMI", sodium); ("gvQqBUqZ", lithium)] projectID
            = Some currentMod ->
            get [("gvQqBUqZ", lithium); ("AANobbMI", sodium)] projectID
            = Some mrpackMod ->
            ModInfo.VersionID currentMod = ModInfo.VersionID mrpackMod).
Proof.
  apply (compareMods_identical [("AANobbMI", sodium); ("gvQqBUqZ", lithium)]
           [("gvQqBUqZ", lithium); ("AANobbMI", sodium)]).
  repeat constructor; cbn; intuition discriminate.
Defined.

Lemma importStep_processedCount :
  forall env remote deps files installedProjects item st w,
    processedCount (fst (importStep env remote deps files installedProjects
                                    item st w))
    = S (processedCount st).
Proof.
  intros env remote deps files installed item st w.
  destruct (importStep_cases env remote deps files installed item st w)
    as [(Hs & E) | [(Hs & E & _) | (Ha & w0 & w1 & s & m & f & h & _ & _ & _
                                      & _ & _ & _ & E)]].
  - now rewrite E.
  - now rewrite E.
  - rewrite E.
    destruct (saveProgress_cases env (countedInstalled st) w1)
      as (_ & _ & _ & H & _).
    destruct (_ =? 0)%nat; [rewrite H|]; reflexivity.
Qed.

(** X23: the counters of the import loop: every artifact of the batch
    is counted as processed; the count of installed artifacts never
    goes down and grows by at most the number of artifacts that have a
    file reference and whose project is not installed; installed and
    skipped together grow by at most the size of the batch, so the
    number of failures in the summary is not negative. *)
Theorem importLoop_counters :
  forall env remote deps files installedProjects versionMap st w,
    let st' := fst (importLoop env remote deps files installedProjects
                               versionMap st w) in
    processedCount st' = processedCount st + length versionMap
    /\ successCount st <= successCount st'
    /\ successCount st'
       <= successCount st
          + length (filter (itemAttempted files installedProjects) versionMap)
    /\ successCount st' + skippedCount st'
       <= successCount st + skippedCount st + length versionMap.
Proof.
  intros env remote deps files installed vm.
  induction vm as [|item rest IH]; intros st w; cbv zeta.
  - cbn. lia.
  - rewrite importLoop_cons.
    specialize (IH (fst (importStep env remote deps files installed item st w))
                   (snd (importStep env remote deps files installed item st w))).
    cbv zeta in IH. destruct IH as (P & S1 & S2 & T).
    pose proof (importStep_processedCount env remote deps files installed
                  item st w) as Hp.
    pose proof (importStep_skippedCount env remote deps files installed
                  item st w) as Hk.
    pose proof (importStep_successCount env remote deps files installed
                  item st w) as Hs.
    cbv zeta in Hs. cbn [length filter].
    destruct Hs as [Hs|[Hs Ha]].
    + unfold bumpIf in Hk.
      destruct (itemSkipped files installed item),
               (itemAttempted files installed item); cbn [length]; lia.
    + rewrite Ha. rewrite (itemAttempted_not_skipped _ _ _ Ha) in Hk.
      unfold bumpIf in Hk. cbn [length]. lia.
Qed.

Lemma spends_ret : forall (A : Type) (a : A), spends 0 0 (ret a).
Proof.
  intros A a w. cbn. split; [lia|]. exists 0. split; [lia|].
  now rewrite app_nil_r.
Qed.

Lemma spends_weaken :
  forall (A : Type) (c : M A) n k n' k',
    spends n k c -> n <= n' -> k <= k' -> spends n' k' c.
Proof.
  intros A c n k n' k' H Hn Hk w. destruct (H w) as (H1 & j & Hj & H2).
  split; [lia|]. exists j. split; [lia|exact H2].
Qed.

Lemma spends_bind :
  forall (A B : Type) (c : M A) (f : A -> M B) n k n' k',
    spends n k c -> (forall a, spends n' k' (f a)) ->
    spends (n + n') (k + k') (bind c f).
Proof.
  intros A B c f n k n' k' Hc Hf w. rewrite bind_run.
  destruct (Hc w) as (H1 & j & Hj & H2).
  destruct (Hf (fst (c w)) (snd (c w))) as (H3 & j' & Hj' & H4).
  split; [lia|]. exists (j + j'). split; [lia|].
  rewrite H4, H2, <- app_assoc, repeat_app. reflexivity.
Qed.

Lemma spends_request :
  forall (A : Type) (answer : nat -> A), spends 1 0 (request answer).
Proof.
  intros A answer w. cbn. split; [lia|]. exists 0. split; [lia|].
  now rewrite app_nil_r.
Qed.

Lemma spends_Sleep : spends 0 1 (Sleep (Seconds 60)).
Proof.
  intros w. cbn. split; [lia|]. exists 1. split; [lia|reflexivity].
Qed.

Lemma spends_quiet :
  forall (A : Type) (c : M A),
    (forall w, apiCalls (snd (c w)) = apiCalls w
               /\ sleeps (snd (c w)) = sleeps w) ->
    spends 0 0 c.
Proof.
  intros A c H w. destruct (H w) as [H1 H2]. split; [lia|].
  exists 0. split; [lia|]. now rewrite H2, app_nil_r.
Qed.

Lemma spends_getProjectLoop :
  forall remote projectID left,
    left <= maxRetries ->
    spends left (pred left) (getProjectLoop remote projectID left).
Proof.
  intros remote projectID. induction left as [|left IH]; intros Hle.
  - apply spends_ret.
  - cbn [getProjectLoop].
    change (S left) with (1 + left).
    apply (spends_weaken _ _ (1 + left) (0 + pred (1 + left))); [|lia|lia].
    apply spends_bind; [apply spends_request|]. intros [p|e].
    + eapply spends_weaken; [apply spends_ret|lia|lia].
    + destruct (containsAny e rateLimitIndicators
                && (maxRetries - (1 + left) <? maxRetries - 1)%nat) eqn:E.
      * apply andb_true_iff in E. destruct E as [_ E].
        apply Nat.ltb_lt in E. unfold maxRetries in *.
        apply (spends_weaken _ _ (0 + left) (1 + pred left)); [|lia|lia].
        apply spends_bind; [apply spends_Sleep|]. intros _. apply IH. lia.
      * eapply spends_weaken; [apply spends_ret|lia|lia].
Qed.

Lemma spends_bind_quiet :
  forall (A B : Type) (c : M A) (f : A -> M B),
    spends 0 0 c -> (forall a, spends 0 0 (f a)) -> spends 0 0 (bind c f).
Proof. intros A B c f Hc Hf. exact (spends_bind A B c f 0 0 0 0 Hc Hf). Qed.

Lemma spends_readFile : forall path, spends 0 0 (readFile path).
Proof. intros path. apply spends_quiet. intros w. now split. Qed.

Lemma spends_writeFile : forall env path c, spends 0 0 (writeFile env path c).
Proof.
  intros env path c. apply spends_quiet. intros w. unfold writeFile.
  destruct (writeFails env (writes w)); now split.
Qed.

Lemma spends_getIndex : spends 0 0 getIndex.
Proof. apply spends_quiet. intros w. now split. Qed.

Lemma spends_putIndex : forall i, spends 0 0 (putIndex i).
Proof. intros i. apply spends_quiet. intros w. now split. Qed.

Ltac quiet :=
  repeat first
    [ apply spends_bind_quiet; [ | intros ? ]
    | apply spends_ret
    | apply spends_readFile
    | apply spends_writeFile
    | apply spends_getIndex
    | apply spends_putIndex
    | match goal with
      | |- spends 0 0 (match ?x with _ => _ end) => destruct x
      | |- spends 0 0 (if ?x then _ else _) => destruct x
      | |- spends 0 0 (let (_, _) := ?x in _) => destruct x
      end ].

Lemma spends_Mod_Write : forall env m, spends 0 0 (Mod_Write env m).
Proof. intros env m. unfold Mod_Write. quiet. Qed.

Lemma spends_RefreshFileWithHash :
  forall env path format hash b,
    spends 0 0 (RefreshFileWithHash env path format hash b).
Proof. intros. unfold RefreshFileWithHash. quiet. Qed.

Lemma spends_saveProgress : forall env st, spends 0 0 (saveProgress env st).
Proof.
  intros env st. unfold saveProgress, Index_Write, UpdateIndexHash, Pack_Write.
  quiet.
Qed.

Lemma spends_createFileMetaWithSide :
  forall env deps project version file customSide pack,
    spends 0 0 (createFileMetaWithSide env deps project version file
                                        customSide pack).
Proof.
  intros. unfold createFileMetaWithSide.
  destruct (getBestHash deps file) as [algorithm hash].
  destruct (String.eqb algorithm ""); [apply spends_ret|].
  destruct (if String.eqb (metaFolder env) "" then _ else _);
    [|apply spends_ret].
  destruct (Project.Slug project); unfold SetMetaPath;
    (apply spends_bind_quiet; [apply spends_Mod_Write|]);
    intros [[format h] [e|]];
    first [apply spends_ret|apply spends_RefreshFileWithHash].
Qed.

Lemma spends_installVersionByIdWithSide :
  forall env remote deps versionId versionFilename side pack,
    spends 2 0 (installVersionByIdWithSide env remote deps versionId
                                           versionFilename side pack).
Proof.
  intros. unfold installVersionByIdWithSide.
  apply (spends_bind _ _ _ _ 1 0 1 0); [apply spends_request|].
  intros [version|e]; [|eapply spends_weaken; [apply spends_ret|lia|lia]].
  apply (spends_bind _ _ _ _ 1 0 0 0); [apply spends_request|].
  intros [project|e]; [|apply spends_ret].
  unfold installVersionWithSide.
  destruct (if String.eqb versionFilename "" then _ else _);
    [apply spends_createFileMetaWithSide|apply spends_ret].
Qed.

Lemma spends_importStep :
  forall env remote deps files installedProjects item st,
    spends (cost (itemAttempted files installedProjects item) 5)
           (cost (itemAttempted files installedProjects item) 2)
           (importStep env remote deps files installedProjects item st).
Proof.
  intros env remote deps files installed [hash versionInfo] st.
  unfold importStep, itemAttempted. cbn [fst snd].
  destruct (findFileRef files hash) as [fileRef|]; [|apply spends_ret].
  destruct (projectAlreadyInstalled installed _); [apply spends_ret|].
  cbn [negb cost].
  apply (spends_bind _ _ _ _ 3 2 2 0);
    [apply (spends_getProjectLoop remote _ 3); unfold maxRetries; lia|].
  intros [project|e]; [|eapply spends_weaken; [apply spends_ret|lia|lia]].
  apply (spends_bind _ _ _ _ 2 0 0 0);
    [apply spends_installVersionByIdWithSide|].
  intros [e|]; [apply spends_ret|].
  destruct (_ =? 0)%nat; [apply spends_saveProgress|apply spends_ret].
Qed.

(** X24: the import loop sends no more than five requests for each
    artifact that has a file reference and whose project is not yet
    installed (three fetches of the project, the version, the project
    again), and none for the others; it sleeps at most twice 60 seconds
    for each such artifact. *)
Theorem importLoop_requests :
  forall env remote deps files installedProjects versionMap st w,
    let w' := snd (importLoop env remote deps files installedProjects
                              versionMap st w) in
    let attempted :=
      length (filter (itemAttempted files installedProjects) versionMap) in
    apiCalls w <= apiCalls w' <= apiCalls w + 5 * attempted
    /\ exists pauses,
         pauses <= 2 * attempted
         /\ sleeps w' = (sleeps w ++ repeat (Seconds 60) pauses)%list.
Proof.
  intros env remote deps files installed vm st w. cbv zeta.
  revert st w. induction vm as [|item rest IH]; intros st w.
  - cbn. split; [lia|]. exists 0. split; [lia|]. now rewrite app_nil_r.
  - rewrite importLoop_cons.
    destruct (spends_importStep env remote deps files installed item st w)
      as (H1 & j & Hj & H2).
    destruct (IH (fst (importStep env remote deps files installed item st w))
                 (snd (importStep env remote deps files installed item st w)))
      as (H3 & j' & Hj' & H4).
    cbn [filter]. unfold cost in *.
    destruct (itemAttempted files installed item); cbn [length] in *.
    + split; [lia|]. exists (j + j'). split; [lia|].
      now rewrite H4, H2, <- app_assoc, repeat_app.
    + split; [lia|]. exists (j + j'). split; [lia|].
      now rewrite H4, H2, <- app_assoc, repeat_app.
Qed.

(** What a successful [createFileMetaWithSide] leaves behind. *)
Lemma createFileMetaWithSide_run :
  forall env deps project version file customSide pack w,
    let r := createFileMetaWithSide env deps project version file customSide
                                    pack w in
    fst r = None ->
    exists path record,
      (exists s, path = s ++ MetaExtension)
      /\ fs (snd r) = set (fs w) path (FMod record)
      /\ index (snd r)
         = refreshEntry (index w) (RelIndexPath env path) "sha256"
                        (hashContent env (FMod record)) true
      /\ writes (snd r) = S (writes w)
      /\ Side record = customSide
      /\ Name record = Project.Title project
      /\ FileName record = ApiFile.Filename file
      /\ Pin record = false /\ Option record = None
      /\ URL (Download record) = ApiFile.URL file
      /\ (HashFormat (Download record), Hash (Download record))
         = getBestHash deps file
      /\ DisabledClientPlatforms (Download record) = []
      /\ exists projectID,
           Update record
           = [("modrinth", [("mod-id", projectID);
                            ("version", Version.ID version)])]
           /\ (Project.ID project = Some projectID
               \/ Project.ID project = None /\ projectID = "").
Proof.
  intros env deps project version file customSide pack w r.
  destruct r as [err w'] eqn:E. subst r. cbn [fst snd]. intros ->.
  unfold createFileMetaWithSide in E.
  destruct (getBestHash deps file) as [algorithm hash] eqn:Eh.
  destruct (String.eqb algorithm ""); [discriminate|].
  set (folder := if String.eqb (metaFolder env) "" then _ else _) in E.
  destruct folder as [folder|e]; [|discriminate].
  set (name := match Project.Slug project with
               | Some slug => slug
               | None => SlugifyName (Project.Title project)
               end).
  destruct (metaPath_suffix (metaFolderBase env) folder name) as [s Hs].
  assert (Em : forall m,
             match Project.Slug project with
             | Some slug =>
                 SetMetaPath m
                   (filepath_Join [metaFolderBase env; folder;
                                   (slug ++ MetaExtension)%string])
             | None =>
                 SetMetaPath m
                   (filepath_Join [metaFolderBase env; folder;
                                   (SlugifyName (Project.Title project)
                                    ++ MetaExtension)%string])
             end = SetMetaPath m (s ++ MetaExtension)%string).
  { intros m. subst name. rewrite <- Hs. now destruct (Project.Slug project). }
  rewrite Em in E. clear Em. unfold SetMetaPath in E.
  rewrite bind_run in E. unfold Mod_Write in E. rewrite bind_run in E.
  unfold writeFile in E. cbn [fst snd writes metaFile] in E.
  destruct (writeFails env (writes w)) eqn:Hw; cbn [fst snd ret] in E;
    [discriminate|].
  unfold RefreshFileWithHash in E. rewrite !bind_run in E.
  unfold getIndex, putIndex in E. cbn [fst snd ret] in E.
  injection E as <-.
  eexists (s ++ MetaExtension), _. split; [now exists s|].
  split; [reflexivity|]. split; [reflexivity|]. split; [reflexivity|].
  cbn [stored Side Name FileName Pin Option Download URL HashFormat Hash
       DisabledClientPlatforms Update].
  repeat (split; [reflexivity|]).
  unfold ToMap. destruct (Project.ID project) as [i|]; eexists;
    (split; [reflexivity|]); [left|right]; auto.
Qed.

(** A successful installation: the two requests, the file that is
    chosen, and the creation of its record. *)
Lemma install_selects :
  forall env remote deps versionId versionFilename side pack w w',
    installVersionByIdWithSide env remote deps versionId versionFilename side
                               pack w = (None, w') ->
    exists version project file,
      Versions_Get remote (apiCalls w) versionId = Ok version
      /\ Projects_Get remote (S (apiCalls w)) (Version.ProjectID version)
         = Ok project
      /\ In file (Version.Files version)
      /\ (if String.eqb versionFilename ""
          then findPrimaryFile version (compatibleLoaders env pack) = Some file
          else ApiFile.Filename file = versionFilename)
      /\ createFileMetaWithSide env deps project version file side pack
           (with_apiCalls w (2 + apiCalls w)) = (None, w').
Proof.
  intros env remote deps versionId versionFilename side pack w w' E.
  unfold installVersionByIdWithSide in E.
  rewrite bind_run in E. unfold request in E. cbn [fst snd] in E.
  destruct (Versions_Get remote (apiCalls w) versionId) as [version|e] eqn:Ev;
    [|discriminate].
  rewrite bind_run in E. cbn [fst snd apiCalls with_apiCalls] in E.
  destruct (Projects_Get remote (S (apiCalls w)) (Version.ProjectID version))
    as [project|e] eqn:Ep; [|discriminate].
  unfold installVersionWithSide in E.
  change (with_apiCalls (with_apiCalls w (S (apiCalls w))) (S (S (apiCalls w))))
    with (with_apiCalls w (2 + apiCalls w)) in E.
  exists version, project.
  destruct (String.eqb versionFilename "").
  - destruct (findPrimaryFile version (compatibleLoaders env pack))
      as [file|] eqn:Ef; [|discriminate].
    exists file. do 2 (split; [first [reflexivity|assumption]|]).
    split; [|split; [reflexivity|exact E]].
    unfold findPrimaryFile in Ef.
    destruct (Version.Files version) as [|first rest]; [discriminate|].
    destruct (find _ (first :: rest)) as [g|] eqn:Eg.
    + injection Ef as <-. now apply find_some in Eg.
    + injection Ef as <-. now left.
  - destruct (find _ (Version.Files version)) as [file|] eqn:Ef;
      [|discriminate].
    exists file. apply find_some in Ef. destruct Ef as [Hin Hn].
    apply String.eqb_eq in Hn.
    do 2 (split; [first [reflexivity|assumption]|]). auto.
Qed.

(** X21: a successful [installVersionByIdWithSide] sent two requests
    (the version, then its project), chose a file of the version (the
    one [findPrimaryFile] gives, or the one of the given name), wrote one
    file, under a path with the metadata extension, and refreshed the
    Index entry of that path with the sha256 hash of what it wrote; the
    record has the side that was passed in, the title of the project,
    and the name, URL and best hash of the file. *)
Theorem installVersionByIdWithSide_record :
  forall env remote deps versionId versionFilename side pack w,
    let r := installVersionByIdWithSide env remote deps versionId
               versionFilename side pack w in
    fst r = None ->
    exists version project file path record,
      Versions_Get remote (apiCalls w) versionId = Ok version
      /\ Projects_Get remote (S (apiCalls w)) (Version.ProjectID version)
         = Ok project
      /\ apiCalls (snd r) = 2 + apiCalls w
      /\ In file (Version.Files version)
      /\ (if String.eqb versionFilename ""
          then findPrimaryFile version (compatibleLoaders env pack) = Some file
          else ApiFile.Filename file = versionFilename)
      /\ (exists s, path = s ++ MetaExtension)
      /\ fs (snd r) = set (fs w) path (FMod record)
      /\ index (snd r)
         = refreshEntry (index w) (RelIndexPath env path) "sha256"
                        (hashContent env (FMod record)) true
      /\ writes (snd r) = S (writes w)
      /\ Side record = side
      /\ Name record = Project.Title project
      /\ FileName record = ApiFile.Filename file
      /\ URL (Download record) = ApiFile.URL file
      /\ (HashFormat (Download record), Hash (Download record))
         = getBestHash deps file.
Proof.
  intros env remote deps versionId versionFilename side pack w r.
  destruct r as [err w'] eqn:E. subst r. cbn [fst snd]. intros ->.
  destruct (install_selects _ _ _ _ _ _ _ _ _ E)
    as (version & project & file & Ev & Ep & Hin & Hsel & Hc).
  pose proof (createFileMetaWithSide_run env deps project version file side
                pack (with_apiCalls w (2 + apiCalls w))) as H.
  cbv zeta in H. rewrite Hc in H. cbn [fst snd] in H.
  destruct (H eq_refl)
    as (path & record & Hs & Hfs & Hix & Hwr & R1 & R2 & R3 & _ & _ & R4 & R5 & _).
  exists version, project, file, path, record.
  split; [exact Ev|]. split; [exact Ep|].
  split.
  { destruct (spends_createFileMetaWithSide env deps project version file side
                pack (with_apiCalls w (2 + apiCalls w))) as [Ha _].
    rewrite Hc in Ha. cbn [snd apiCalls with_apiCalls] in Ha. lia. }
  split; [exact Hin|]. split; [exact Hsel|].
  split; [exact Hs|]. split; [exact Hfs|]. split; [exact Hix|].
  split; [exact Hwr|]. repeat (split; [assumption|]). exact R5.
Qed.

Lemma installVersionByIdWithSide_record_witness :
  exists version project file path record,
    Versions_Get sampleRemote (apiCalls sampleWorld) "VA" = Ok version
    /\ Projects_Get sampleRemote (S (apiCalls sampleWorld))
         (Version.ProjectID version) = Ok project
    /\ apiCalls (snd sampleInstall) = 2 + apiCalls sampleWorld
    /\ In file (Version.Files version)
    /\ (if String.eqb "" ""
        then findPrimaryFile version (compatibleLoaders sampleEnv samplePack)
             = Some file
        else ApiFile.Filename file = "")
    /\ (exists s, path = s ++ MetaExtension)
    /\ fs (snd sampleInstall) = set (fs sampleWorld) path (FMod record)
    /\ index (snd sampleInstall)
       = refreshEntry (index sampleWorld) (RelIndexPath sampleEnv path)
           "sha256" (hashContent sampleEnv (FMod record)) true
    /\ writes (snd sampleInstall) = S (writes sampleWorld)
    /\ Side record = "client"
    /\ Name record = Project.Title project
    /\ FileName record = ApiFile.Filename file
    /\ URL (Download record) = ApiFile.URL file
    /\ (HashFormat (Download record), Hash (Download record))
       = getBestHash sampleDeps file.
Proof.
  exact (installVersionByIdWithSide_record sampleEnv sampleRemote sampleDeps
           "VA" "" "client" samplePack sampleWorld eq_refl).
Defined.

(** X22: [copyOverrides] leaves the Index value alone, and a path that
    is not the destination of an entry under [overrides/] holds after it
    what it held before (the entry named [overrides/] itself is not
    copied). *)
Theorem copyOverrides_touches_overrides_only :
  forall env zipFiles w,
    let w' := snd (copyOverrides env zipFiles w) in
    index w' = index w
    /\ forall path,
         (forall name isDir bytes,
             In (name, isDir, bytes) zipFiles ->
             overrideDest env name <> Some path) ->
         get (fs w') path = get (fs w) path.
Proof.
  intros env zipFiles. induction zipFiles as [|[[name isDir] bytes] rest IH];
    intros w; cbv zeta.
  - split; auto.
  - cbn [copyOverrides].
    assert (Hrest : forall w0 path,
               (forall name0 isDir0 bytes0,
                   In (name0, isDir0, bytes0) ((name, isDir, bytes) :: rest) ->
                   overrideDest env name0 <> Some path) ->
               get (fs (snd (copyOverrides env rest w0))) path = get (fs w0) path).
    { intros w0 path H. apply (proj2 (IH w0)).
      intros n d b Hin. apply (H n d b). now right. }
    assert (Hhead : forall path,
               (forall name0 isDir0 bytes0,
                   In (name0, isDir0, bytes0) ((name, isDir, bytes) :: rest) ->
                   overrideDest env name0 <> Some path) ->
               overrideDest env name <> Some path)
      by (intros path H; apply (H name isDir bytes); now left).
    unfold overrideDest in Hhead.
    destruct ((10 <? String.length name)%nat
              && String.eqb (substring 0 10 name) "overrides/").
    2:{ split; [apply (proj1 (IH w))|]. intros path H. now apply Hrest. }
    set (dest := ResolveIndexPath env
                   (substring 10 (String.length name - 10) name)) in *.
    destruct isDir.
    + rewrite bind_run. unfold MkdirAll. rewrite bind_run. unfold readFile.
      cbn [fst snd].
      destruct (get (fs w) dest) as [[]|]; cbn [fst snd ret];
        try (split; [reflexivity|intros; reflexivity]).
      * split; [apply (proj1 (IH w))|]. intros path H. now apply Hrest.
      * unfold writeFile. destruct (writeFails env (writes w)); cbn [fst snd ret].
        -- split; [reflexivity|intros; reflexivity].
        -- split; [rewrite (proj1 (IH _)); reflexivity|].
           intros path H. rewrite Hrest by exact H. cbn [fs with_fs with_writes].
           apply get_set_other. intros ->. now apply (Hhead dest H).
    + rewrite bind_run. unfold writeFile.
      destruct (writeFails env (writes w)); cbn [fst snd ret].
      * split; [reflexivity|intros; reflexivity].
      * split; [rewrite (proj1 (IH _)); reflexivity|].
        intros path H. rewrite Hrest by exact H. cbn [fs with_fs with_writes].
        apply get_set_other. intros ->. now apply (Hhead dest H).
Qed.

(** X30: [getMrpackModsWithInfo] sends at most two requests whatever
    the size of the bundle (one hash lookup, one batch of projects) and
    never sleeps; for a bundle without sha512 hashes it returns the
    empty map without a request; when the hash lookup fails it returns
    an error after that one request. *)
Theorem getMrpackModsWithInfo_requests :
  forall remote deps mrpackData w,
    let r := getMrpackModsWithInfo remote deps mrpackData w in
    apiCalls w <= apiCalls (snd r) <= apiCalls w + 2
    /\ sleeps (snd r) = sleeps w
    /\ (sha512Hashes (ModrinthIndexFile.Files mrpackData) = [] ->
        r = (Ok [], w))
    /\ (forall e, version_files remote (apiCalls w)
                    (sha512Hashes (ModrinthIndexFile.Files mrpackData)) = Err e ->
        sha512Hashes (ModrinthIndexFile.Files mrpackData) <> [] ->
        apiCalls (snd r) = S (apiCalls w)
        /\ exists msg, fst r = Err msg).
Proof.
  intros remote deps mrpackData w r.
  destruct r as [res w'] eqn:E. subst r. cbn [fst snd].
  unfold getMrpackModsWithInfo, lookupVersionsByHash in E.
  destruct (sha512Hashes (ModrinthIndexFile.Files mrpackData)) as [|h hs] eqn:Eh.
  - injection E as <- <-. split; [lia|]. split; [reflexivity|].
    split; [reflexivity|]. intros e _ H. now elim H.
  - rewrite bind_run in E. unfold request in E. cbn [fst snd] in E.
    destruct (version_files remote (apiCalls w) (h :: hs)) as [versionMap|e].
    + destruct (collectProjects versionMap [] []) as [projectIDs ptv].
      rewrite bind_run in E. cbn [fst snd apiCalls with_apiCalls] in E.
      destruct (Projects_GetMultiple remote (S (apiCalls w)) projectIDs);
        injection E as <- <-; cbn [apiCalls sleeps with_apiCalls];
        (split; [lia|]); (split; [reflexivity|]);
        (split; [discriminate|]); discriminate.
    + injection E as <- <-. cbn [apiCalls sleeps with_apiCalls].
      split; [lia|]. split; [reflexivity|]. split; [discriminate|].
      intros e0 _ _. split; [reflexivity|]. eauto.
Qed.

Lemma sha512Hashes_nil :
  forall files,
    sha512Hashes files = []
    <-> forall file, In file files ->
                     get (ModrinthIndexFileRef.Hashes file) "sha512" = None.
Proof.
  induction files as [|f files IH]; cbn.
  - split; [intros _ ? []|reflexivity].
  - unfold sha512Of at 1. split.
    + intros H file [<-|Hin].
      * destruct (get (ModrinthIndexFileRef.Hashes f) "sha512");
          [discriminate|reflexivity].
      * apply IH; [|exact Hin].
        destruct (get (ModrinthIndexFileRef.Hashes f) "sha512");
          [discriminate|exact H].
    + intros H. rewrite (H f) by now left. cbn. apply IH. auto.
Qed.

(** X25: a bundle none of whose files carries a sha512 hash is not
    imported: [import] returns normally after loading the pack and the
    Index, without a request and without a write. *)
Theorem importCmd_without_sha512 :
  forall env remote deps mrpackFilePath stop w zipFiles pack files manifest,
    get (fs w) mrpackFilePath = Some (FZip zipFiles) ->
    get (fs w) (packFile env) = Some (FPack pack) ->
    get (fs w) (indexLocation env pack) = Some (FIndex files) ->
    extractModrinthIndex deps zipFiles = Ok manifest ->
    (forall file, In file (ModrinthIndexFile.Files manifest) ->
                  get (ModrinthIndexFileRef.Hashes file) "sha512" = None) ->
    importCmd env remote deps mrpackFilePath stop w
    = ((NothingToDo, None),
       with_index w (mkIndex (indexLocation env pack) files)).
Proof.
  intros env remote deps path stop w zipFiles pack files manifest
         Hz Hp Hi Hm Hh.
  unfold importCmd. rewrite bind_run. unfold readFile at 1 2. cbn [fst snd].
  rewrite Hz, bind_run, LoadPack_run, Hp. cbn [fst snd].
  rewrite bind_run, LoadIndex_run, Hi. cbn [fst snd].
  rewrite bind_run. unfold putIndex. cbn [fst snd]. rewrite Hm.
  apply sha512Hashes_nil in Hh. rewrite Hh. reflexivity.
Qed.

Lemma importCmd_without_sha512_witness :
  importCmd sampleEnv sampleRemote sha1Deps "old.mrpack" [] sha1World
  = ((NothingToDo, None),
     with_index sha1World (mkIndex (indexLocation sampleEnv samplePack) [])).
Proof.
  apply (importCmd_without_sha512 sampleEnv sampleRemote sha1Deps "old.mrpack"
           [] sha1World [("modrinth.index.json", false, "{...}")]
           samplePack [] sha1Only); try reflexivity.
  intros file [<-|[<-|[]]]; reflexivity.
Defined.

Ltac counts_eq := first [reflexivity | lia | f_equal; counts_eq].

Lemma orphanedLoop_run :
  forall env entries c n w,
    orphanedLoop env entries (c, n) w
    = ((mkCounts (issues c + length (filter (orphaned env w) entries))
                 (warnings c),
        n + length (filter (orphaned env w) entries)), w).
Proof.
  intros env. induction entries as [|[fileName e] rest IH]; intros c n w.
  - cbn. rewrite !Nat.add_0_r. now destruct c.
  - cbn [orphanedLoop filter]. rewrite bind_run. unfold Stat.
    cbn [fst snd].
    change (orphaned env w (fileName, e))
      with (negb (pathExists (fs w) (ResolveIndexPath env fileName))).
    destruct (pathExists (fs w) (ResolveIndexPath env fileName));
      cbn [negb]; rewrite IH; cbn [issue issues warnings length].
    + reflexivity.
    + counts_eq.
Qed.

Lemma modsLoop_run :
  forall env entries c v i w,
    modsLoop env entries (c, v, i) w
    = ((mkCounts (issues c + length (filter (recordFails env w) entries))
                 (warnings c),
        v + length (filter (recordPasses env w) entries),
        i + length (filter (recordFails env w) entries)), w).
Proof.
  intros env. induction entries as [|[fileName e] rest IH]; intros c v i w.
  - cbn. rewrite !Nat.add_0_r. now destruct c.
  - cbn [modsLoop filter].
    change (recordFails env w (fileName, e))
      with (IsMetaFile e && negb (recordPasses env w (fileName, e))).
    change (recordPasses env w (fileName, e))
      with (IsMetaFile e
            && match fst (LoadMod env (ResolveIndexPath env fileName) w) with
               | Ok m => validModStructure m
               | Err _ => false
               end).
    destruct (IsMetaFile e); cbn [andb]; [|apply IH].
    rewrite bind_run.
    assert (snd (LoadMod env (ResolveIndexPath env fileName) w) = w) as ->
      by now rewrite LoadMod_run.
    destruct (fst (LoadMod env (ResolveIndexPath env fileName) w)) as [m|err].
    + destruct (validModStructure m); cbn [negb]; rewrite IH;
        cbn [issue issues warnings length]; counts_eq.
    + cbn [negb]. rewrite IH. cbn [issue issues warnings length].
      counts_eq.
Qed.

Lemma walkLoop_issues :
  forall env s index visits c n,
    issues (fst (fst (walkLoop env s index visits (c, n)))) = issues c.
Proof.
  intros env s index. induction visits as [|[path isDir] rest IH]; intros c n.
  - reflexivity.
  - cbn [walkLoop]. unfold walkFn.
    destruct (negb isDir && HasSuffix path MetaExtension); [|apply IH].
    destruct (filepath_Rel s _ path) as [relPath|e]; [|reflexivity].
    destruct (has (Files index) relPath); [apply IH|].
    now rewrite IH.
Qed.

Lemma untrackedLoop_run :
  forall env s index dirs c n w,
    snd (untrackedLoop env s index dirs (c, n) w) = w
    /\ issues (fst (fst (untrackedLoop env s index dirs (c, n) w)))
       = issues c.
Proof.
  intros env s index. induction dirs as [|dir rest IH]; intros c n w.
  - now split.
  - cbn [untrackedLoop]. rewrite bind_run. unfold Stat at 1 2 3 4.
    cbn [fst snd].
    destruct (pathExists (fs w) (ResolveIndexPath env dir)); [|apply IH].
    pose proof (walkLoop_issues env s index
                  (Walk s (fs w) (ResolveIndexPath env dir)) c n) as Hw.
    destruct (walkLoop env s index _ (c, n)) as [[c' n'] [e|]];
      cbn [fst] in Hw.
    + destruct (IH (warning c') n' w) as [H1 H2]. split; [exact H1|].
      rewrite H2. exact Hw.
    + destruct (IH c' n' w) as [H1 H2]. split; [exact H1|].
      rewrite H2. exact Hw.
Qed.

Lemma calculateIndexHash_world :
  forall env s pack w, snd (calculateIndexHash env s pack w) = w.
Proof.
  intros env s pack w. unfold calculateIndexHash. rewrite bind_run.
  unfold readFile at 1 2. cbn [fst snd].
  destruct (get (fs w) _) as [[]|]; try reflexivity;
    now destruct (GetHashImpl s _).
Qed.

Lemma hashCheck_run :
  forall env s pack c w,
    hashCheck env s pack c w
    = (if String.eqb (PackIndexHash pack) "" then warning c
       else if indexHashProblem env s pack w then issue c else c, w).
Proof.
  intros env s pack c w. unfold hashCheck, indexHashProblem.
  destruct (String.eqb (PackIndexHash pack) ""); [reflexivity|].
  rewrite bind_run, calculateIndexHash_world. cbn [negb andb].
  destruct (fst (calculateIndexHash env s pack w)) as [h|e]; [|reflexivity].
  now destruct (String.eqb (PackIndexHash pack) h).
Qed.

(** The run of [validate] on a pack that loads. *)
Lemma validateCmd_run :
  forall env s w exit report w',
    validateCmd env s w = ((exit, report), w') ->
    (report = None /\ exit = Exit1 /\ w' = w)
    \/ exists pack files r,
         get (fs w) (packFile env) = Some (FPack pack)
         /\ get (fs w) (indexLocation env pack) = Some (FIndex files)
         /\ report = Some r
         /\ w' = with_index w (mkIndex (indexLocation env pack) files)
         /\ exit = (if (0 <? issues (counts r))%nat then Exit1 else Returned)
         /\ totalFiles r = length files
         /\ orphanedFiles r = length (filter (orphaned env w) files)
         /\ validMods r = length (filter (recordPasses env w) files)
         /\ invalidMods r = length (filter (recordFails env w) files)
         /\ issues (counts r)
            = bumpIf (String.eqb (PackName pack) "")
              + orphanedFiles r + invalidMods r
              + bumpIf (indexHashProblem env s pack w).
Proof.
  intros env s w exit report w' H. unfold validateCmd in H.
  rewrite bind_run, LoadPack_run in H. cbn [fst snd] in H.
  destruct (get (fs w) (packFile env)) as [[files|pack|m|b|z|]|] eqn:Ep;
    try (left; inversion H; subst; repeat split; reflexivity).
  rewrite bind_run, LoadIndex_run in H. cbn [fst snd] in H.
  destruct (get (fs w) (indexLocation env pack))
    as [[files|pack'|m|b|z|]|] eqn:Ei;
    try (left; inversion H; subst; repeat split; reflexivity).
  rewrite bind_run in H. unfold putIndex in H. cbn [fst snd Files] in H.
  set (idx := mkIndex (indexLocation env pack) files) in *.
  set (w1 := with_index w idx) in *.
  set (c0 := checkFormats s pack idx (mkCounts 0 0)) in *.
  assert (Hc0 : issues c0 = bumpIf (String.eqb (PackName pack) "")).
  { subst c0. unfold checkFormats.
    destruct (String.eqb (PackName pack) "");
      destruct (GetMCVersion s pack) as [v|e]; try destruct (String.eqb v "");
      destruct (length (Versions s pack) =? 0)%nat;
      destruct (length (Files idx) =? 0)%nat; reflexivity. }
  rewrite bind_run, orphanedLoop_run in H. cbn [fst snd] in H.
  rewrite bind_run, modsLoop_run in H. cbn [fst snd] in H.
  rewrite bind_run in H.
  match type of H with
  | context [untrackedLoop env s idx modDirs (?c, ?n) w1] =>
      destruct (untrackedLoop_run env s idx modDirs c n w1) as [U1 U2];
      destruct (untrackedLoop env s idx modDirs (c, n) w1) as [[c3 n3] w3]
  end.
  cbn [fst snd issues] in U1, U2, H. subst w3.
  rewrite bind_run, hashCheck_run in H. cbn [fst snd] in H.
  right. exists pack, files.
  assert (Hw : forall kv, orphaned env w1 kv = orphaned env w kv) by reflexivity.
  assert (Hp : forall kv, recordPasses env w1 kv = recordPasses env w kv).
  { intros kv. unfold recordPasses. now rewrite !LoadMod_run. }
  assert (Hf : forall kv, recordFails env w1 kv = recordFails env w kv).
  { intros kv. unfold recordFails. now rewrite Hp. }
  assert (Hh : indexHashProblem env s pack w1 = indexHashProblem env s pack w).
  { unfold indexHashProblem, calculateIndexHash. rewrite !bind_run.
    unfold readFile. cbn [fst snd]. change (fs w1) with (fs w).
    match goal with
    | |- context [get (fs w) ?p] => destruct (get (fs w) p) as [[]|]
    end; try reflexivity; now destruct (GetHashImpl s _). }
  rewrite (filter_ext _ _ Hw), (filter_ext _ _ Hp), (filter_ext _ _ Hf), Hh in H.
  rewrite (filter_ext _ _ Hw), (filter_ext _ _ Hf) in U2.
  match type of H with
  | (if (0 <? issues ?c)%nat then _ else _) _ = _ =>
      assert (Hi : issues c
                   = bumpIf (String.eqb (PackName pack) "")
                     + length (filter (orphaned env w) files)
                     + length (filter (recordFails env w) files)
                     + bumpIf (indexHashProblem env s pack w));
      [|destruct (0 <? issues c)%nat eqn:E0]
  end.
  { destruct (String.eqb (PackIndexHash pack) "") eqn:Eh.
    - unfold indexHashProblem. rewrite Eh. cbn [negb andb bumpIf warning issues].
      rewrite U2. cbn [issues]. lia.
    - destruct (indexHashProblem env s pack w);
        cbn [bumpIf issue issues]; rewrite U2; cbn [issues]; lia. }
  - cbn [ret] in H. injection H as <- <- <-. eexists.
    do 4 (split; [first [reflexivity|assumption]|]).
    cbn [counts totalFiles orphanedFiles validMods invalidMods].
    rewrite E0. repeat (split; [reflexivity|]). exact Hi.
  - cbn [ret] in H. injection H as <- <- <-. eexists.
    do 4 (split; [first [reflexivity|assumption]|]).
    cbn [counts totalFiles orphanedFiles validMods invalidMods].
    rewrite E0. repeat (split; [reflexivity|]). exact Hi.
Qed.

(** X16: [validate] is read-only: it leaves the disk as it is, attempts
    no write, sends no request and does not sleep. *)
Theorem validateCmd_read_only :
  forall env s w,
    let w' := snd (validateCmd env s w) in
    fs w' = fs w /\ writes w' = writes w /\ apiCalls w' = apiCalls w
    /\ sleeps w' = sleeps w.
Proof.
  intros env s w w'. subst w'.
  destruct (validateCmd env s w) as [[exit report] w'] eqn:E. cbn [snd].
  destruct (validateCmd_run _ _ _ _ _ _ E)
    as [(_ & _ & ->)|(pack & files & r & _ & _ & _ & -> & _)];
    repeat split.
Qed.

(** X17: on a pack whose pack file and Index load, [validate] exits
    with status 1 exactly when it counted an error, and returns normally
    exactly when it counted none (warnings never fail it); the errors
    are one for an empty pack name, one per indexed file that is missing,
    one per metadata record that is invalid and one for an Index hash
    that does not match. *)
Theorem validateCmd_exit_code :
  forall env s w exit r,
    fst (validateCmd env s w) = (exit, Some r) ->
    (exit = Exit1 <-> 0 < issues (counts r))
    /\ (exit = Returned <-> issues (counts r) = 0)
    /\ exists pack,
         get (fs w) (packFile env) = Some (FPack pack)
         /\ issues (counts r)
            = bumpIf (String.eqb (PackName pack) "")
              + orphanedFiles r + invalidMods r
              + bumpIf (indexHashProblem env s pack w).
Proof.
  intros env s w exit r H.
  destruct (validateCmd env s w) as [[exit' report] w'] eqn:E.
  cbn [fst] in H. injection H as -> ->.
  destruct (validateCmd_run _ _ _ _ _ _ E)
    as [(Hn & _)|(pack & files & r' & Ep & _ & Hr & _ & He & _ & _ & _ & _ & Hi)];
    [discriminate|].
  injection Hr as <-.
  split; [|split; [|now exists pack]].
  - rewrite He. destruct (0 <? issues (counts r))%nat eqn:E0.
    + apply Nat.ltb_lt in E0. tauto.
    + apply Nat.ltb_ge in E0. split; [discriminate|lia].
  - rewrite He. destruct (0 <? issues (counts r))%nat eqn:E0.
    + apply Nat.ltb_lt in E0. split; [discriminate|lia].
    + apply Nat.ltb_ge in E0. split; [lia|reflexivity].
Qed.

(** X18: the numbers of the summary of [validate]: the files checked
    are the entries of the Index; the orphaned files are the entries
    whose file is not on disk; the valid records are the metadata
    entries whose record loads and passes the structure checks; valid
    and invalid records together are the metadata entries. *)
Theorem validateCmd_counts :
  forall env s w exit r,
    fst (validateCmd env s w) = (exit, Some r) ->
    exists pack files,
      get (fs w) (packFile env) = Some (FPack pack)
      /\ get (fs w) (indexLocation env pack) = Some (FIndex files)
      /\ totalFiles r = length files
      /\ orphanedFiles r = length (filter (orphaned env w) files)
      /\ validMods r = length (filter (recordPasses env w) files)
      /\ validMods r + invalidMods r
         = length (filter (fun kv => IsMetaFile (snd kv)) files).
Proof.
  intros env s w exit r H.
  destruct (validateCmd env s w) as [[exit' report] w'] eqn:E.
  cbn [fst] in H. injection H as -> ->.
  destruct (validateCmd_run _ _ _ _ _ _ E)
    as [(Hn & _)|(pack & files & r' & Ep & Ei & Hr & _ & _ & Ht & Ho & Hv & Hi & _)];
    [discriminate|].
  injection Hr as <-. exists pack, files.
  repeat (split; [assumption|]). rewrite Hv, Hi. clear.
  induction files as [|kv files IH]; [reflexivity|].
  cbn [filter]. unfold recordFails at 1.
  destruct (IsMetaFile (snd kv)) eqn:Em.
  - destruct (recordPasses env w kv); cbn [andb negb length]; lia.
  - assert (recordPasses env w kv = false) as ->
      by (unfold recordPasses; now rewrite Em).
    exact IH.
Qed.

(** What the checks of a record's structure ask for. *)
Lemma validModStructure_accepts :
  forall m,
    validModStructure m = true
    <-> Name m <> "" /\ FileName m <> ""
        /\ URL (Download m) <> ""
        /\ HashFormat (Download m) <> "" /\ Hash (Download m) <> ""
        /\ (Side m = "" \/ ValidateSide (Side m) = None).
Proof.
  intros m. unfold validModStructure.
  destruct (String.eqb_spec (Name m) ""); [split; [discriminate|tauto]|].
  destruct (String.eqb_spec (FileName m) ""); [split; [discriminate|tauto]|].
  destruct (String.eqb_spec (URL (Download m)) "");
    [split; [discriminate|tauto]|].
  destruct (String.eqb_spec (HashFormat (Download m)) "");
    [split; [discriminate|tauto]|].
  destruct (String.eqb_spec (Hash (Download m)) "");
    [split; [discriminate|tauto]|].
  cbn [orb]. destruct (String.eqb_spec (Side m) ""); cbn [negb].
  - split; [tauto|reflexivity].
  - destruct (ValidateSide (Side m)).
    + split; [discriminate|]. intros (_ & _ & _ & _ & _ & [H|H]);
        [contradiction|discriminate].
    + split; [tauto|reflexivity].
Qed.

Lemma Rev1_importLoop_cons :
  forall env remote deps files pack item rest n w,
    Rev1.importLoop env remote deps files pack (item :: rest) n w
    = Rev1.importLoop env remote deps files pack rest
        (fst (Rev1.importStep env remote deps files pack item n w))
        (snd (Rev1.importStep env remote deps files pack item n w)).
Proof. intros. cbn [Rev1.importLoop]. now rewrite bind_run. Qed.

Lemma Rev1_importStep_cases :
  forall env remote deps files pack item n w,
    (wantedByEnv files item = false
     /\ Rev1.importStep env remote deps files pack item n w = (n, w))
    \/ (wantedByEnv files item = true
        /\ exists fileRef side warning err w',
             findFileRef files (fst item) = Some fileRef
             /\ determineSideFromEnv (ModrinthIndexFileRef.Env fileRef)
                = (side, false, warning)
             /\ installVersionByIdWithSide env remote deps
                  (HashResponse.ID (snd item)) "" side pack w = (err, w')
             /\ Rev1.importStep env remote deps files pack item n w
                = (match err with Some _ => n | None => S n end, w')).
Proof.
  intros env remote deps files pack [hash versionInfo] n w.
  unfold wantedByEnv, Rev1.importStep. cbn [fst snd].
  destruct (findFileRef files hash) as [fileRef|]; [|left; now split].
  destruct (determineSideFromEnv (ModrinthIndexFileRef.Env fileRef))
    as [[side shouldSkip] warning] eqn:Ed. cbn [fst snd].
  destruct shouldSkip; cbn [negb]; [left; now split|].
  right. split; [reflexivity|].
  destruct (installVersionByIdWithSide env remote deps
              (HashResponse.ID versionInfo) "" side pack w) as [err w'] eqn:Ei.
  exists fileRef, side, warning, err, w'.
  repeat (split; [reflexivity|]).
  rewrite bind_run, Ei. cbn [fst snd]. now destruct err.
Qed.

(** X26: the loop of the first revision of [import]: the count of
    installed artifacts grows by at most the number of artifacts whose
    file reference is found and whose environment does not make
    [determineSideFromEnv] skip them; two requests at most are sent for
    each of those and none for the others; the loop never sleeps; and
    when there is no such artifact the disk, the Index and the counters
    of the machine are untouched. *)
Theorem Rev1_importLoop_budget :
  forall env remote deps files pack versionMap n w,
    let r := Rev1.importLoop env remote deps files pack versionMap n w in
    let wanted := length (filter (wantedByEnv files) versionMap) in
    n <= fst r <= n + wanted
    /\ apiCalls w <= apiCalls (snd r) <= apiCalls w + 2 * wanted
    /\ sleeps (snd r) = sleeps w
    /\ (wanted = 0 -> snd r = w).
Proof.
  intros env remote deps files pack vm. induction vm as [|item rest IH];
    intros n w; cbv zeta.
  - cbn. repeat split; lia.
  - rewrite Rev1_importLoop_cons. cbn [filter].
    destruct (Rev1_importStep_cases env remote deps files pack item n w)
      as [(Hw & ->)|(Hw & fileRef & side & warning & err & w' & _ & _ & Ei & ->)];
      rewrite Hw; cbn [fst snd].
    + exact (IH n w).
    + specialize (IH (match err with Some _ => n | None => S n end) w').
      cbv zeta in IH. destruct IH as (H1 & H2 & H3 & _).
      destruct (spends_installVersionByIdWithSide env remote deps
                  (HashResponse.ID (snd item)) "" side pack w)
        as (A1 & j & Hj & A2).
      rewrite Ei in A1, A2. cbn [snd] in A1, A2.
      assert (j = 0) by lia. subst j. cbn [repeat] in A2.
      rewrite app_nil_r in A2.
      cbn [length]. split; [destruct err; lia|]. split; [lia|].
      split; [congruence|]. discriminate.
Qed.

(** X27: in the first revision an artifact that is installed gets the
    side [determineSideFromEnv] derives from the environment of its file
    reference, and that side is one [ValidateSide] accepts. *)
Theorem Rev1_importStep_side :
  forall env remote deps files pack item n w,
    let r := Rev1.importStep env remote deps files pack item n w in
    fst r = S n ->
    exists fileRef path record,
      findFileRef files (fst item) = Some fileRef
      /\ fs (snd r) = set (fs w) path (FMod record)
      /\ index (snd r)
         = refreshEntry (index w) (RelIndexPath env path) "sha256"
                        (hashContent env (FMod record)) true
      /\ Side record
         = fst (fst (determineSideFromEnv (ModrinthIndexFileRef.Env fileRef)))
      /\ ValidateSide (Side record) = None.
Proof.
  intros env remote deps files pack item n w r. subst r.
  destruct (Rev1_importStep_cases env remote deps files pack item n w)
    as [(Hw & ->)|(Hw & fileRef & side & warning & err & w' & Hf & Hd & Ei & ->)];
    cbn [fst snd]; [intros H; lia|].
  destruct err as [e|]; [intros H; lia|]. intros _.
  destruct (install_selects _ _ _ _ _ _ _ _ _ Ei)
    as (version & project & file & _ & _ & _ & _ & Hc).
  pose proof (createFileMetaWithSide_run env deps project version file side
                pack (with_apiCalls w (2 + apiCalls w))) as H.
  cbv zeta in H. rewrite Hc in H. cbn [fst snd] in H.
  destruct (H eq_refl) as (path & record & _ & Hfs & Hix & _ & R1 & _).
  exists fileRef, path, record. rewrite Hd. cbn [fst].
  split; [exact Hf|]. split; [exact Hfs|]. split; [exact Hix|].
  split; [exact R1|]. rewrite R1.
  pose proof (determineSideFromEnv_side_valid
                (ModrinthIndexFileRef.Env fileRef)) as Hv.
  now rewrite Hd in Hv.
Qed.

Lemma Rev1_importStep_side_witness :
  exists fileRef path record,
    findFileRef [clientFileRef] (fst ("hash-A", HashResponse.mk "VA" "PA"))
    = Some fileRef
    /\ fs (snd (Rev1.importStep sampleEnv sampleRemote sampleDeps
                  [clientFileRef] samplePack
                  ("hash-A", HashResponse.mk "VA" "PA") 0 sampleWorld))
       = set (fs sampleWorld) path (FMod record)
    /\ index (snd (Rev1.importStep sampleEnv sampleRemote sampleDeps
                     [clientFileRef] samplePack
                     ("hash-A", HashResponse.mk "VA" "PA") 0 sampleWorld))
       = refreshEntry (index sampleWorld) (RelIndexPath sampleEnv path)
           "sha256" (hashContent sampleEnv (FMod record)) true
    /\ Side record
       = fst (fst (determineSideFromEnv (ModrinthIndexFileRef.Env fileRef)))
    /\ ValidateSide (Side record) = None.
Proof.
  exact (Rev1_importStep_side sampleEnv sampleRemote sampleDeps [clientFileRef]
           samplePack ("hash-A", HashResponse.mk "VA" "PA") 0 sampleWorld
           eq_refl).
Defined.

Lemma validateCmd_exit_code_witness :
  (Exit1 = Exit1 <-> 0 < issues (counts validateReport))
  /\ (Exit1 = Returned <-> issues (counts validateReport) = 0)
  /\ exists pack,
       get (fs validateWorld) (packFile sampleEnv) = Some (FPack pack)
       /\ issues (counts validateReport)
          = bumpIf (String.eqb (PackName pack) "")
            + orphanedFiles validateReport + invalidMods validateReport
            + bumpIf (indexHashProblem sampleEnv sampleSurroundings pack
                                       validateWorld).
Proof.
  apply (validateCmd_exit_code sampleEnv sampleSurroundings validateWorld
           Exit1 validateReport).
  vm_compute. reflexivity.
Defined.

Lemma validateCmd_counts_witness :
  exists pack files,
    get (fs validateWorld) (packFile sampleEnv) = Some (FPack pack)
    /\ get (fs validateWorld) (indexLocation sampleEnv pack)
       = Some (FIndex files)
    /\ totalFiles validateReport = length files
    /\ orphanedFiles validateReport
       = length (filter (orphaned sampleEnv validateWorld) files)
    /\ validMods validateReport
       = length (filter (recordPasses sampleEnv validateWorld) files)
    /\ validMods validateReport + invalidMods validateReport
       = length (filter (fun kv => IsMetaFile (snd kv)) files).
Proof.
  apply (validateCmd_counts sampleEnv sampleSurroundings validateWorld
           Exit1 validateReport).
  vm_compute. reflexivity.
Defined.

(** ** Duplicates within a batch *)

(** Where [createFileMetaWithSide] writes, and what. *)
Lemma createFileMetaWithSide_at :
  forall env deps project version file customSide pack w,
    let r := createFileMetaWithSide env deps project version file customSide
                                    pack w in
    fst r = None ->
    exists folder record,
      (if String.eqb (metaFolder env) ""
       then getProjectTypeFolder deps (Project.ProjectType project)
              (Version.Loaders version) (compatibleLoaders env pack)
            = Ok folder
       else folder = metaFolder env)
      /\ fs (snd r) = set (fs w) (recordPath env folder project) (FMod record)
      /\ index (snd r)
         = refreshEntry (index w)
             (RelIndexPath env (recordPath env folder project)) "sha256"
             (hashContent env (FMod record)) true
      /\ Name record = Project.Title project
      /\ recordedVersion record = Some (Version.ID version).
Proof.
  intros env deps project version file customSide pack w r.
  destruct r as [err w'] eqn:E. subst r. cbn [fst snd]. intros ->.
  unfold createFileMetaWithSide in E.
  destruct (getBestHash deps file) as [algorithm hash] eqn:Eh.
  destruct (String.eqb algorithm ""); [discriminate|].
  set (fd := if String.eqb (metaFolder env) "" then _ else _) in E.
  destruct fd as [folder|e] eqn:Efd; [|discriminate].
  assert (Em : forall m,
             match Project.Slug project with
             | Some slug =>
                 SetMetaPath m
                   (filepath_Join [metaFolderBase env; folder;
                                   (slug ++ MetaExtension)%string])
             | None =>
                 SetMetaPath m
                   (filepath_Join [metaFolderBase env; folder;
                                   (SlugifyName (Project.Title project)
                                    ++ MetaExtension)%string])
             end = SetMetaPath m (recordPath env folder project)).
  { intros m. unfold recordPath, recordName.
    now destruct (Project.Slug project). }
  rewrite Em in E. clear Em. unfold SetMetaPath in E.
  rewrite bind_run in E. unfold Mod_Write in E. rewrite bind_run in E.
  unfold writeFile in E. cbn [fst snd writes metaFile] in E.
  destruct (writeFails env (writes w)) eqn:Hw; cbn [fst snd ret] in E;
    [discriminate|].
  unfold RefreshFileWithHash in E. rewrite !bind_run in E.
  unfold getIndex, putIndex in E. cbn [fst snd ret] in E.
  injection E as <-.
  exists folder. eexists. split.
  { subst fd. destruct (String.eqb (metaFolder env) "");
      [exact Efd|congruence]. }
  split; [reflexivity|]. split; [reflexivity|]. split; reflexivity.
Qed.

Lemma saveProgress_keeps_records :
  forall env st w p,
    p <> indexFile (index w) ->
    p <> packFile env ->
    get (fs (snd (saveProgress env st w))) p = get (fs w) p.
Proof.
  intros env st w p Hi Hp.
  destruct (saveProgress_cases env st w) as (_ & _ & _ & _ & Hzero & Hpos).
  destruct (successCount st) as [|n] eqn:En.
  - now rewrite Hzero.
  - destruct Hpos as [(_ & Hf & _) | (_ & _ & [Hf | [q Hf]])];
      [lia|now rewrite Hf| |]; rewrite Hf.
    + now apply get_set_other.
    + rewrite !get_set_other; auto.
Qed.

(** In reliable surroundings, the iteration for an artifact whose
    project is not among the installed ones writes the record of the
    version and refreshes its entry in the Index. *)
Lemma importStep_installs :
  forall env remote deps files installedProjects item st w,
    reliable env remote deps ->
    (forall s, indexFile (index w) <> (s ++ MetaExtension)%string) ->
    (forall s, packFile env <> (s ++ MetaExtension)%string) ->
    itemAttempted files installedProjects item = true ->
    let r := importStep env remote deps files installedProjects item st w in
    exists version project folder record,
      recordOf env remote deps (snd item) version project folder record
      /\ index (snd r)
         = refreshEntry (index w)
             (RelIndexPath env (recordPath env folder project)) "sha256"
             (hashContent env (FMod record)) true
      /\ (forall s,
            get (fs (snd r)) (s ++ MetaExtension)%string
            = get (set (fs w) (recordPath env folder project) (FMod record))
                  (s ++ MetaExtension)%string)
      /\ successCount (fst r) = S (successCount st)
      /\ skippedCount (fst r) = skippedCount st.
Proof.
  intros env remote deps files installed [hash versionInfo] st w Hr Hidx Hpk
         Ha. cbv zeta.
  unfold itemAttempted in Ha. cbn [fst snd] in Ha |- *.
  unfold importStep.
  cbn [pack successCount skippedCount processedCount].
  destruct (findFileRef files hash) as [fileRef|]; [|discriminate].
  destruct (projectAlreadyInstalled installed _); [discriminate|]. clear Ha.
  rewrite bind_run.
  destruct (getProject_reliable env remote deps
              (HashResponse.ProjectID versionInfo) w Hr) as (project0 & Ep).
  destruct (preserves_getProjectWithRateLimit remote
              (HashResponse.ProjectID versionInfo) w) as (F1 & F2 & F3).
  destruct (getProjectWithRateLimit remote
              (HashResponse.ProjectID versionInfo) w) as [p0 w0].
  cbn [fst snd] in *. subst p0.
  rewrite bind_run.
  set (side := if String.eqb (getSide deps project0) "" then UniversalSide
               else getSide deps project0).
  pose proof (install_reliable env remote deps (HashResponse.ID versionInfo)
                side (pack st) w0 Hr) as Hnone.
  destruct (installVersionByIdWithSide env remote deps
              (HashResponse.ID versionInfo) "" side (pack st) w0)
    as [err w1] eqn:Ei.
  cbn [fst snd] in *. subst err.
  destruct (install_selects env remote deps (HashResponse.ID versionInfo) ""
              side (pack st) w0 w1 Ei)
    as (version & project & file & Ev & Epr & _ & _ & Ec).
  pose proof (createFileMetaWithSide_at env deps project version file side
                (pack st) (with_apiCalls w0 (2 + apiCalls w0))) as Hc.
  cbv zeta in Hc. rewrite Ec in Hc. cbn [fst snd] in Hc.
  destruct (Hc eq_refl) as (folder & record & Hfd & Hfs & Hix & Hn & Hv).
  cbn [fs index with_apiCalls] in Hfs, Hix. rewrite F1 in Hfs.
  rewrite F3 in Hix.
  exists version, project, folder, record.
  split.
  { unfold recordOf. cbn [snd].
    split; [eauto|]. split; [eauto|]. split; [|auto].
    destruct (String.eqb (metaFolder env) ""); [eauto|exact Hfd]. }
  set (st1 := mkImportState (pack st) (S (successCount st)) (skippedCount st)
                            (S (processedCount st))).
  destruct (saveProgress_cases env st1 w1) as (Si & Sc & Sk & _).
  destruct (metaPath_suffix (metaFolderBase env) folder (recordName project))
    as (s0 & Hs0).
  fold (recordPath env folder project) in Hs0.
  assert (Hfile : indexFile (index w1) = indexFile (index w))
    by (rewrite Hix; reflexivity).
  destruct (S (successCount st) mod 10 =? 0)%nat; cbn [fst snd ret].
  - rewrite Si, Sc, Sk. split; [exact Hix|]. split; [|auto].
    intros s. rewrite saveProgress_keeps_records.
    + now rewrite Hfs.
    + rewrite Hfile. intros H. exact (Hidx s (eq_sym H)).
    + intros H. exact (Hpk s (eq_sym H)).
  - split; [exact Hix|]. split; [|auto]. intros s. now rewrite Hfs.
Qed.

(** C10, as the code has it.  The installed project IDs are an argument
    of the loop that no iteration changes, so an artifact is skipped
    only for a project that was installed before the loop began.  Of two
    references that share a project ID which is not among those, none is
    skipped, and when no fetch, installation or write fails both go
    through the installer and are counted as installed: each writes the
    record of its version, at the path made of the folder and of the
    slug of the project, and refreshes the entry of that path in the
    Index.  The two installations do not see each other: when the two
    paths are the same, the second record takes the place of the first,
    on disk and in the Index, so that the pack ends with the version of
    the reference that the range yielded last; when they differ, both
    records stay. *)
Theorem importLoop_duplicates_within_batch :
  forall env remote deps files installedProjects versionMap st w
         hash1 v1 hash2 v2,
    HashResponse.ProjectID v1 = HashResponse.ProjectID v2 ->
    projectAlreadyInstalled installedProjects (HashResponse.ProjectID v1)
    = false ->
    findFileRef files hash1 <> None ->
    findFileRef files hash2 <> None ->
    let r := importLoop env remote deps files installedProjects
                        [(hash1, v1); (hash2, v2)] st w in
    let final := fst (importLoop env remote deps files installedProjects
                                 versionMap st w) in
    skippedCount (fst r) = skippedCount st
    /\ skippedCount final
       = skippedCount st
         + length (filter (itemSkipped files installedProjects) versionMap)
    /\ (reliable env remote deps ->
        successCount (fst r) = successCount st + 2
        /\ successCount final
           = successCount st
             + length (filter (itemAttempted files installedProjects)
                              versionMap)
        /\ ((forall s, indexFile (index w) <> (s ++ MetaExtension)%string) ->
            (forall s, packFile env <> (s ++ MetaExtension)%string) ->
            exists version1 project1 folder1 record1
                   version2 project2 folder2 record2,
              recordOf env remote deps v1 version1 project1 folder1 record1
              /\ recordOf env remote deps v2 version2 project2 folder2 record2
              /\ let path1 := recordPath env folder1 project1 in
                 let path2 := recordPath env folder2 project2 in
                 index (snd r)
                 = refreshEntry
                     (refreshEntry (index w) (RelIndexPath env path1) "sha256"
                                   (hashContent env (FMod record1)) true)
                     (RelIndexPath env path2) "sha256"
                     (hashContent env (FMod record2)) true
                 /\ get (fs (snd r)) path2 = Some (FMod record2)
                 /\ (path1 = path2 ->
                     get (fs (snd r)) path1 = Some (FMod record2))
                 /\ (path1 <> path2 ->
                     get (fs (snd r)) path1 = Some (FMod record1)))).
Proof.
  intros env remote deps files installed vm st w h1 v1 h2 v2
         Hpid Hni Hf1 Hf2. cbv zeta.
  assert (A1 : itemAttempted files installed (h1, v1) = true).
  { unfold itemAttempted. cbn [fst snd].
    destruct (findFileRef files h1); [|congruence]. now rewrite Hni. }
  assert (A2 : itemAttempted files installed (h2, v2) = true).
  { unfold itemAttempted. cbn [fst snd].
    destruct (findFileRef files h2); [|congruence].
    now rewrite <- Hpid, Hni. }
  pose proof (itemAttempted_not_skipped _ _ _ A1) as S1.
  pose proof (itemAttempted_not_skipped _ _ _ A2) as S2.
  split.
  { rewrite importLoop_skippedCount. cbn [filter]. rewrite S1, S2.
    cbn [length]. lia. }
  split; [apply importLoop_skippedCount|].
  intros Hr. split.
  { rewrite importLoop_successCount by exact Hr.
    cbn [filter]. rewrite A1, A2. cbn [length]. lia. }
  split; [apply importLoop_successCount; exact Hr|].
  intros Hidx Hpk.
  rewrite !importLoop_cons. cbn [importLoop ret fst snd].
  destruct (importStep_installs env remote deps files installed (h1, v1) st w
              Hr Hidx Hpk A1)
    as (version1 & project1 & folder1 & record1 & R1 & I1 & D1 & _).
  set (st1 := fst (importStep env remote deps files installed (h1, v1) st w))
    in *.
  set (w1 := snd (importStep env remote deps files installed (h1, v1) st w))
    in *.
  assert (Hidx1 : forall s, indexFile (index w1) <> (s ++ MetaExtension)%string).
  { intros s. rewrite I1. apply Hidx. }
  destruct (importStep_installs env remote deps files installed (h2, v2)
              st1 w1 Hr Hidx1 Hpk A2)
    as (version2 & project2 & folder2 & record2 & R2 & I2 & D2 & _).
  exists version1, project1, folder1, record1,
         version2, project2, folder2, record2.
  cbn [snd] in R1, R2.
  split; [exact R1|]. split; [exact R2|]. cbv zeta.
  destruct (metaPath_suffix (metaFolderBase env) folder1 (recordName project1))
    as (s1 & Hs1).
  destruct (metaPath_suffix (metaFolderBase env) folder2 (recordName project2))
    as (s2 & Hs2).
  fold (recordPath env folder1 project1) in Hs1.
  fold (recordPath env folder2 project2) in Hs2.
  assert (G2 : get (fs (snd (importStep env remote deps files installed
                                        (h2, v2) st1 w1)))
                   (recordPath env folder2 project2)
               = Some (FMod record2)).
  { rewrite Hs2, D2, <- Hs2. apply get_set_same. }
  split; [rewrite I2, I1; reflexivity|].
  split; [exact G2|]. split.
  - intros E. rewrite E. exact G2.
  - intros Hne. rewrite Hs1, D2, <- Hs1.
    rewrite get_set_other by exact Hne.
    rewrite Hs1, D1, <- Hs1. apply get_set_same.
Qed.

Lemma pack_toml_not_meta :
  forall s, "pack.toml" <> (s ++ MetaExtension)%string.
Proof.
  intros s H.
  assert (L : String.length (s ++ MetaExtension) = 9) by now rewrite <- H.
  rewrite length_append in L. cbn in L.
  destruct s as [|a [|b s]]; cbn in L; try lia.
  cbn in H. inversion H.
Qed.

(** Two versions of project [PA] in one bundle, [PA] not installed:
    both are counted as installed and none as skipped, in either
    order, and the record of the one that comes last is on disk. *)
Lemma importLoop_duplicates_within_batch_witness :
  let final vm :=
    importLoop sampleEnv sampleRemote sampleDeps twoFiles []
               vm (mkImportState samplePack 0 0 0) sampleWorld in
  (successCount (fst (final twoVersionsOfPA)) = 2
   /\ skippedCount (fst (final twoVersionsOfPA)) = 0)
  /\ (successCount (fst (final (rev twoVersionsOfPA))) = 2
      /\ skippedCount (fst (final (rev twoVersionsOfPA))) = 0)
  /\ exists version1 project1 folder1 record1
            version2 project2 folder2 record2,
       recordOf sampleEnv sampleRemote sampleDeps (HashResponse.mk "VA" "PA")
                version1 project1 folder1 record1
       /\ recordOf sampleEnv sampleRemote sampleDeps
                   (HashResponse.mk "VA2" "PA")
                   version2 project2 folder2 record2
       /\ get (fs (snd (final twoVersionsOfPA)))
              (recordPath sampleEnv folder2 project2)
          = Some (FMod record2).
Proof.
  assert (F1 : findFileRef twoFiles "hash-A" <> None) by discriminate.
  assert (F2 : findFileRef twoFiles "hash-B" <> None) by discriminate.
  destruct (importLoop_duplicates_within_batch sampleEnv sampleRemote
              sampleDeps twoFiles [] [] (mkImportState samplePack 0 0 0)
              sampleWorld "hash-A" (HashResponse.mk "VA" "PA")
              "hash-B" (HashResponse.mk "VA2" "PA")
              eq_refl eq_refl F1 F2) as (H2 & _ & H).
  destruct (H sample_reliable) as (H1 & _ & Hrec).
  destruct (Hrec index_toml_not_meta pack_toml_not_meta)
    as (version1 & project1 & folder1 & record1
        & version2 & project2 & folder2 & record2 & R1 & R2 & _ & G & _).
  destruct (importLoop_duplicates_within_batch sampleEnv sampleRemote
              sampleDeps twoFiles [] [] (mkImportState samplePack 0 0 0)
              sampleWorld "hash-B" (HashResponse.mk "VA2" "PA")
              "hash-A" (HashResponse.mk "VA" "PA")
              eq_refl eq_refl F2 F1) as (H4 & _ & H').
  destruct (H' sample_reliable) as (H3 & _).
  cbv zeta. split; [split; [exact H1|exact H2]|].
  split; [split; [exact H3|exact H4]|].
  exists version1, project1, folder1, record1,
         version2, project2, folder2, record2.
  split; [exact R1|]. split; [exact R2|exact G].
Defined.

(** Two versions of project [PA] in one bundle, [PA] not installed:
    both are counted as installed, and the pack ends with one record
    and one Index entry for [PA]; the record says version [VA2] when
    the range yields [VA2] last and [VA] when it yields [VA] last.  The
    version that came first has no record. *)
Lemma duplicates_overwrite_each_other :
  let final vm :=
    importLoop sampleEnv sampleRemote sampleDeps twoFiles []
               vm (mkImportState samplePack 0 0 0) sampleWorld in
  let recorded vm :=
    match get (fs (snd (final vm))) "mods/pa.pw.toml" with
    | Some (FMod m) => recordedVersion m
    | _ => None
    end in
  successCount (fst (final twoVersionsOfPA)) = 2
  /\ keys (fs (snd (final twoVersionsOfPA)))
     = ["pack.toml"; "index.toml"; "mods/pa.pw.toml"]
  /\ keys (Files (index (snd (final twoVersionsOfPA)))) = ["mods/pa.pw.toml"]
  /\ recorded twoVersionsOfPA = Some "VA2"
  /\ recorded (rev twoVersionsOfPA) = Some "VA"
  /\ ~ both_duplicates_kept.
Proof.
  cbv zeta. do 5 (split; [vm_compute; reflexivity|]).
  intros H.
  assert (F1 : findFileRef twoFiles "hash-A" <> None) by discriminate.
  assert (F2 : findFileRef twoFiles "hash-B" <> None) by discriminate.
  destruct (H sampleEnv sampleRemote sampleDeps twoFiles []
              "hash-A" (HashResponse.mk "VA" "PA")
              "hash-B" (HashResponse.mk "VA2" "PA")
              (mkImportState samplePack 0 0 0) sampleWorld
              sample_reliable eq_refl eq_refl F1 F2
              (HashResponse.mk "VA" "PA") (or_introl eq_refl))
    as (path & m & Hg & Hv).
  apply get_Some_In in Hg.
  assert (E : fs (snd (importLoop sampleEnv sampleRemote sampleDeps twoFiles
                                  []
                                  [("hash-A", HashResponse.mk "VA" "PA");
                                   ("hash-B", HashResponse.mk "VA2" "PA")]
                                  (mkImportState samplePack 0 0 0)
                                  sampleWorld))
              = fs (snd (importLoop sampleEnv sampleRemote sampleDeps twoFiles
                                    [] twoVersionsOfPA
                                    (mkImportState samplePack 0 0 0)
                                    sampleWorld))) by reflexivity.
  rewrite E in Hg. clear E.
  remember (fs (snd (importLoop sampleEnv sampleRemote sampleDeps twoFiles []
                                twoVersionsOfPA
                                (mkImportState samplePack 0 0 0) sampleWorld)))
    as disk eqn:Ed.
  vm_compute in Ed. subst disk.
  destruct Hg as [Hg|[Hg|[Hg|[]]]]; inversion Hg; subst m.
  vm_compute in Hv. discriminate Hv.
Qed.
